(** * Stub generator: a shallow embedding of [pyi_generator.py]

    The development follows the layout of the source file: text helpers,
    the runtime-object model the generator introspects, the name sanitizer
    and the type annotation resolver, the class and function renderers, the
    member classifier, the tree builder and the driver.  The theorems come
    after all definitions. *)

From Stdlib Require Import String Ascii List Bool Arith Lia.
From stdpp Require Import base option list gmap sets strings fin_maps.

Open Scope string_scope.
Open Scope list_scope.
Open Scope nat_scope.

(** ** Text helpers

    A Python [str] is modelled as a [string] whose characters are the code
    points U+0000 to U+00FF. *)

Definition nl : string := String (ascii_of_nat 10) EmptyString.
Definition dquote : ascii := ascii_of_nat 34.

Definition code (c : ascii) : nat := nat_of_ascii c.

Definition between (lo hi n : nat) : bool := (lo <=? n) && (n <=? hi).

Fixpoint string_forallb (p : ascii -> bool) (s : string) : bool :=
  match s with
  | EmptyString => true
  | String c r => p c && string_forallb p r
  end.

(** [s.startswith(p)] *)
Definition startswith (p s : string) : bool := String.prefix p s.

(** [s.endswith(p)] *)
Definition endswith (p s : string) : bool :=
  let n := String.length s in
  let k := String.length p in
  (k <=? n) && String.eqb (String.substring (n - k) k s) p.

(** [s.split(sep)] for a one-character separator: never the empty list. *)
Fixpoint split_on (sep : ascii) (s : string) : list string :=
  match s with
  | EmptyString => [EmptyString]
  | String c r =>
      if Ascii.eqb c sep then EmptyString :: split_on sep r
      else match split_on sep r with
           | [] => [String c EmptyString]
           | h :: t => String c h :: t
           end
  end.

(** [s.split('.')[-1]] *)
Definition last_segment (s : string) : string :=
  List.last (split_on "." s) EmptyString.

(** Code points for which [str.isspace] holds, below U+0100. *)
Definition isspace (c : ascii) : bool :=
  let n := code c in
  between 9 13 n || between 28 32 n || (n =? 133) || (n =? 160).

Fixpoint lstrip (s : string) : string :=
  match s with
  | EmptyString => EmptyString
  | String c r => if isspace c then lstrip r else s
  end.

Fixpoint rstrip (s : string) : string :=
  match s with
  | EmptyString => EmptyString
  | String c r =>
      match rstrip r with
      | EmptyString => if isspace c then EmptyString else String c EmptyString
      | r' => String c r'
      end
  end.

(** [s.strip()] *)
Definition strip (s : string) : string := rstrip (lstrip s).

(** [doc.replace(three quotes, three escaped quotes)], left to right. *)
Fixpoint escape_triple_quotes (s : string) : string :=
  match s with
  | EmptyString => EmptyString
  | String a r =>
      match r with
      | String b (String c r') =>
          if Ascii.eqb a dquote && Ascii.eqb b dquote && Ascii.eqb c dquote
          then String "\" (String dquote (String "\" (String dquote
                 (String "\" (String dquote (escape_triple_quotes r'))))))
          else String a (escape_triple_quotes r)
      | _ => String a (escape_triple_quotes r)
      end
  end.

(** ** [str.isidentifier]

    The interpreter accepts a first character that is XID_Start or an
    underscore, followed by XID_Continue characters.  The two tables are
    written out for the code points of the model. *)

Definition is_xid_start (c : ascii) : bool :=
  let n := code c in
  between 65 90 n || between 97 122 n
  || (n =? 170) || (n =? 181) || (n =? 186)
  || between 192 214 n || between 216 246 n || between 248 255 n.

Definition is_xid_continue (c : ascii) : bool :=
  let n := code c in
  is_xid_start c || between 48 57 n || (n =? 95) || (n =? 183).

Definition isidentifier (s : string) : bool :=
  match s with
  | EmptyString => false
  | String c r =>
      (is_xid_start c || (code c =? 95)) && string_forallb is_xid_continue r
  end.

(** ** Exceptions and results *)

(** Exceptions of class [Exception]: the ones the handlers written
    [except Exception] catch. *)
Inductive exn : Type :=
| AttributeError (msg : string)
| FileExistsError (msg : string)
| FileNotFoundError (msg : string)
| NotADirectoryError (msg : string)
| IsADirectoryError (msg : string)
| OSError (msg : string)
| RuntimeError (msg : string).

(** [str(e)] *)
Definition exn_msg (e : exn) : string :=
  match e with
  | AttributeError m | FileExistsError m | FileNotFoundError m
  | NotADirectoryError m | IsADirectoryError m | OSError m
  | RuntimeError m => m
  end.

(** What a [raise] carries: an exception of class [Exception], or one of
    the exceptions that derive from [BaseException] only, which a handler
    written [except Exception] lets through. *)
Inductive raised : Type :=
| Exc (e : exn)
| SystemExit (code : string)
| KeyboardInterrupt.

Coercion Exc : exn >-> raised.

(** [isinstance(e, Exception)] *)
Definition is_exception (e : raised) : bool :=
  match e with
  | Exc _ => true
  | SystemExit _ | KeyboardInterrupt => false
  end.

(** The result of running a piece of the program: a value, a raised
    exception, or an exhausted recursion budget (only the tree builder
    recurses). *)
Inductive res (A : Type) : Type :=
| Ret (a : A)
| Raise (e : raised)
| OutOfFuel.
Arguments Ret {A} a.
Arguments Raise {A} e.
Arguments OutOfFuel {A}.

Definition res_bind {A B : Type} (r : res A) (k : A -> res B) : res B :=
  match r with
  | Ret a => k a
  | Raise e => Raise e
  | OutOfFuel => OutOfFuel
  end.

(** [try: r  except: h], a bare [except]: the handler catches whatever is
    raised. *)
Definition res_try {A : Type} (r : res A) (h : raised -> res A) : res A :=
  match r with
  | Raise e => h e
  | _ => r
  end.

Fixpoint res_fold {A B : Type} (f : B -> A -> res B) (l : list A) (b : B) : res B :=
  match l with
  | [] => Ret b
  | a :: l' => res_bind (f b a) (res_fold f l')
  end.

(** ** Runtime objects

    Objects live in a store and are referred to by identity, which is what
    [id(obj)] returns; two names bound to the same identity are aliases. *)

Definition obj_id : Type := positive.

(** Outcome of [getattr(obj, name)] under [try ... except Exception]: the
    value, or the exception of class [Exception] that the handler
    catches. *)
Inductive access : Type :=
| Got (v : obj_id)
| Raises (e : exn).

Inductive prim : Type := PInt | PFloat | PStr | PBool.

Definition prim_name (k : prim) : string :=
  match k with
  | PInt => "int"
  | PFloat => "float"
  | PStr => "str"
  | PBool => "bool"
  end.

(** What [isinstance(obj, (int, float, str, bool))] and [type(obj).__name__]
    observe. *)
Inductive runtime_type : Type :=
| Exactly (k : prim)
| SubclassOf (k : prim) (name : string)
| OtherType (name : string)
| Uninspectable (e : exn).

(** Outcome of [str(x)]. *)
Inductive str_result : Type :=
| Str (s : string)
| StrRaises (e : exn).

(** What the resolver observes of [obj.__annotations__]: the attribute is
    absent, reading it or calling its [get] raises, or it is a mapping with
    or without a [return] entry. *)
Inductive annotations_view : Type :=
| NoAnnotations
| AnnotationsFail (e : exn)
| Annotations (ret : option str_result).

Record pyobj : Type := {
  py_isclass : bool;
  py_ismodule : bool;
  py_callable : bool;
  py_name : option string;
  py_module : option string;
  py_str : string;
  py_members : list (string * access);
  py_bases : list string;
  py_doc : option string;
  py_signature : option string;
  py_bound : bool;
  py_isproperty : bool;
  py_annotations : annotations_view;
  py_type : runtime_type
}.

(** A plain object: not a class, not a module, not callable. *)
Definition plain_object : pyobj := {|
  py_isclass := false; py_ismodule := false; py_callable := false;
  py_name := None; py_module := None; py_str := "<object>";
  py_members := []; py_bases := []; py_doc := None; py_signature := None;
  py_bound := false; py_isproperty := false;
  py_annotations := NoAnnotations; py_type := OtherType "object"
|}.

(** ** Name sanitizer *)

Definition _sanitize_name (name : string) : string :=
  if negb (isidentifier name) then "_" +:+ name else name.

(** ** Type annotation resolver *)

Definition str_any : string := "Any".

(** The body of the [try] block. *)
Definition inspect_annotation (obj : pyobj) : res string :=
  match py_annotations obj with
  | AnnotationsFail e => Raise e
  | Annotations ret =>
      match ret with
      | Some (Str s) => Ret s
      | Some (StrRaises e) => Raise e
      | None => Ret str_any
      end
  | NoAnnotations =>
      match py_type obj with
      | Uninspectable e => Raise e
      | Exactly k => Ret (prim_name k)
      | SubclassOf _ n => Ret n
      | OtherType _ => Ret str_any
      end
  end.

Definition _get_type_annotation (obj : pyobj) : res string :=
  res_try (inspect_annotation obj) (fun _ => Ret str_any).

(** The resolver as the specification words it: a declared return
    annotation first, then the primitive kinds, then [Any]. *)
Definition declared_return (obj : pyobj) : option string :=
  match py_annotations obj with
  | Annotations (Some (Str s)) => Some s
  | _ => None
  end.

Definition resolver_as_specified (obj : pyobj) : string :=
  match declared_return obj with
  | Some s => s
  | None =>
      match py_type obj with
      | Exactly k => prim_name k
      | _ => str_any
      end
  end.

(** ** Insertion-ordered dictionaries

    [d[k] = v] on a Python [dict]: an existing key keeps its position. *)

Definition odict (V : Type) : Type := list (string * V).

Fixpoint odict_set {V : Type} (k : string) (v : V) (d : odict V) : odict V :=
  match d with
  | [] => [(k, v)]
  | (k', v') :: d' =>
      if String.eqb k' k then (k', v) :: d' else (k', v') :: odict_set k v d'
  end.

Fixpoint odict_get {V : Type} (k : string) (d : odict V) : option V :=
  match d with
  | [] => None
  | (k', v') :: d' => if String.eqb k' k then Some v' else odict_get k d'
  end.

(** ** [sorted] on names, carrying the outcome of the later [getattr] *)

Fixpoint insert_sorted {V : Type} (x : string * V) (l : list (string * V)) : list (string * V) :=
  match l with
  | [] => [x]
  | y :: l' => if String.leb (fst x) (fst y) then x :: l else y :: insert_sorted x l'
  end.

Definition sorted_by_name {V : Type} (l : list (string * V)) : list (string * V) :=
  fold_right insert_sorted [] l.

(** ** Console output

    One constructor per [print] of the source, with the values it shows.
    [AddingClass] and [Processing] also carry the identity key the statement
    is guarded by. *)

Inductive event : Type :=
| Starting (module_name : string)
| Processing (full_module_key module_name : string)
| WarnAccess (module_name name msg : string)
| SkipDuplicate (name existing_name : string)
| SkipProcessed (class_name existing_name : string)
| AddingClass (class_id : obj_id) (class_name : string)
| FoundSubmodule (submodule_name : string)
| WarnSubmodule (submodule_name msg : string)
| CreatingInit (init_file : string)
| Completed
| GeneratedIn (output_dir : string)
| ProcessedModules (n : nat)
| ProcessedClasses (n : nat)
| GeneratedFilesHeader
| GeneratedFile (rel_path : string)
| ErrorDuring (msg : string)
| Traceback (e : exn).

(** ** Paths and the file system *)

Abbreviation path := (list string).

(** [str(p)] *)
Definition path_str (p : path) : string :=
  match p with
  | [] => "."
  | "/" :: rest => "/" +:+ String.concat "/" rest
  | _ => String.concat "/" p
  end.

Definition is_component (c : string) : bool :=
  negb (String.eqb c EmptyString) && negb (String.eqb c ".").

(** [base / name] for a relative [name]. *)
Definition path_join (base : path) (name : string) : path :=
  base ++ List.filter is_component (split_on "/" name).

Inductive node : Type :=
| Dir
| File (content : string).

(** The entry at [p]; the empty path is the working directory. *)
Definition fs_lookup (f : gmap (list string) node) (p : path) : option node :=
  match p with
  | [] => Some Dir
  | _ => f !! p
  end.

(** [p.exists()] *)
Definition fs_exists (f : gmap (list string) node) (p : path) : bool :=
  match fs_lookup f p with
  | Some _ => true
  | None => false
  end.

(** [p.mkdir(parents=True, exist_ok=True)], walking down from the working
    directory: [pre] is the part already known to be a directory. *)
Fixpoint mkdir_from (pre : path) (rest : list string) (f : gmap (list string) node)
  : res unit * gmap (list string) node :=
  match rest with
  | [] => (Ret tt, f)
  | c :: rest' =>
      let q := pre ++ [c] in
      match f !! q with
      | Some Dir => mkdir_from q rest' f
      | Some (File _) =>
          (Raise (match rest' with
                  | [] => FileExistsError (path_str q)
                  | _ => NotADirectoryError (path_str (q ++ rest'))
                  end), f)
      | None => mkdir_from q rest' (<[q := Dir]> f)
      end
  end.

Definition fs_mkdir (p : path) (f : gmap (list string) node)
  : res unit * gmap (list string) node :=
  mkdir_from [] p f.

(** [shutil.rmtree(p)] *)
Definition fs_rmtree (p : path) (f : gmap (list string) node)
  : res unit * gmap (list string) node :=
  match p with
  | [] => (Raise (OSError "."), ∅)
  | _ =>
      match f !! p with
      | Some Dir => (Ret tt, filter (fun kv => ¬ p `prefix_of` kv.1) f)
      | Some (File _) => (Raise (NotADirectoryError (path_str p)), f)
      | None => (Raise (FileNotFoundError (path_str p)), f)
      end
  end.

(** [with open(p, 'w') as f: f.write(data)] *)
Definition fs_write (p : path) (data : string) (f : gmap (list string) node)
  : res unit * gmap (list string) node :=
  match fs_lookup f (removelast p) with
  | Some Dir =>
      match fs_lookup f p with
      | Some Dir => (Raise (IsADirectoryError (path_str p)), f)
      | _ => (Ret tt, <[p := File data]> f)
      end
  | Some (File _) => (Raise (NotADirectoryError (path_str p)), f)
  | None => (Raise (FileNotFoundError (path_str p)), f)
  end.

(** ** Generator state and the monad of the stateful code *)

Record generator : Type := {
  processed_modules : gset string;
  processed_classes : gset string;
  processed_class_objects : gset obj_id;
  class_name_mapping : gmap obj_id string
}.

(** [ModuleStubGenerator.__init__] *)
Definition new_generator : generator := {|
  processed_modules := ∅;
  processed_classes := ∅;
  processed_class_objects := ∅;
  class_name_mapping := ∅
|}.

Record world : Type := {
  gen : generator;
  fs : gmap (list string) node;
  stdout : list event
}.

Definition M (A : Type) : Type := world -> res A * world.

Definition ret {A : Type} (a : A) : M A := fun w => (Ret a, w).

Definition raise {A : Type} (e : raised) : M A := fun w => (Raise e, w).

Definition bind {A B : Type} (m : M A) (k : A -> M B) : M B :=
  fun w =>
    match m w with
    | (Ret a, w') => k a w'
    | (Raise e, w') => (Raise e, w')
    | (OutOfFuel, w') => (OutOfFuel, w')
    end.

Notation "x <- m ; k" := (bind m (fun x => k))
  (at level 20, m at level 100, k at level 200, only parsing).
Notation "m ;;; k" := (bind m (fun _ => k))
  (at level 100, k at level 200, right associativity).

(** [try: m  except Exception as e: h e]; state changes made before the
    exception are kept.  What is raised and is not an [Exception] passes
    the handler. *)
Definition try_except {A : Type} (m : M A) (h : exn -> M A) : M A :=
  fun w =>
    match m w with
    | (Raise (Exc e), w') => h e w'
    | rw => rw
    end.

Definition lift {A : Type} (r : res A) : M A := fun w => (r, w).

Definition print (e : event) : M unit :=
  fun w => (Ret tt, {| gen := gen w; fs := fs w; stdout := stdout w ++ [e] |}).

Definition get_gen : M generator := fun w => (Ret (gen w), w).

Definition put_gen (g : generator) : M unit :=
  fun w => (Ret tt, {| gen := g; fs := fs w; stdout := stdout w |}).

Definition get_fs : M (gmap (list string) node) := fun w => (Ret (fs w), w).

(** Run a file-system operation on the world. *)
Definition on_fs (op : gmap (list string) node -> res unit * gmap (list string) node) : M unit :=
  fun w =>
    let '(r, f) := op (fs w) in
    (r, {| gen := gen w; fs := f; stdout := stdout w |}).

Fixpoint foldM {A B : Type} (f : B -> A -> M B) (l : list A) (b : B) : M B :=
  match l with
  | [] => ret b
  | a :: l' => b' <- f b a; foldM f l' b'
  end.

Fixpoint forM_ {A : Type} (f : A -> M unit) (l : list A) : M unit :=
  match l with
  | [] => ret tt
  | a :: l' => f a ;;; forM_ f l'
  end.

Definition modify_gen (f : generator -> generator) : M unit :=
  g <- get_gen; put_gen (f g).

Definition add_processed_module (key : string) (g : generator) : generator := {|
  processed_modules := processed_modules g ∪ {[key]};
  processed_classes := processed_classes g;
  processed_class_objects := processed_class_objects g;
  class_name_mapping := class_name_mapping g
|}.

Definition add_processed_class (class_id : obj_id) (class_full_name : string)
    (g : generator) : generator := {|
  processed_modules := processed_modules g;
  processed_classes := processed_classes g ∪ {[class_full_name]};
  processed_class_objects := processed_class_objects g ∪ {[class_id]};
  class_name_mapping := class_name_mapping g
|}.

Definition set_class_name_mapping (m : gmap obj_id string) (g : generator) : generator := {|
  processed_modules := processed_modules g;
  processed_classes := processed_classes g;
  processed_class_objects := processed_class_objects g;
  class_name_mapping := m
|}.

(** ** [_is_internal_module] *)

Definition internal_prefixes : list string :=
  ["builtins"; "_"; "sys"; "os"; "io"; "collections";
   "typing"; "abc"; "enum"; "functools"; "itertools";
   "operator"; "weakref"; "threading"; "multiprocessing"].

Definition _is_internal_module (module_name : string) : bool :=
  existsb (fun p => startswith p module_name) internal_prefixes.

(** ** Members of a namespace, as the classifier returns them *)

Record members : Type := {
  classes : odict obj_id;
  functions : odict obj_id;
  submodules : odict obj_id;
  variables : odict obj_id
}.

Definition no_members : members :=
  {| classes := []; functions := []; submodules := []; variables := [] |}.

(** The local and shared state of the classifier loop. *)
Record gmm_state : Type := {
  gm_members : members;
  gm_seen : gmap obj_id string;       (* class_objects_in_module *)
  gm_mapping : gmap obj_id string;    (* self.class_name_mapping *)
  gm_out : list event
}.

(** [class_actual_name if class_actual_name == name else name] *)
Definition chosen_name (class_actual_name name : string) : string :=
  if String.eqb class_actual_name name then class_actual_name else name.

Definition special_methods : list string :=
  ["__init__"; "__new__"; "__call__"; "__str__"; "__repr__"].

Definition constructors : list string := ["__init__"; "__new__"].

Definition name_in (name : string) (l : list string) : bool :=
  existsb (String.eqb name) l.

Definition triple_quote : string :=
  String dquote (String dquote (String dquote EmptyString)).

(** Lists collected by the member loop of the class renderer. *)
Record class_acc : Type := {
  methods : list string;
  properties : list string;
  class_vars : list string;
  has_members : bool
}.

Definition no_class_members : class_acc :=
  {| methods := []; properties := []; class_vars := []; has_members := false |}.

Section Generator.

(** The object store the run introspects. *)
Variable heap : gmap obj_id pyobj.

Definition deref (v : obj_id) : pyobj := default plain_object (heap !! v).

(** *** [dump_class_stub] *)

(** The line rendered for one callable member. *)
Definition method_line (name : string) (attr : pyobj) : string :=
  let sanitized_name := _sanitize_name name in
  match py_signature attr with
  | Some sig => "    def " +:+ sanitized_name +:+ sig +:+ ": ..."
  | None =>
      if name_in name constructors then
        "    def " +:+ sanitized_name +:+ "(self, *args, **kwargs): ..."
      else if py_bound attr then
        "    def " +:+ sanitized_name +:+ "(self, *args, **kwargs): ..."
      else
        "    @staticmethod" +:+ nl +:+ "    def " +:+ sanitized_name
          +:+ "(*args, **kwargs): ..."
  end.

(** One iteration of [for name in sorted(dir(cls))]. *)
Definition class_member_step (acc : class_acc) (entry : string * access) : res class_acc :=
  let '(name, a) := entry in
  if startswith "_" name && negb (name_in name special_methods) then Ret acc
  else
    match a with
    | Raises _ => Ret acc
    | Got v =>
        let attr := deref v in
        let sanitized_name := _sanitize_name name in
        if py_callable attr then
          Ret {| methods := methods acc ++ [method_line name attr];
                 properties := properties acc;
                 class_vars := class_vars acc;
                 has_members := true |}
        else if py_isproperty attr then
          Ret {| methods := methods acc;
                 properties := properties acc ++ ["    " +:+ sanitized_name +:+ ": Any"];
                 class_vars := class_vars acc;
                 has_members := true |}
        else
          res_bind (_get_type_annotation attr) (fun type_hint =>
          Ret {| methods := methods acc;
                 properties := properties acc;
                 class_vars := class_vars acc
                               ++ ["    " +:+ sanitized_name +:+ ": " +:+ type_hint];
                 has_members := true |})
    end.

Definition class_header (class_name : string) (cls : pyobj) : string :=
  let bases := List.filter (fun b => negb (String.eqb b "object")) (py_bases cls) in
  match bases with
  | [] => "class " +:+ class_name +:+ ":"
  | _ => "class " +:+ class_name +:+ "(" +:+ String.concat ", " bases +:+ "):"
  end.

Definition class_docstring (cls : pyobj) : list string :=
  match py_doc cls with
  | None => []
  | Some d =>
      let doc := strip (escape_triple_quotes d) in
      match doc with
      | EmptyString => []
      | _ =>
          ["    " +:+ triple_quote +:+ String.substring 0 200 doc
             +:+ (if 200 <? String.length doc then "..." else EmptyString)
             +:+ triple_quote]
      end
  end.

Definition dump_class_stub (cls : pyobj) (module_path : string) : res string :=
  match py_name cls with
  | None => Raise (AttributeError "__name__")
  | Some n =>
      let class_name := _sanitize_name n in
      let stub_content := [class_header class_name cls] ++ class_docstring cls in
      res_bind (res_fold class_member_step (sorted_by_name (py_members cls)) no_class_members)
        (fun acc =>
           let stub_content :=
             if negb (has_members acc) then stub_content ++ ["    pass"]
             else stub_content ++ class_vars acc ++ properties acc ++ methods acc in
           Ret (String.concat nl stub_content +:+ nl +:+ nl))
  end.

(** *** [dump_function_stub] *)

Definition dump_function_stub (func : pyobj) : res string :=
  match py_name func with
  | None => Raise (AttributeError "__name__")
  | Some n =>
      let func_name := _sanitize_name n in
      match py_signature func with
      | Some sig => Ret ("def " +:+ func_name +:+ sig +:+ ": ..." +:+ nl)
      | None => Ret ("def " +:+ func_name +:+ "(*args, **kwargs): ..." +:+ nl)
      end
  end.

(** *** [get_module_members] *)

(** [attr_module is None or attr_module == module_name
     or attr_module.startswith(module_name + '.')] *)
Definition class_owned (module_name : string) (attr : pyobj) : bool :=
  match py_module attr with
  | None => true
  | Some attr_module =>
      String.eqb attr_module module_name
      || startswith (module_name +:+ ".") attr_module
  end.

(** [attr_module is None or attr_module == module_name] *)
Definition function_owned (module_name : string) (attr : pyobj) : bool :=
  match py_module attr with
  | None => true
  | Some attr_module => String.eqb attr_module module_name
  end.

Definition submodule_qualifies (module_name name : string) (attr : pyobj) : bool :=
  let attr_module_name := default name (py_name attr) in
  negb (String.eqb attr_module_name module_name)
  && startswith (module_name +:+ ".") attr_module_name
  && negb (_is_internal_module attr_module_name).

Definition with_members (st : gmm_state) (m : members) : gmm_state :=
  {| gm_members := m; gm_seen := gm_seen st;
     gm_mapping := gm_mapping st; gm_out := gm_out st |}.

Definition with_out (st : gmm_state) (e : event) : gmm_state :=
  {| gm_members := gm_members st; gm_seen := gm_seen st;
     gm_mapping := gm_mapping st; gm_out := gm_out st ++ [e] |}.

(** One iteration of [for name in dir(module)]. *)
Definition gmm_step (module_name : string) (st : gmm_state) (entry : string * access)
  : gmm_state :=
  let '(name, a) := entry in
  if startswith "_" name then st
  else
    match a with
    | Raises e => with_out st (WarnAccess module_name name (exn_msg e))
    | Got v =>
        let attr := deref v in
        let m := gm_members st in
        if py_isclass attr then
          if class_owned module_name attr then
            let class_id := v in
            match gm_seen st !! class_id with
            | Some existing_name => with_out st (SkipDuplicate name existing_name)
            | None =>
                let class_actual_name := default name (py_name attr) in
                let chosen := chosen_name class_actual_name name in
                {| gm_members :=
                     {| classes := odict_set chosen v (classes m);
                        functions := functions m;
                        submodules := submodules m;
                        variables := variables m |};
                   gm_seen := <[class_id := chosen]> (gm_seen st);
                   gm_mapping := <[class_id := chosen]> (gm_mapping st);
                   gm_out := gm_out st |}
            end
          else st
        else if py_ismodule attr then
          if submodule_qualifies module_name name attr then
            with_members st
              {| classes := classes m;
                 functions := functions m;
                 submodules := odict_set name v (submodules m);
                 variables := variables m |}
          else st
        else if py_callable attr && negb (py_isclass attr) then
          if function_owned module_name attr then
            with_members st
              {| classes := classes m;
                 functions := odict_set name v (functions m);
                 submodules := submodules m;
                 variables := variables m |}
          else st
        else
          with_members st
            {| classes := classes m;
               functions := functions m;
               submodules := submodules m;
               variables := odict_set name v (variables m) |}
    end.

(** The classifier loop, started from the tracker's current name map. *)
Definition classify (module : pyobj) (mapping : gmap obj_id string) : gmm_state :=
  let module_name := default "unknown" (py_name module) in
  fold_left (gmm_step module_name) (py_members module)
    {| gm_members := no_members; gm_seen := ∅; gm_mapping := mapping; gm_out := [] |}.

Definition get_module_members (module : pyobj) : M members :=
  fun w =>
    let st := classify module (class_name_mapping (gen w)) in
    (Ret (gm_members st),
     {| gen := set_class_name_mapping (gm_mapping st) (gen w);
        fs := fs w;
        stdout := stdout w ++ gm_out st |}).

(** *** [create_module_structure] *)

(** One iteration of the loop over [members['classes'].items()];
    [init_content] is the list being appended to. *)
Definition class_step (module_name : string) (init_content : list string)
    (entry : string * obj_id) : M (list string) :=
  let '(class_name, cls) := entry in
  let class_id := cls in
  let class_full_name := module_name +:+ "." +:+ class_name in
  g <- get_gen;
  if decide (class_id ∈ processed_class_objects g) then
    let existing_name := default class_name (class_name_mapping g !! class_id) in
    print (SkipProcessed class_name existing_name) ;;;
    let safe_class_name := _sanitize_name class_name in
    let safe_existing_name := _sanitize_name existing_name in
    if negb (String.eqb safe_class_name safe_existing_name) then
      ret (init_content ++ [safe_class_name +:+ " = " +:+ safe_existing_name])
    else ret init_content
  else
    put_gen (add_processed_class class_id class_full_name g) ;;;
    print (AddingClass class_id class_name) ;;;
    stub <- lift (dump_class_stub (deref cls) module_name);
    ret (init_content ++ [stub]).

Definition function_step (init_content : list string) (entry : string * obj_id)
  : M (list string) :=
  stub <- lift (dump_function_stub (deref (snd entry)));
  ret (init_content ++ [stub]).

Definition variable_step (init_content : list string) (entry : string * obj_id)
  : M (list string) :=
  let '(var_name, var) := entry in
  type_hint <- lift (_get_type_annotation (deref var));
  let safe_var_name := _sanitize_name var_name in
  ret (init_content ++ [safe_var_name +:+ ": " +:+ type_hint]).

(** One iteration of the loop over the submodules; [rec] is the recursive
    call. *)
Definition submodule_step (rec : obj_id -> path -> option string -> M unit)
    (module_dir : path) (init_content : list string) (entry : string * obj_id)
  : M (list string) :=
  let '(submodule_name, submodule) := entry in
  try_except
    (print (FoundSubmodule submodule_name) ;;;
     rec submodule module_dir
       (Some (default submodule_name (py_name (deref submodule)))) ;;;
     let safe_submodule_name := _sanitize_name submodule_name in
     ret (init_content ++ ["from . import " +:+ safe_submodule_name]))
    (fun e =>
       print (WarnSubmodule submodule_name (exn_msg e)) ;;;
       ret init_content).

Definition preamble : string := "from typing import Any" +:+ nl.

(** The text written to the descriptor file. *)
Definition init_text (init_content : list string) : string :=
  let content := String.concat nl init_content in
  match strip content with
  | EmptyString => preamble
  | _ => if endswith nl content then content else content +:+ nl
  end.

Definition write_init (module_dir : path) (init_content : list string) : M unit :=
  let init_file := module_dir ++ ["__init__.pyi"] in
  print (CreatingInit (path_str init_file)) ;;;
  on_fs (fs_write init_file (init_text init_content)).

Definition create_module_structure_body
    (rec : obj_id -> path -> option string -> M unit)
    (module : obj_id) (base_path : path) (module_name : option string) : M unit :=
  let module_name :=
    match module_name with
    | Some n => n
    | None => default "unknown" (py_name (deref module))
    end in
  let full_module_key := path_str base_path +:+ "/" +:+ module_name in
  g <- get_gen;
  if decide (full_module_key ∈ processed_modules g) then ret tt
  else
    print (Processing full_module_key module_name) ;;;
    put_gen (add_processed_module full_module_key g) ;;;
    let safe_module_name := _sanitize_name (last_segment module_name) in
    let module_dir := path_join base_path safe_module_name in
    on_fs (fs_mkdir module_dir) ;;;
    members <- get_module_members (deref module);
    let init_content := [preamble] in
    init_content <- foldM (class_step module_name) (classes members) init_content;
    init_content <- foldM function_step (functions members) init_content;
    init_content <- foldM variable_step (variables members) init_content;
    init_content <- foldM (submodule_step rec module_dir) (submodules members) init_content;
    write_init module_dir init_content.

(** The recursion of the tree builder, with a budget on its depth. *)
Fixpoint create_module_structure (fuel : nat)
    (module : obj_id) (base_path : path) (module_name : option string) : M unit :=
  match fuel with
  | O => fun w => (OutOfFuel, w)
  | S fuel' =>
      create_module_structure_body (create_module_structure fuel')
        module base_path module_name
  end.

(** *** [dump_module] *)

(** The descriptor files below [output_dir], relative to it. *)
Definition generated_files (f : gmap (list string) node) (output_dir : path) : list string :=
  omap (fun kv : list string * node =>
          match kv.2 with
          | File _ =>
              if bool_decide (output_dir `prefix_of` kv.1)
                 && endswith ".pyi" (List.last kv.1 EmptyString)
              then Some (String.concat "/" (drop (length output_dir) kv.1))
              else None
          | Dir => None
          end) (map_to_list f).

(** The statements before the [try]: clearing and creating the output
    root. *)
Definition prepare_output (output_dir : path) (remove_if_exists : bool) : M unit :=
  f <- get_fs;
  (if fs_exists f output_dir && remove_if_exists
   then on_fs (fs_rmtree output_dir) else ret tt) ;;;
  on_fs (fs_mkdir output_dir).

(** The body of the [try]; [create] is the call of the tree builder. *)
Definition generate_and_report_with (create : obj_id -> path -> option string -> M unit)
    (output_dir : path) (module : obj_id) : M unit :=
  create module output_dir None ;;;
  print Completed ;;;
  print (GeneratedIn (path_str output_dir)) ;;;
  g <- get_gen;
  print (ProcessedModules (size (processed_modules g))) ;;;
  print (ProcessedClasses (size (processed_classes g))) ;;;
  print GeneratedFilesHeader ;;;
  f <- get_fs;
  forM_ (fun p => print (GeneratedFile p)) (generated_files f output_dir).

Definition dump_module_with (create : obj_id -> path -> option string -> M unit)
    (output_dir : path) (remove_if_exists : bool) (module : obj_id) : M unit :=
  let m := deref module in
  let module_name := default (py_str m) (py_name m) in
  print (Starting module_name) ;;;
  prepare_output output_dir remove_if_exists ;;;
  try_except (generate_and_report_with create output_dir module)
    (fun e => print (ErrorDuring (exn_msg e)) ;;; print (Traceback e)).

(** The driver with the tree builder it calls, which recurses within the
    budget [fuel]. *)
Definition generate_and_report (fuel : nat) (output_dir : path) (module : obj_id)
  : M unit :=
  generate_and_report_with (create_module_structure fuel) output_dir module.

Definition dump_module (fuel : nat) (output_dir : path) (remove_if_exists : bool)
    (module : obj_id) : M unit :=
  dump_module_with (create_module_structure fuel) output_dir remove_if_exists module.

End Generator.

(** A run starts with a new generator and an empty console. *)
Definition start (f : gmap (list string) node) : world :=
  {| gen := new_generator; fs := f; stdout := [] |}.

(** ** Observations used to state the properties *)

(** A member of a class is rendered when its name passes the privacy test
    and reading it succeeds. *)
Definition accessible (a : access) : bool :=
  match a with
  | Got _ => true
  | Raises _ => false
  end.

Definition passes_privacy (name : string) : bool :=
  negb (startswith "_" name) || name_in name special_methods.

Definition rendered_member (entry : string * access) : bool :=
  passes_privacy (fst entry) && accessible (snd entry).

Inductive member_kind : Type := KMethod | KProperty | KClassVar.

Definition member_kind_eqb (a b : member_kind) : bool :=
  match a, b with
  | KMethod, KMethod | KProperty, KProperty | KClassVar, KClassVar => true
  | _, _ => false
  end.

Definition kind_of (attr : pyobj) : member_kind :=
  if py_callable attr then KMethod
  else if py_isproperty attr then KProperty
  else KClassVar.

Definition type_hint_of (attr : pyobj) : string :=
  match _get_type_annotation attr with
  | Ret s => s
  | _ => str_any
  end.

(** The declaration line of one rendered member. *)
Definition member_line (heap : gmap obj_id pyobj) (entry : string * access) : string :=
  match snd entry with
  | Raises _ => EmptyString
  | Got v =>
      let attr := deref heap v in
      match kind_of attr with
      | KMethod => method_line (fst entry) attr
      | KProperty => "    " +:+ _sanitize_name (fst entry) +:+ ": Any"
      | KClassVar =>
          "    " +:+ _sanitize_name (fst entry) +:+ ": " +:+ type_hint_of attr
      end
  end.

Definition entry_kind (heap : gmap obj_id pyobj) (entry : string * access) : member_kind :=
  match snd entry with
  | Got v => kind_of (deref heap v)
  | Raises _ => KClassVar
  end.

(** The lines of one section of a class body. *)
Definition section_lines (heap : gmap obj_id pyobj) (k : member_kind)
    (l : list (string * access)) : list string :=
  map (member_line heap)
    (List.filter (fun e => rendered_member e && member_kind_eqb (entry_kind heap e) k) l).

(** The four categories of the classifier. *)
Inductive category : Type := CClass | CFunction | CSubmodule | CVariable.

(** The category the rules assign to a value, when they assign one. *)
Definition category_of (module_name name : string) (attr : pyobj) : option category :=
  if py_isclass attr then
    if class_owned module_name attr then Some CClass else None
  else if py_ismodule attr then
    if submodule_qualifies module_name name attr then Some CSubmodule else None
  else if py_callable attr then
    if function_owned module_name attr then Some CFunction else None
  else Some CVariable.

Definition holds {V : Type} (name : string) (d : odict V) (c : category)
  : list (category * V) :=
  match odict_get name d with
  | Some v => [(c, v)]
  | None => []
  end.

(** The categories under which [name] was placed, each with the value
    stored there. *)
Definition placed (m : members) (name : string) : list (category * obj_id) :=
  holds name (classes m) CClass ++ holds name (functions m) CFunction
  ++ holds name (submodules m) CSubmodule ++ holds name (variables m) CVariable.

(** An earlier public name bound to the same object. *)
Definition bound_to (v : obj_id) (entry : string * access) : bool :=
  negb (startswith "_" (fst entry))
  && match snd entry with
     | Got v' => Pos.eqb v' v
     | Raises _ => false
     end.

(** An earlier public name bound to [v] that the classifier records as a
    class of the namespace. *)
Definition records (heap : gmap obj_id pyobj) (module_name : string) (v : obj_id)
    (e : string * access) : bool :=
  bound_to v e && py_isclass (deref heap v) && class_owned module_name (deref heap v).

(** Identities for which a class block was started, in console order. *)
Fixpoint added_classes (out : list event) : list obj_id :=
  match out with
  | [] => []
  | AddingClass i _ :: out' => i :: added_classes out'
  | _ :: out' => added_classes out'
  end.

(** Keys of the namespaces entered, in console order. *)
Fixpoint entered (out : list event) : list string :=
  match out with
  | [] => []
  | Processing k _ :: out' => k :: entered out'
  | _ :: out' => entered out'
  end.

(** The names of the directories directly below [p]. *)
Definition subdirectories (f : gmap (list string) node) (p : path) : list string :=
  omap (fun kv : list string * node =>
          match kv.2 with
          | Dir =>
              if bool_decide (kv.1 = p ++ [List.last kv.1 EmptyString])
                 && negb (bool_decide (kv.1 = []))
              then Some (List.last kv.1 EmptyString) else None
          | File _ => None
          end) (map_to_list f).

(** The lines of a descriptor file. *)
Definition file_lines (f : gmap (list string) node) (p : path) : list string :=
  match f !! p with
  | Some (File content) => split_on (ascii_of_nat 10) content
  | _ => []
  end.

(** Every entry of a well-formed file system lies in a directory. *)
Definition fs_wf (f : gmap (list string) node) : Prop :=
  ∀ p q n, f !! p = Some n → q `prefix_of` p → q ≠ p → q ≠ [] → f !! q = Some Dir.

(** Module objects carry names no longer than [bound]. *)
Definition modules_named (heap : gmap obj_id pyobj) (bound : nat) : Prop :=
  ∀ v o, heap !! v = Some o → py_ismodule o = true →
    ∃ n, py_name o = Some n ∧ String.length n ≤ bound.

(** ** Predicates on computations *)

(** Every run of [m] relates the world before to the world after. *)
Definition keeps {A : Type} (R : world → world → Prop) (m : M A) : Prop :=
  ∀ w, R w (m w).2.

(** No run of [m] exhausts the recursion budget. *)
Definition finishes {A : Type} (m : M A) : Prop :=
  ∀ w, (m w).1 ≠ OutOfFuel.

(** Events other than the entry of a namespace and the start of a class
    block. *)
Definition benign (e : event) : bool :=
  match e with
  | AddingClass _ _ | Processing _ _ => false
  | _ => true
  end.

(** The console and the tracker agree: a class block was started once for
    each identity marked as rendered, a namespace was entered once for each
    key marked as processed, and for nothing else. *)
Definition tracked (w : world) : Prop :=
  NoDup (added_classes (stdout w))
  ∧ (∀ i, In i (added_classes (stdout w)) ↔ i ∈ processed_class_objects (gen w))
  ∧ NoDup (entered (stdout w))
  ∧ (∀ k, In k (entered (stdout w)) ↔ k ∈ processed_modules (gen w)).

Definition keeps_tracked (w w' : world) : Prop := tracked w → tracked w'.

(** The file system changes below [base] only, apart from missing
    directories on the way to [base], and no directory is replaced. *)
Definition grows_under (base : path) (w w' : world) : Prop :=
  (∀ k, fs w' !! k = fs w !! k
        ∨ base `prefix_of` k
        ∨ (k ≠ [] ∧ k `prefix_of` base ∧ fs w !! k = None ∧ fs w' !! k = Some Dir))
  ∧ (∀ k, fs w !! k = Some Dir → fs w' !! k = Some Dir).

(** The effect of [prepare_output] on the file system when existing output
    is to be removed. *)
Definition prepare_fs (output_dir : path) (f : gmap (list string) node)
  : res unit * gmap (list string) node :=
  if fs_exists f output_dir then
    match fs_rmtree output_dir f with
    | (Ret _, f1) => fs_mkdir output_dir f1
    | rf => rf
    end
  else fs_mkdir output_dir f.

(** The name the classifier uses for a namespace. *)
Definition namespace_name (o : pyobj) : string := default "unknown" (py_name o).

(** The classes collected so far are distinct objects, all of them noted
    in the table of the loop. *)
Definition distinct_classes (st : gmm_state) : Prop :=
  NoDup (map snd (classes (gm_members st)))
  ∧ ∀ v, In v (map snd (classes (gm_members st))) → is_Some (gm_seen st !! v).

(** What the classifier guarantees of each entry of its submodule map. *)
Definition qualifying (heap : gmap obj_id pyobj) (module_name : string)
    (entry : string * obj_id) : Prop :=
  py_ismodule (deref heap entry.2) = true
  ∧ submodule_qualifies module_name entry.1 (deref heap entry.2) = true.

(** What holds of the file system once the root has been prepared. *)
Definition prepared (output_dir : path) (Y : gmap (list string) node) : Prop :=
  output_dir ≠ []
  ∧ (∀ q, q ≠ [] → q `prefix_of` output_dir → Y !! q = Some Dir)
  ∧ (∀ k, output_dir `prefix_of` k → k ≠ output_dir → Y !! k = None).

(** ** Sample namespaces *)

Definition mk_module (name : string) (ms : list (string * access)) : pyobj := {|
  py_isclass := false; py_ismodule := true; py_callable := false;
  py_name := Some name; py_module := None; py_str := "<module>";
  py_members := ms; py_bases := []; py_doc := None; py_signature := None;
  py_bound := false; py_isproperty := false;
  py_annotations := NoAnnotations; py_type := OtherType "module"
|}.

Definition mk_class (name owner : string) (bases : list string)
    (ms : list (string * access)) : pyobj := {|
  py_isclass := true; py_ismodule := false; py_callable := true;
  py_name := Some name; py_module := Some owner; py_str := "<class>";
  py_members := ms; py_bases := bases; py_doc := None; py_signature := None;
  py_bound := false; py_isproperty := false;
  py_annotations := Annotations None; py_type := OtherType "type"
|}.

Definition mk_function (name owner sig : string) (ret : option string) : pyobj := {|
  py_isclass := false; py_ismodule := false; py_callable := true;
  py_name := Some name; py_module := Some owner; py_str := "<function>";
  py_members := []; py_bases := []; py_doc := None; py_signature := Some sig;
  py_bound := false; py_isproperty := false;
  py_annotations := Annotations (option_map Str ret); py_type := OtherType "function"
|}.

Definition mk_value (t : runtime_type) : pyobj := {|
  py_isclass := false; py_ismodule := false; py_callable := false;
  py_name := None; py_module := None; py_str := "<value>";
  py_members := []; py_bases := []; py_doc := None; py_signature := None;
  py_bound := false; py_isproperty := false;
  py_annotations := NoAnnotations; py_type := t
|}.

(** An instance of a callable class defined in [owner]: it has no
    [__name__] of its own. *)
Definition mk_callable_instance (owner : string) : pyobj := {|
  py_isclass := false; py_ismodule := false; py_callable := true;
  py_name := None; py_module := Some owner; py_str := "<instance>";
  py_members := []; py_bases := []; py_doc := None; py_signature := Some "()";
  py_bound := false; py_isproperty := false;
  py_annotations := NoAnnotations; py_type := OtherType "Handler"
|}.

(** A property object. *)
Definition mk_property : pyobj := {|
  py_isclass := false; py_ismodule := false; py_callable := false;
  py_name := None; py_module := None; py_str := "<property>";
  py_members := []; py_bases := []; py_doc := None; py_signature := None;
  py_bound := false; py_isproperty := true;
  py_annotations := NoAnnotations; py_type := OtherType "property"
|}.

(** A callable for which [inspect.signature] raises; [bound] tells whether
    it is a method or has a [__self__]. *)
Definition mk_builtin (name owner : string) (bound : bool) : pyobj := {|
  py_isclass := false; py_ismodule := false; py_callable := true;
  py_name := Some name; py_module := Some owner; py_str := "<built-in>";
  py_members := []; py_bases := []; py_doc := None; py_signature := None;
  py_bound := bound; py_isproperty := false;
  py_annotations := NoAnnotations; py_type := OtherType "builtin_function_or_method"
|}.

(** A member of [class Color(IntEnum)]. *)
Definition enum_member : pyobj := mk_value (SubclassOf PInt "Color").

(** [demo] with [import demo.utils as helpers]; [demo.utils] imports its
    parent back. *)
Definition demo_heap : gmap obj_id pyobj :=
  <[1%positive := mk_module "demo"
       [("__name__", Got 9%positive); ("helpers", Got 2%positive);
        ("utils", Got 2%positive)]]>
  (<[2%positive := mk_module "demo.utils" [("parent", Got 1%positive)]]> ∅).

(** Module [m] binds the class declared as [Real] under the name [Alias]. *)
Definition alias_heap : gmap obj_id pyobj :=
  <[1%positive := mk_module "m" [("Alias", Got 2%positive)]]>
  (<[2%positive := mk_class "Real" "m" ["object"] []]> ∅).

(** Module [m] after [from pathlib import Path]. *)
Definition import_heap : gmap obj_id pyobj :=
  <[1%positive := mk_module "m" [("Path", Got 2%positive)]]>
  (<[2%positive := mk_class "Path" "pathlib" ["object"] []]> ∅).

(** Module [m] defines class [A] and binds it again as [B = A]. *)
Definition dup_heap : gmap obj_id pyobj :=
  <[1%positive := mk_module "m" [("A", Got 2%positive); ("B", Got 2%positive)]]>
  (<[2%positive := mk_class "A" "m" ["object"] []]> ∅).

(** Module [m] binds [handler] to an instance of a callable class of [m]. *)
Definition handler_heap : gmap obj_id pyobj :=
  <[1%positive := mk_module "m" [("handler", Got 2%positive)]]>
  (<[2%positive := mk_callable_instance "m"]> ∅).

(** The [demo] namespace of the specification: class [Widget(Base)] with a
    method and a variable, and a function [make]. *)
Definition widget_heap : gmap obj_id pyobj :=
  <[1%positive := mk_module "demo"
       [("Widget", Got 2%positive); ("make", Got 3%positive)]]>
  (<[2%positive := mk_class "Widget" "demo" ["Base"]
       [("VERSION", Got 4%positive); ("__init__", Got 6%positive);
        ("_cache", Got 4%positive); ("resize", Got 5%positive)]]>
  (<[3%positive := mk_function "make" "demo" "() -> Widget" (Some "Widget")]>
  (<[4%positive := mk_value (Exactly PStr)]>
  (<[5%positive := mk_function "resize" "demo" "(self, w: int, h: int) -> None" (Some "None")]>
  (<[6%positive := mk_function "__init__" "demo" "(self)" None]> ∅))))).

(** Module [m] with a class [Gauge] that has each of the five special
    names, other names that start with an underscore, a member whose access
    raises, a property, callables with and without a signature, and
    values. *)
Definition gauge_heap : gmap obj_id pyobj :=
  <[1%positive := mk_module "m" [("Gauge", Got 2%positive)]]>
  (<[2%positive := mk_class "Gauge" "m" ["object"]
       [("MAX", Got 3%positive); ("__call__", Got 4%positive);
        ("__doc__", Got 5%positive); ("__eq__", Got 6%positive);
        ("__init__", Got 7%positive); ("__new__", Got 8%positive);
        ("__repr__", Got 9%positive); ("__str__", Got 10%positive);
        ("_hidden", Got 3%positive); ("broken", Raises (RuntimeError "boom"));
        ("level", Got 11%positive); ("reset", Got 12%positive);
        ("scale", Got 13%positive); ("unit", Got 14%positive)]]>
  (<[3%positive := mk_value (Exactly PInt)]>
  (<[4%positive := mk_function "__call__" "m" "(self, x)" None]>
  (<[5%positive := mk_value (OtherType "NoneType")]>
  (<[6%positive := mk_function "__eq__" "m" "(self, other)" None]>
  (<[7%positive := mk_builtin "__init__" "m" false]>
  (<[8%positive := mk_builtin "__new__" "m" false]>
  (<[9%positive := mk_function "__repr__" "m" "(self)" None]>
  (<[10%positive := mk_function "__str__" "m" "(self)" None]>
  (<[11%positive := mk_property]>
  (<[12%positive := mk_builtin "reset" "m" true]>
  (<[13%positive := mk_builtin "scale" "m" false]>
  (<[14%positive := mk_value (Exactly PStr)]> ∅))))))))))))).

(** Package [pkg] re-exports as [Shape] the class that [pkg.sub] defines
    and also binds as [Circle]. *)
Definition pkg_heap : gmap obj_id pyobj :=
  <[1%positive := mk_module "pkg" [("Shape", Got 3%positive); ("sub", Got 2%positive)]]>
  (<[2%positive := mk_module "pkg.sub" [("Circle", Got 3%positive)]]>
  (<[3%positive := mk_class "Shape" "pkg.sub" ["object"] []]> ∅)).

(** [osgeo] with a submodule [osgeo.gdal]: the package name starts with
    the listed prefix [os]. *)
Definition osgeo_heap : gmap obj_id pyobj :=
  <[1%positive := mk_module "osgeo" [("gdal", Got 2%positive)]]>
  (<[2%positive := mk_module "osgeo.gdal" []]> ∅).

(** An output root left over from an earlier run. *)
Definition stale_fs : gmap (list string) node :=
  <[["stubs"] := Dir]> (<[["stubs"; "old.pyi"] := File "x"]> ∅).

(** The output root is taken by a regular file. *)
Definition blocked_fs : gmap (list string) node :=
  <[["stubs"] := File "x"]> ∅.

(** ** [main] and the module-level [dump_module] *)

(** The parsed arguments of [main]. *)
Record cli_args : Type := {
  arg_package_name : string;
  arg_output_dir : string;
  arg_remove_if_exists : bool
}.

(** Outcome of [parser.parse_args()]: the arguments, or the [SystemExit]
    with which the parser leaves on [-h] and on a command line it
    rejects. *)
Inductive parse_result : Type :=
| Parsed (args : cli_args)
| ParseExits (code : string).

(** What the code of the package raises, as the handlers of [main] tell it
    apart. *)
Inductive failure : Type :=
| SyntaxError (msg : string)
| ImportError (msg : string)
| OtherException (e : raised).

(** Outcome of [importlib.import_module(package_name)]. *)
Inductive import_result : Type :=
| Imported (package : obj_id)
| ImportRaises (x : failure).

(** Outcome of [package.init()]. *)
Inductive init_result : Type :=
| InitReturns
| InitRaises (x : failure).

(** The code of the package that [main] runs, with what it does to the file
    system: the import of the package and its [init]. *)
Record package_code : Type := {
  import_module :
    string -> gmap (list string) node -> import_result * gmap (list string) node;
  package_init :
    obj_id -> gmap (list string) node -> init_result * gmap (list string) node
}.

(** The console of [main]: its own lines and those of the driver. *)
Inductive main_event : Type :=
| NoInitMethod (package_name : string)
| GeneratingFor (package_name : string)
| FromDriver (e : event)
| SyntaxErrorShown (msg : string)
| PackageNotFound (msg : string)
| GenerationFailed (msg : string)
| MainCompleted.

(** The three [except] clauses of [main] and the [print] after them; what
    is raised and is not an [Exception] leaves [main]. *)
Definition main_except (x : failure) (out : list main_event)
    (f : gmap (list string) node)
  : res unit * list main_event * gmap (list string) node :=
  match x with
  | SyntaxError msg => (Ret tt, out ++ [SyntaxErrorShown msg; MainCompleted], f)
  | ImportError msg => (Ret tt, out ++ [PackageNotFound msg; MainCompleted], f)
  | OtherException (Exc e) =>
      (Ret tt, out ++ [GenerationFailed (exn_msg e); MainCompleted], f)
  | OtherException e => (Raise e, out, f)
  end.

(** The module-level [dump_module]: a new generator for each call. *)
Definition dump_module_with_new_generator (heap : gmap obj_id pyobj) (fuel : nat)
    (module : obj_id) (output_dir : path) (remove_if_exists : bool)
    (f : gmap (list string) node) : res unit * world :=
  dump_module heap fuel output_dir remove_if_exists module (start f).

(** The end of the [try] of [main], from the [print] that announces the
    generation: the call of the driver on [stubs]; [before] is what [main]
    has printed so far. *)
Definition main_generate (heap : gmap obj_id pyobj) (fuel : nat)
    (package_name : string) (package : obj_id) (before : list main_event)
    (f : gmap (list string) node)
  : res unit * list main_event * gmap (list string) node :=
  let '(r, w) := dump_module_with_new_generator heap fuel package ["stubs"] false f in
  let out := before ++ [GeneratingFor package_name] ++ map FromDriver (stdout w) in
  match r with
  | Ret _ => (Ret tt, out ++ [MainCompleted], fs w)
  | Raise e => main_except (OtherException e) out (fs w)
  | OutOfFuel => (OutOfFuel, out, fs w)
  end.

(** [main]; [heap] is the store as the driver finds it, once the package is
    imported and initialised. *)
Definition main (heap : gmap obj_id pyobj) (fuel : nat) (code : package_code)
    (parsed : parse_result) (f : gmap (list string) node)
  : res unit * list main_event * gmap (list string) node :=
  match parsed with
  | ParseExits c => (Raise (SystemExit c), [], f)
  | Parsed args =>
      let package_name := arg_package_name args in
      match import_module code package_name f with
      | (ImportRaises x, f1) => main_except x [] f1
      | (Imported package, f1) =>
          match package_init code package f1 with
          | (InitReturns, f2) => main_generate heap fuel package_name package [] f2
          | (InitRaises (OtherException (Exc (AttributeError _))), f2) =>
              main_generate heap fuel package_name package
                [NoInitMethod package_name] f2
          | (InitRaises x, f2) => main_except x [] f2
          end
      end
  end.

(** The file system as the code of the package leaves it, before [main]
    calls the driver. *)
Definition package_code_fs (code : package_code) (package_name : string)
    (f : gmap (list string) node) : gmap (list string) node :=
  match import_module code package_name f with
  | (Imported package, f1) => (package_init code package f1).2
  | (ImportRaises _, f1) => f1
  end.

(** What one of the two ways [main] ends leaves: no exception of class
    [Exception], no entry of [g] removed, no change outside [stubs]. *)
Definition main_outcome (g : gmap (list string) node)
    (result : res unit * list main_event * gmap (list string) node) : Prop :=
  (∀ e, result.1.1 = Raise e → is_exception e = false)
  ∧ (∀ k n, g !! k = Some n → ∃ n', result.2 !! k = Some n')
  ∧ (∀ k, result.2 !! k = g !! k ∨ ["stubs"] `prefix_of` k).

(** ** Further observations on runs *)

Definition placed_from (heap : gmap obj_id pyobj) (module_name : string)
    (l : list (string * access)) (m : members) : Prop :=
  ∀ name c v, In (c, v) (placed m name) →
    startswith "_" name = false
    ∧ In (name, Got v) l
    ∧ category_of module_name name (deref heap v) = Some c.

(** Lines that forward the import of one of the listed submodules. *)
Definition import_lines (l : list (string * obj_id)) (added : list string) : Prop :=
  Forall (λ line, ∃ name v, In (name, v) l
                            ∧ line = "from . import " +:+ _sanitize_name name) added.

(** The three processed sets only grow, names once recorded for a class
    identity stay recorded (possibly under another name), and the console is
    only appended to. *)
Definition tracker_grows (w w' : world) : Prop :=
  processed_modules (gen w) ⊆ processed_modules (gen w')
  ∧ processed_classes (gen w) ⊆ processed_classes (gen w')
  ∧ processed_class_objects (gen w) ⊆ processed_class_objects (gen w')
  ∧ dom (class_name_mapping (gen w)) ⊆ dom (class_name_mapping (gen w'))
  ∧ stdout w `prefix_of` stdout w'.

(** [m] keeps [R] and returns values that satisfy [P]. *)
Definition keeps_with {A : Type} (R : world → world → Prop) (P : A → Prop)
    (m : M A) : Prop :=
  ∀ w, R w (m w).2 ∧ ∀ a, (m w).1 = Ret a → P a.

(** Events printed outside the classifier and the loop over the classes. *)
Definition plain_event (e : event) : bool :=
  match e with
  | AddingClass _ _ | Processing _ _ | SkipProcessed _ _ | SkipDuplicate _ _
  | WarnAccess _ _ _ => false
  | _ => true
  end.

(** A well-formed descriptor: the preamble line first, a newline last. *)
Definition descriptor_text (c : string) : Prop :=
  startswith preamble c = true ∧ endswith nl c = true.

(** Every file of [w'] was there in [w] with the same content, or is a
    well-formed descriptor named [__init__.pyi]. *)
Definition writes_descriptors (w w' : world) : Prop :=
  ∀ k c, fs w' !! k = Some (File c) →
    fs w !! k = Some (File c)
    ∨ (List.last k EmptyString = "__init__.pyi" ∧ descriptor_text c).

(** No entry is removed: directories stay directories and files stay
    files. *)
Definition entries_kept (w w' : world) : Prop :=
  (∀ k, fs w !! k = Some Dir → fs w' !! k = Some Dir)
  ∧ (∀ k c, fs w !! k = Some (File c) → ∃ c', fs w' !! k = Some (File c')).

Definition starts_with_preamble (c : list string) : Prop :=
  ∃ rest, c = preamble :: rest.

(** Each class of the classifier's map is recorded under its key. *)
Definition classes_named (st : gmm_state) : Prop :=
  ∀ n v, In (n, v) (classes (gm_members st)) → gm_mapping st !! v = Some n.

(** Events the classifier prints. *)
Definition classifier_event (e : event) : bool :=
  match e with
  | WarnAccess _ _ _ | SkipDuplicate _ _ => true
  | _ => false
  end.

(** Every skip notice on the console names the same class twice, or was
    there before. *)
Definition alias_free (w w' : world) : Prop :=
  ∀ c e, In (SkipProcessed c e) (stdout w') → In (SkipProcessed c e) (stdout w) ∨ c = e.

(** Lines that are the block of one of the listed classes. *)
Definition class_blocks (heap : gmap obj_id pyobj) (module_name : string)
    (l : list (string * obj_id)) (added : list string) : Prop :=
  Forall (λ line, ∃ n v, In (n, v) l
                         ∧ dump_class_stub heap (deref heap v) module_name = Ret line)
    added.

(** The line of one function, when its name can be read. *)
Definition function_lines (heap : gmap obj_id pyobj) (l : list (string * obj_id))
    (added : list string) : Prop :=
  Forall2 (λ e line, dump_function_stub (deref heap e.2) = Ret line) l added.

(** The line of one variable. *)
Definition variable_line (heap : gmap obj_id pyobj) (e : string * obj_id) : string :=
  _sanitize_name e.1 +:+ ": " +:+ type_hint_of (deref heap e.2).

(** The text of a descriptor whose lines are not all blank: the lines joined
    by newlines, with a newline added at the end when there is none. *)
Definition joined_text (lines : list string) : string :=
  let content := String.concat nl lines in
  if endswith nl content then content else content +:+ nl.

(** The world in which the work on a namespace starts, once its key is
    marked. *)
Definition enter_namespace (key name : string) (w : world) : world :=
  {| gen := add_processed_module key (gen w); fs := fs w;
     stdout := stdout w ++ [Processing key name] |}.

(** * Properties *)

(** ** Name sanitizer *)

Lemma sanitize_identifier (name : string) :
  isidentifier name = true → _sanitize_name name = name.
Proof. unfold _sanitize_name. intros ->. reflexivity. Qed.

Lemma sanitize_other (name : string) :
  isidentifier name = false → _sanitize_name name = "_" +:+ name.
Proof. unfold _sanitize_name. intros ->. reflexivity. Qed.

(** The underscore repairs a bad first character only: the result is an
    identifier exactly when every character may continue one. *)
Lemma sanitize_valid (name : string) :
  isidentifier name = false →
  isidentifier (_sanitize_name name) = string_forallb is_xid_continue name.
Proof.
  intros H. rewrite (sanitize_other _ H). reflexivity.
Qed.

(** C5 (the code departs from the claim): on the name [a-b], which is not an
    identifier, the sanitizer returns [_a-b], which is not an identifier
    either.  The two rewriting rules of the claim hold for every name; the
    result is valid only when no character other than the first is
    illegal. *)
Theorem C5_sanitize_hyphenated_name :
  isidentifier "a-b" = false
  ∧ _sanitize_name "a-b" = "_a-b"
  ∧ isidentifier (_sanitize_name "a-b") = false
  ∧ (∀ name, isidentifier name = true → _sanitize_name name = name)
  ∧ (∀ name, isidentifier name = false →
       _sanitize_name name = "_" +:+ name
       ∧ isidentifier (_sanitize_name name) = string_forallb is_xid_continue name).
Proof.
  repeat split; try reflexivity.
  - apply sanitize_identifier.
  - by apply sanitize_other.
  - by apply sanitize_valid.
Qed.

(** ** Type annotation resolver *)

Lemma resolver_returns (obj : pyobj) :
  ∃ s, _get_type_annotation obj = Ret s.
Proof.
  unfold _get_type_annotation, inspect_annotation.
  destruct (py_annotations obj) as [ | e | [[s|e]|]]; simpl; eauto.
  destruct (py_type obj); simpl; eauto.
Qed.

Lemma resolver_failure (obj : pyobj) (e : exn) :
  inspect_annotation obj = Raise e → _get_type_annotation obj = Ret str_any.
Proof. unfold _get_type_annotation. intros ->. reflexivity. Qed.

(** The resolver agrees with the rule of the specification away from
    subclasses of the primitive kinds and away from annotated primitives. *)
Lemma resolver_agrees (obj : pyobj) :
  (∀ k n, py_type obj ≠ SubclassOf k n) →
  (py_annotations obj = NoAnnotations ∨ ∀ k, py_type obj ≠ Exactly k) →
  _get_type_annotation obj = Ret (resolver_as_specified obj).
Proof.
  intros Hsub Hann.
  unfold _get_type_annotation, resolver_as_specified, declared_return, inspect_annotation.
  destruct (py_annotations obj) as [ | e | [[s|e]|]] eqn:Ea; simpl.
  - destruct (py_type obj) eqn:Et; simpl; try reflexivity.
    exfalso. by eapply Hsub.
  - destruct (py_type obj) eqn:Et; simpl; try reflexivity.
    destruct Hann as [?|Hk]; [done | exfalso; by eapply Hk].
  - reflexivity.
  - destruct (py_type obj) eqn:Et; simpl; try reflexivity.
    destruct Hann as [?|Hk]; [done | exfalso; by eapply Hk].
  - destruct (py_type obj) eqn:Et; simpl; try reflexivity.
    destruct Hann as [?|Hk]; [done | exfalso; by eapply Hk].
Qed.

(** C6, counterexample: a member of an integer enumeration has no return
    annotation and its runtime type, [Color], is none of the four primitive
    kinds, so the rule as worded gives [Any]; the code tests [isinstance]
    and answers [Color], which is not the name of a primitive kind. *)
Lemma C6_enum_member_counterexample :
  py_annotations enum_member = NoAnnotations
  ∧ py_type enum_member = SubclassOf PInt "Color"
  ∧ _get_type_annotation enum_member = Ret "Color"
  ∧ resolver_as_specified enum_member = "Any"
  ∧ (∀ k, prim_name k ≠ "Color").
Proof. repeat split; try reflexivity. by intros []. Qed.

(** C6, as amended: the resolver never raises and applies this ordered
    rule.  A value with an [__annotations__] attribute yields the string of
    its [return] entry, and [Any] when there is no such entry or when
    reading or printing it fails; otherwise an instance of int, float, str
    or bool, subclasses included, yields the name of its runtime type;
    otherwise, and on any inspection failure, the answer is [Any]. *)
Theorem C6_resolver_rule (obj : pyobj) :
  _get_type_annotation obj =
    Ret match py_annotations obj with
        | Annotations (Some (Str s)) => s
        | Annotations (Some (StrRaises _)) => "Any"
        | Annotations None => "Any"
        | AnnotationsFail _ => "Any"
        | NoAnnotations =>
            match py_type obj with
            | Exactly k => prim_name k
            | SubclassOf _ n => n
            | OtherType _ => "Any"
            | Uninspectable _ => "Any"
            end
        end.
Proof.
  unfold _get_type_annotation, inspect_annotation.
  destruct (py_annotations obj) as [ | e | [[s|e]|]]; simpl; try reflexivity.
  destruct (py_type obj); reflexivity.
Qed.

(** ** Canonical names *)

Lemma chosen_name_candidate (class_actual_name name : string) :
  chosen_name class_actual_name name = name.
Proof.
  unfold chosen_name.
  destruct (String.eqb_spec class_actual_name name); congruence.
Qed.

(** C1 (the code departs from the claim): both arms of the choice yield the
    candidate name, so a class declared as [Real] and reached as [Alias] is
    recorded under [Alias]. *)
Theorem C1_alias_is_recorded :
  py_name (deref alias_heap 2%positive) = Some "Real"
  ∧ class_name_mapping
      (gen (get_module_members alias_heap (deref alias_heap 1%positive) (start ∅)).2)
      !! 2%positive = Some "Alias"
  ∧ (∀ class_actual_name name, chosen_name class_actual_name name = name)
  ∧ (∀ heap module_name st name v,
       startswith "_" name = false →
       py_isclass (deref heap v) = true →
       class_owned module_name (deref heap v) = true →
       gm_seen st !! v = None →
       gm_mapping (gmm_step heap module_name st (name, Got v)) !! v = Some name).
Proof.
  split; [reflexivity|]. split; [by vm_compute|]. split.
  - apply chosen_name_candidate.
  - intros heap module_name st name v Hn Hc Ho Hs.
    unfold gmm_step. rewrite Hn, Hc, Ho, Hs. simpl.
    rewrite chosen_name_candidate. apply lookup_insert_eq.
Qed.

(** ** Class stub renderer *)

Lemma type_hint_of_spec (attr : pyobj) :
  _get_type_annotation attr = Ret (type_hint_of attr).
Proof.
  unfold type_hint_of. destruct (resolver_returns attr) as [s ->]. reflexivity.
Qed.

Lemma privacy_test (name : string) :
  startswith "_" name && negb (name_in name special_methods)
  = negb (passes_privacy name).
Proof.
  unfold passes_privacy.
  destruct (startswith "_" name), (name_in name special_methods); reflexivity.
Qed.

Lemma section_lines_cons heap k e l :
  section_lines heap k (e :: l) =
    (if rendered_member e && member_kind_eqb (entry_kind heap e) k
     then [member_line heap e] else []) ++ section_lines heap k l.
Proof.
  unfold section_lines. simpl.
  destruct (rendered_member e && member_kind_eqb (entry_kind heap e) k); reflexivity.
Qed.

(** The member loop never raises; it appends one line per rendered member
    to the section of its kind. *)
Lemma class_member_loop heap (l : list (string * access)) (acc : class_acc) :
  res_fold (class_member_step heap) l acc =
    Ret {| methods := methods acc ++ section_lines heap KMethod l;
           properties := properties acc ++ section_lines heap KProperty l;
           class_vars := class_vars acc ++ section_lines heap KClassVar l;
           has_members := has_members acc || existsb rendered_member l |}.
Proof.
  revert acc. induction l as [|[name a] l IH]; intros acc.
  - simpl. unfold section_lines. simpl. rewrite !app_nil_r, orb_false_r.
    by destruct acc.
  - cbn [res_fold existsb]. rewrite !section_lines_cons.
    unfold class_member_step at 1. rewrite privacy_test.
    change (rendered_member (name, a)) with (passes_privacy name && accessible a).
    destruct (passes_privacy name) eqn:Hp; cbn [negb andb].
    2:{ cbn [res_bind app]. rewrite IH. by rewrite orb_false_l. }
    destruct a as [v|e]; cbn [accessible].
    2:{ cbn [res_bind app]. rewrite IH. by rewrite orb_false_l. }
    unfold entry_kind, member_line, kind_of. cbn [fst snd].
    destruct (py_callable (deref heap v)) eqn:Hc.
    { cbn [res_bind member_kind_eqb app]. rewrite IH. cbn.
      rewrite <- !app_assoc, orb_true_r. reflexivity. }
    destruct (py_isproperty (deref heap v)) eqn:Hpr.
    { cbn [res_bind member_kind_eqb app]. rewrite IH. cbn.
      rewrite <- !app_assoc, orb_true_r. reflexivity. }
    rewrite type_hint_of_spec.
    cbn [res_bind member_kind_eqb app]. rewrite IH. cbn.
    rewrite <- !app_assoc, orb_true_r. reflexivity.
Qed.

Lemma insert_sorted_perm {V : Type} (x : string * V) (l : list (string * V)) :
  insert_sorted x l ≡ₚ x :: l.
Proof.
  induction l as [|y l IH]; simpl; [done|].
  destruct (String.leb (fst x) (fst y)); [done|].
  rewrite IH. apply Permutation_swap.
Qed.

Lemma sorted_by_name_perm {V : Type} (l : list (string * V)) :
  sorted_by_name l ≡ₚ l.
Proof.
  induction l as [|x l IH]; simpl; [done|].
  unfold sorted_by_name in *. simpl. rewrite insert_sorted_perm. by rewrite IH.
Qed.

Lemma section_lines_spec heap k (l : list (string * access)) (line : string) :
  In line (section_lines heap k l) ↔
  ∃ e, In e l ∧ rendered_member e = true ∧ entry_kind heap e = k
       ∧ line = member_line heap e.
Proof.
  unfold section_lines. rewrite in_map_iff. split.
  - intros (e & <- & Hin). apply filter_In in Hin as [Hin Hb].
    apply andb_true_iff in Hb as [Hr Hk].
    exists e. repeat split; try done.
    by destruct (entry_kind heap e), k.
  - intros (e & Hin & Hr & <- & ->). exists e. split; [done|].
    apply filter_In. split; [done|]. rewrite Hr.
    by destruct (entry_kind heap e).
Qed.

Lemma privacy_rule (name : string) :
  passes_privacy name = true ↔
    startswith "_" name = false
    ∨ name = "__init__" ∨ name = "__new__" ∨ name = "__call__"
    ∨ name = "__str__" ∨ name = "__repr__".
Proof.
  unfold passes_privacy, name_in, special_methods. cbn [existsb].
  rewrite !orb_true_iff, negb_true_iff, !String.eqb_eq. intuition congruence.
Qed.

Lemma method_line_forms (heap : gmap obj_id pyobj) (name : string) (v : obj_id) :
  let attr := deref heap v in
  let s := _sanitize_name name in
  py_callable attr = true →
  member_line heap (name, Got v) =
    match py_signature attr with
    | Some sig => "    def " +:+ s +:+ sig +:+ ": ..."
    | None =>
        if decide (name = "__init__" ∨ name = "__new__" ∨ py_bound attr = true)
        then "    def " +:+ s +:+ "(self, *args, **kwargs): ..."
        else "    @staticmethod" +:+ nl +:+ "    def " +:+ s +:+ "(*args, **kwargs): ..."
    end.
Proof.
  intros attr s Hc. unfold member_line, kind_of. cbn [fst snd]. fold attr.
  rewrite Hc. unfold method_line. fold s.
  destruct (py_signature attr) as [sig|]; [reflexivity|].
  unfold name_in, constructors. cbn [existsb].
  destruct (String.eqb_spec name "__init__") as [->|H1]; [by rewrite decide_True by auto|].
  destruct (String.eqb_spec name "__new__") as [->|H2]; [by rewrite decide_True by auto|].
  cbn [orb]. destruct (py_bound attr).
  - by rewrite decide_True by auto.
  - rewrite decide_False; [done|]. intros [?|[?|?]]; done.
Qed.

(** C10: the class renderer keeps a member exactly when its name does not
    start with an underscore or is one of [__init__], [__new__], [__call__],
    [__str__], [__repr__], and reading it does not raise.  Each member kept
    yields one declaration line in the section of its kind: a [def] line
    with its sanitized name for a callable, [name: Any] for a property,
    [name: type] for any other value.  No other line is produced, and the
    body is [pass] when no member is kept.  On the class [Gauge] the five
    special names each get a [def] line, the other names that start with an
    underscore and the member whose access raises get none. *)
Theorem C10_class_members_rendered (heap : gmap obj_id pyobj) (cls : pyobj)
    (module_path : string) :
  let l := sorted_by_name (py_members cls) in
  (∀ name a,
     rendered_member (name, a) = true ↔
       (startswith "_" name = false
        ∨ name = "__init__" ∨ name = "__new__" ∨ name = "__call__"
        ∨ name = "__str__" ∨ name = "__repr__")
       ∧ ∃ v, a = Got v)
  ∧ (∀ name v, In (name, Got v) (py_members cls) →
       rendered_member (name, Got v) = true →
       let attr := deref heap v in
       let s := _sanitize_name name in
       let line :=
         if py_callable attr then
           match py_signature attr with
           | Some sig => "    def " +:+ s +:+ sig +:+ ": ..."
           | None =>
               if decide (name = "__init__" ∨ name = "__new__" ∨ py_bound attr = true)
               then "    def " +:+ s +:+ "(self, *args, **kwargs): ..."
               else "    @staticmethod" +:+ nl
                    +:+ "    def " +:+ s +:+ "(*args, **kwargs): ..."
           end
         else if py_isproperty attr then "    " +:+ s +:+ ": Any"
         else "    " +:+ s +:+ ": " +:+ type_hint_of attr in
       ∀ n, py_name cls = Some n →
         ∃ before after,
           dump_class_stub heap cls module_path
           = Ret (String.concat nl (before ++ [line] ++ after) +:+ nl +:+ nl))
  ∧ (∀ e, In e (py_members cls) → rendered_member e = true →
       In (member_line heap e) (section_lines heap (entry_kind heap e) l))
  ∧ (∀ k line, In line (section_lines heap k l) →
       ∃ e, In e (py_members cls) ∧ rendered_member e = true
            ∧ entry_kind heap e = k ∧ line = member_line heap e)
  ∧ (∀ n, py_name cls = Some n →
       dump_class_stub heap cls module_path =
         Ret (String.concat nl
                ([class_header (_sanitize_name n) cls] ++ class_docstring cls
                 ++ (if existsb rendered_member l
                     then section_lines heap KClassVar l
                          ++ section_lines heap KProperty l
                          ++ section_lines heap KMethod l
                     else ["    pass"]))
              +:+ nl +:+ nl))
  ∧ dump_class_stub gauge_heap (deref gauge_heap 2%positive) "m" =
      Ret (String.concat nl
             ["class Gauge:";
              "    MAX: int";
              "    unit: str";
              "    level: Any";
              "    def __call__(self, x): ...";
              "    def __init__(self, *args, **kwargs): ...";
              "    def __new__(self, *args, **kwargs): ...";
              "    def __repr__(self): ...";
              "    def __str__(self): ...";
              "    def reset(self, *args, **kwargs): ...";
              "    @staticmethod";
              "    def scale(*args, **kwargs): ..."]
           +:+ nl +:+ nl)
  ∧ dump_class_stub widget_heap (deref widget_heap 2%positive) "demo" =
      Ret (String.concat nl
             ["class Widget(Base):";
              "    VERSION: str";
              "    def __init__(self): ...";
              "    def resize(self, w: int, h: int) -> None: ..."]
           +:+ nl +:+ nl).
Proof.
  intros l.
  assert (Hstub : ∀ n, py_name cls = Some n →
    dump_class_stub heap cls module_path =
      Ret (String.concat nl
             ([class_header (_sanitize_name n) cls] ++ class_docstring cls
              ++ (if existsb rendered_member l
                  then section_lines heap KClassVar l
                       ++ section_lines heap KProperty l
                       ++ section_lines heap KMethod l
                  else ["    pass"]))
           +:+ nl +:+ nl)).
  { intros n Hn. unfold dump_class_stub. rewrite Hn.
    fold l. rewrite class_member_loop. cbn [res_bind no_class_members methods
      properties class_vars has_members app orb].
    destruct (existsb rendered_member l); cbn [negb]; rewrite <- ?app_assoc; reflexivity. }
  assert (Hsec : ∀ e, In e (py_members cls) → rendered_member e = true →
    In (member_line heap e) (section_lines heap (entry_kind heap e) l)).
  { intros e Hin Hr. apply section_lines_spec. exists e. repeat split; try done.
    apply (Permutation_in e (Permutation_sym (sorted_by_name_perm (py_members cls)))).
    exact Hin. }
  split; [|split; [|split; [exact Hsec|split; [|split; [exact Hstub|]]]]].
  - intros name a. unfold rendered_member. cbn [fst snd].
    rewrite andb_true_iff, privacy_rule.
    destruct a as [v|e]; cbn [accessible]; split.
    + intros [H _]. split; [exact H | by exists v].
    + by intros [H _].
    + by intros [_ ?].
    + by intros [_ [v ?]].
  - intros name v Hin Hr attr s line n Hn.
    assert (Hline : member_line heap (name, Got v) = line).
    { subst line. destruct (py_callable attr) eqn:Hc.
      - by apply method_line_forms.
      - unfold member_line, kind_of. cbn [fst snd]. fold attr. rewrite Hc.
        by destruct (py_isproperty attr). }
    pose proof (Hsec _ Hin Hr) as Hl. rewrite Hline in Hl.
    assert (Hex : existsb rendered_member l = true).
    { apply existsb_exists. exists (name, Got v). split; [|done].
      apply (Permutation_in _ (Permutation_sym (sorted_by_name_perm (py_members cls)))).
      exact Hin. }
    rewrite (Hstub n Hn), Hex.
    assert (Hall : In line (section_lines heap KClassVar l
                            ++ section_lines heap KProperty l
                            ++ section_lines heap KMethod l)).
    { rewrite !in_app_iff. destruct (entry_kind heap (name, Got v)); auto. }
    apply in_split in Hall as (l1 & l2 & ->).
    exists ([class_header (_sanitize_name n) cls] ++ class_docstring cls ++ l1), l2.
    by rewrite <- !app_assoc.
  - intros k line Hl. apply section_lines_spec in Hl as (e & Hin & Hr & Hk & ->).
    exists e. repeat split; try done.
    apply (Permutation_in e (sorted_by_name_perm (py_members cls))). exact Hin.
  - split; vm_compute; reflexivity.
Qed.

(** ** Member classifier *)

Lemma odict_get_set {V : Type} (k k' : string) (v : V) (d : odict V) :
  odict_get k' (odict_set k v d) =
    if String.eqb k k' then Some v else odict_get k' d.
Proof.
  induction d as [|[k0 v0] d IH]; simpl.
  - destruct (String.eqb_spec k k'); reflexivity.
  - destruct (String.eqb_spec k0 k) as [->|Hne]; simpl.
    + destruct (String.eqb_spec k k'); reflexivity.
    + rewrite IH. destruct (String.eqb_spec k0 k') as [->|Hne'].
      * destruct (String.eqb_spec k k'); [congruence | reflexivity].
      * reflexivity.
Qed.

Lemma holds_set {V : Type} (k k' : string) (v : V) (d : odict V) (c : category) :
  holds k' (odict_set k v d) c = if String.eqb k k' then [(c, v)] else holds k' d c.
Proof.
  unfold holds. rewrite odict_get_set. by destruct (String.eqb k k').
Qed.

(** A step of the classifier only touches the entry of the name it handles. *)
Lemma gmm_step_placed_other heap module_name st name a name' :
  name ≠ name' →
  placed (gm_members (gmm_step heap module_name st (name, a))) name'
  = placed (gm_members st) name'.
Proof.
  intros Hne. apply String.eqb_neq in Hne.
  unfold gmm_step.
  repeat match goal with
         | |- context [if ?b then _ else _] => destruct b
         | |- context [match ?x with _ => _ end] => destruct x
         end; try reflexivity;
    unfold placed; cbn [gm_members with_members classes functions submodules variables];
    rewrite ?chosen_name_candidate, holds_set, Hne; reflexivity.
Qed.

Lemma gmm_fold_placed_other heap module_name l st name' :
  name' ∉ map fst l →
  placed (gm_members (fold_left (gmm_step heap module_name) l st)) name'
  = placed (gm_members st) name'.
Proof.
  revert st. induction l as [|[name a] l IH]; intros st Hnot; [reflexivity|].
  simpl in *. rewrite not_elem_of_cons in Hnot. destruct Hnot as [Hne Hnot].
  rewrite IH by done. apply gmm_step_placed_other. congruence.
Qed.

Lemma gmm_step_seen heap module_name st e v :
  gm_seen (gmm_step heap module_name st e) !! v = None ↔
  gm_seen st !! v = None ∧ records heap module_name v e = false.
Proof.
  destruct e as [name a]. unfold gmm_step, records, bound_to. cbn [fst snd].
  destruct (startswith "_" name) eqn:Hn; cbn [negb andb]; [tauto|].
  destruct a as [v'|e]; cbn [with_out gm_seen]; [|tauto].
  destruct (Pos.eqb_spec v' v) as [->|Hne]; cbn [andb].
  - destruct (py_isclass (deref heap v)) eqn:Hc; cbn [andb].
    + destruct (class_owned module_name (deref heap v)) eqn:Ho.
      * destruct (gm_seen st !! v) eqn:Hs; cbn [with_out gm_seen].
        -- rewrite Hs. split; [done | intros [? ?]; done].
        -- rewrite lookup_insert_eq. split; [done | intros [? ?]; done].
      * tauto.
    + repeat match goal with
             | |- context [if ?b then _ else _] => destruct b
             end; cbn [with_members gm_seen]; tauto.
  - repeat match goal with
           | |- context [if ?b then _ else _] => destruct b
           | |- context [match ?x with _ => _ end] => destruct x eqn:?
           end; cbn [with_members with_out gm_seen];
      rewrite ?lookup_insert_ne by done; tauto.
Qed.

Lemma gmm_fold_seen heap module_name l st v :
  gm_seen (fold_left (gmm_step heap module_name) l st) !! v = None ↔
  gm_seen st !! v = None ∧ existsb (records heap module_name v) l = false.
Proof.
  revert st. induction l as [|e l IH]; intros st; simpl; [tauto|].
  rewrite IH, gmm_step_seen, orb_false_iff. tauto.
Qed.

Lemma records_bound_to heap module_name v (l : list (string * access)) :
  py_isclass (deref heap v) = true →
  class_owned module_name (deref heap v) = true →
  existsb (records heap module_name v) l = existsb (bound_to v) l.
Proof.
  intros Hc Ho. induction l as [|e l IH]; simpl; [done|].
  unfold records at 1. by rewrite Hc, Ho, !andb_true_r, IH.
Qed.

Lemma placed_classify heap (module : pyobj) (mapping : gmap obj_id string)
    (l1 l2 : list (string * access)) (name : string) (a : access) :
  py_members module = l1 ++ (name, a) :: l2 →
  NoDup (map fst (py_members module)) →
  placed (gm_members (classify heap module mapping)) name =
    match a with
    | Raises _ => []
    | Got v =>
        if startswith "_" name then []
        else
          match category_of (default "unknown" (py_name module)) name (deref heap v) with
          | Some CClass => if existsb (bound_to v) l1 then [] else [(CClass, v)]
          | Some c => [(c, v)]
          | None => []
          end
    end.
Proof.
  intros Hl Hnd. unfold classify. rewrite Hl in *.
  rewrite map_app in Hnd. simpl in Hnd.
  apply NoDup_app in Hnd as (Hnd1 & Hdisj & Hnd2).
  apply NoDup_cons in Hnd2 as [Hn2 _].
  assert (Hn1 : name ∉ map fst l1).
  { intros Hin. apply (Hdisj _ Hin). by left. }
  set (module_name := default "unknown" (py_name module)).
  set (st0 := {| gm_members := no_members; gm_seen := ∅;
                 gm_mapping := mapping; gm_out := [] |}).
  rewrite fold_left_app. cbn [fold_left].
  rewrite gmm_fold_placed_other by done.
  pose proof (gmm_fold_placed_other heap module_name l1 st0 name Hn1) as Hst1.
  pose proof (gmm_fold_seen heap module_name l1 st0) as Hseen.
  set (st1 := fold_left (gmm_step heap module_name) l1 st0) in *.
  change (placed (gm_members st0) name) with (@nil (category * obj_id)) in Hst1.
  unfold placed in Hst1.
  apply app_eq_nil in Hst1 as [Hc Hst1].
  apply app_eq_nil in Hst1 as [Hf Hst1].
  apply app_eq_nil in Hst1 as [Hs Hv].
  unfold gmm_step, category_of.
  destruct a as [v|e].
  2:{ destruct (startswith "_" name); unfold placed;
      cbn [with_out gm_members]; by rewrite Hc, Hf, Hs, Hv. }
  destruct (startswith "_" name) eqn:Hp.
  { unfold placed; by rewrite Hc, Hf, Hs, Hv. }
  destruct (py_isclass (deref heap v)) eqn:Hcls.
  { destruct (class_owned module_name (deref heap v)) eqn:Ho.
    2:{ unfold placed; by rewrite Hc, Hf, Hs, Hv. }
    rewrite <- (records_bound_to heap module_name v l1 Hcls Ho).
    destruct (gm_seen st1 !! v) eqn:Hsv.
    - destruct (existsb (records heap module_name v) l1) eqn:Hr.
      + unfold placed; cbn [with_out gm_members]; by rewrite Hc, Hf, Hs, Hv.
      + exfalso. assert (gm_seen st1 !! v = None) as Hnone.
        { apply Hseen. split; [apply lookup_empty | done]. }
        congruence.
    - apply Hseen in Hsv as [_ ->].
      unfold placed. cbn [gm_members classes functions submodules variables].
      rewrite chosen_name_candidate, holds_set, String.eqb_refl.
      by rewrite Hf, Hs, Hv. }
  destruct (py_ismodule (deref heap v)) eqn:Hmod.
  { destruct (submodule_qualifies module_name name (deref heap v)).
    - unfold placed. cbn [with_members gm_members classes functions submodules variables].
      rewrite holds_set, String.eqb_refl. by rewrite Hc, Hf, Hv.
    - unfold placed; by rewrite Hc, Hf, Hs, Hv. }
  cbn [negb andb]. rewrite andb_true_r.
  destruct (py_callable (deref heap v)) eqn:Hcall.
  { destruct (function_owned module_name (deref heap v)).
    - unfold placed. cbn [with_members gm_members classes functions submodules variables].
      rewrite holds_set, String.eqb_refl. by rewrite Hc, Hs, Hv.
    - unfold placed; by rewrite Hc, Hf, Hs, Hv. }
  unfold placed. cbn [with_members gm_members classes functions submodules variables].
  rewrite holds_set, String.eqb_refl. by rewrite Hc, Hf, Hs.
Qed.

(** C2, counterexample: after [from pathlib import Path] the name [Path] of
    module [m] is public and readable, its value is neither an owned class,
    nor a function, nor a submodule, and it is placed in no category, so
    not among the variables either. *)
Lemma C2_imported_class_counterexample :
  py_members (deref import_heap 1%positive) = [("Path", Got 2%positive)]
  ∧ startswith "_" "Path" = false
  ∧ class_owned "m" (deref import_heap 2%positive) = false
  ∧ py_ismodule (deref import_heap 2%positive) = false
  ∧ placed (gm_members (classify import_heap (deref import_heap 1%positive) ∅)) "Path" = [].
Proof. repeat split; reflexivity. Qed.

(** C2, as amended: classification is exclusive but not total.  A public,
    readable member is placed in at most one category: as a class when its
    value is a class owned by the namespace and no earlier public name is
    bound to the same object; as a submodule when its value is a module
    that qualifies; as a function when its value is callable, neither class
    nor module, and owned; as a variable exactly when its value is neither a
    class, nor a module, nor callable.  Classes and callables owned
    elsewhere, modules that do not qualify and repeated names of a class
    object are placed nowhere. *)
Theorem C2_classification (heap : gmap obj_id pyobj) (module : pyobj)
    (mapping : gmap obj_id string) (l1 l2 : list (string * access))
    (name : string) (v : obj_id) :
  py_members module = l1 ++ (name, Got v) :: l2 →
  NoDup (map fst (py_members module)) →
  startswith "_" name = false →
  let module_name := default "unknown" (py_name module) in
  let r := gm_members (classify heap module mapping) in
  placed r name =
    match category_of module_name name (deref heap v) with
    | Some CClass => if existsb (bound_to v) l1 then [] else [(CClass, v)]
    | Some c => [(c, v)]
    | None => []
    end
  ∧ length (placed r name) ≤ 1
  ∧ (category_of module_name name (deref heap v) = Some CVariable ↔
       py_isclass (deref heap v) = false ∧ py_ismodule (deref heap v) = false
       ∧ py_callable (deref heap v) = false).
Proof.
  intros Hl Hnd Hp module_name r.
  assert (Hplaced := placed_classify heap module mapping l1 l2 name (Got v) Hl Hnd).
  rewrite Hp in Hplaced. fold module_name r in Hplaced.
  split; [exact Hplaced|]. split.
  - rewrite Hplaced.
    destruct (category_of module_name name (deref heap v)) as [[]|]; simpl;
      try destruct (existsb (bound_to v) l1); simpl; lia.
  - unfold category_of.
    destruct (py_isclass (deref heap v)), (py_ismodule (deref heap v)),
      (py_callable (deref heap v));
      repeat match goal with
             | |- context [if ?b then _ else _] => destruct b
             end; split; try discriminate; try tauto; intros (? & ? & ?); discriminate.
Qed.

(** The classification of [make] in the [demo] namespace of the
    specification. *)
Lemma C2_classification_witness :
  placed (gm_members (classify widget_heap (deref widget_heap 1%positive) ∅)) "make"
  = [(CFunction, 3%positive)].
Proof.
  apply (C2_classification widget_heap (deref widget_heap 1%positive) ∅
           [("Widget", Got 2%positive)] [] "make" 3%positive).
  - reflexivity.
  - apply (bool_decide_unpack _). vm_compute. exact I.
  - reflexivity.
Defined.

(** ** Tree builder and driver on the sample namespaces *)

(** C7: for [demo] with [import demo.utils as helpers], the module being
    reachable as [demo.utils] too, the run creates exactly one directory
    below [demo], named [utils] after the last segment of the qualified
    name of the submodule; no directory [helpers] exists, and the descriptor
    of [demo] contains the line [from . import utils]. *)
Theorem C7_aliased_submodule_layout (fuel : nat) (remove_if_exists : bool) :
  let run := dump_module demo_heap (S (S fuel)) ["stubs"] remove_if_exists 1%positive
               (start ∅) in
  run.1 = Ret tt
  ∧ subdirectories (fs run.2) ["stubs"; "demo"] = ["utils"]
  ∧ fs run.2 !! ["stubs"; "demo"; "helpers"] = None
  ∧ fs run.2 !! ["stubs"; "demo"; "utils"; "__init__.pyi"] = Some (File preamble)
  ∧ In "from . import utils" (file_lines (fs run.2) ["stubs"; "demo"; "__init__.pyi"]).
Proof.
  destruct remove_if_exists; vm_compute; repeat split; auto 10.
Qed.

(** A failure inside the traversal: the function renderer reads [__name__]
    of a callable instance, the exception leaves the tree builder and is
    caught and logged by the driver; the directory made so far stays. *)
Example traversal_failure_is_logged :
  let run := dump_module handler_heap 3 ["stubs"] false 1%positive (start ∅) in
  run.1 = Ret tt
  ∧ stdout run.2 =
      [Starting "m"; Processing "stubs/m" "m"; ErrorDuring "__name__";
       Traceback (AttributeError "__name__")]
  ∧ fs run.2 !! ["stubs"; "m"] = Some Dir
  ∧ fs run.2 !! ["stubs"; "m"; "__init__.pyi"] = None.
Proof. vm_compute. repeat split. Qed.

(** C8, counterexample: the output root is taken by a regular file, the
    creation of the root raises before the [try] is entered, and the
    exception reaches the caller of the driver. *)
Lemma C8_blocked_root_counterexample :
  (dump_module demo_heap 3 ["stubs"] false 1%positive (start blocked_fs)).1
  = Raise (FileExistsError "stubs").
Proof. vm_compute. reflexivity. Qed.

(** The driver, with its sequencing and its handler unfolded. *)
Lemma dump_module_unfold (heap : gmap obj_id pyobj)
    (create : obj_id → path → option string → M unit) (output_dir : path)
    (remove_if_exists : bool) (module : obj_id) (w : world) :
  dump_module_with heap create output_dir remove_if_exists module w =
    let module_name := default (py_str (deref heap module)) (py_name (deref heap module)) in
    match prepare_output output_dir remove_if_exists (print (Starting module_name) w).2 with
    | (Ret _, w1) =>
        match generate_and_report_with create output_dir module w1 with
        | (Raise (Exc e), w2) =>
            (Ret tt, {| gen := gen w2; fs := fs w2;
                        stdout := (stdout w2 ++ [ErrorDuring (exn_msg e)]) ++ [Traceback e] |})
        | rw => rw
        end
    | (Raise e, w1) => (Raise e, w1)
    | (OutOfFuel, w1) => (OutOfFuel, w1)
    end.
Proof.
  unfold dump_module_with, bind, try_except. cbn [print snd].
  match goal with |- context [prepare_output ?o ?r ?x] =>
    destruct (prepare_output o r x) as [[[]|e0|] w1] end; reflexivity.
Qed.

(** An interrupt during the traversal is not an [Exception]: it passes the
    handler of the driver and reaches the caller, and nothing is logged. *)
Example interrupt_passes_the_driver :
  dump_module_with demo_heap (λ _ _ _, raise KeyboardInterrupt) ["stubs"] false
    1%positive (start ∅)
  = (Raise KeyboardInterrupt,
     {| gen := new_generator; fs := {[ ["stubs"] := Dir ]};
        stdout := [Starting "demo"] |}).
Proof. vm_compute. reflexivity. Qed.

(** C8, as amended: once the output root is prepared, every exception of
    class [Exception] raised by the traversal or by the report is caught at
    the driver boundary, logged with its message and a traceback, and not
    propagated; the file system is left as the traversal made it.  An
    exception raised while the output root is cleared or created is outside
    the [try] and reaches the caller, and so does what the traversal raises
    outside [Exception] ([SystemExit], [KeyboardInterrupt]), which the
    handler does not catch and does not log.  The statement holds for every
    behaviour [create] of the tree builder; the driver is the instance with
    the tree builder of the program. *)
Theorem C8_driver_boundary (heap : gmap obj_id pyobj)
    (create : obj_id → path → option string → M unit) (output_dir : path)
    (remove_if_exists : bool) (module : obj_id) (w : world) :
  let module_name := default (py_str (deref heap module)) (py_name (deref heap module)) in
  let w0 := (print (Starting module_name) w).2 in
  let run := dump_module_with heap create output_dir remove_if_exists module w in
  let body := generate_and_report_with create output_dir module in
  (∀ fuel, dump_module heap fuel
           = dump_module_with heap (create_module_structure heap fuel))
  ∧ (∀ e, run.1 = Raise e →
       (prepare_output output_dir remove_if_exists w0).1 = Raise e
       ∨ (is_exception e = false
          ∧ ∃ w1 w2, prepare_output output_dir remove_if_exists w0 = (Ret tt, w1)
                     ∧ body w1 = (Raise e, w2)))
  ∧ (∀ e w1, prepare_output output_dir remove_if_exists w0 = (Raise e, w1) →
       run = (Raise e, w1))
  ∧ (∀ w1, prepare_output output_dir remove_if_exists w0 = (Ret tt, w1) →
       (∀ (e : exn) w2, body w1 = (Raise (Exc e), w2) →
          run.1 = Ret tt
          ∧ gen run.2 = gen w2
          ∧ fs run.2 = fs w2
          ∧ stdout run.2 = stdout w2 ++ [ErrorDuring (exn_msg e); Traceback e])
       ∧ (∀ e w2, body w1 = (Raise e, w2) → is_exception e = false →
            run = (Raise e, w2))
       ∧ (∀ w2, body w1 = (Ret tt, w2) → run = (Ret tt, w2))).
Proof.
  intros module_name w0 run body. subst run body. rewrite dump_module_unfold.
  cbv zeta. fold module_name. fold w0. clearbody w0.
  split; [reflexivity|].
  destruct (prepare_output output_dir remove_if_exists w0) as [[[]|e0|] w1] eqn:Hprep.
  - destruct (generate_and_report_with create output_dir module w1)
      as [[[]|[e1| |]|] w2] eqn:Hgen.
    all: split; [intros e He; cbn [fst] in He; simplify_eq; right;
                 (split; [done|]); by exists w1, w2|].
    all: split; [by intros|].
    all: intros w1' [= <-]; split; [|split].
    all: try (intros e w2' He; rewrite Hgen in He; simplify_eq;
              cbn; by rewrite <- ?app_assoc).
    all: try (intros e w2' He Hx; rewrite Hgen in He; by simplify_eq).
    all: try (intros w2' He; rewrite Hgen in He; by simplify_eq).
  - split; [intros e [= <-]; by left|]. split; [by intros e w1' [= <- <-]|].
    by intros.
  - split; [by intros|]. split; by intros.
Qed.

(** ** Rules for sequencing, handlers and loops *)

Lemma bind_run {A B : Type} (m : M A) (k : A → M B) (w : world) :
  bind m k w =
    match m w with
    | (Ret a, w') => k a w'
    | (Raise e, w') => (Raise e, w')
    | (OutOfFuel, w') => (OutOfFuel, w')
    end.
Proof. reflexivity. Qed.

Section Keeps.

Variable R : world → world → Prop.
Hypothesis R_refl : ∀ w, R w w.
Hypothesis R_trans : ∀ w1 w2 w3, R w1 w2 → R w2 w3 → R w1 w3.

Lemma keeps_ret {A : Type} (a : A) : keeps R (ret a).
Proof. intros w. apply R_refl. Qed.

Lemma keeps_lift {A : Type} (r : res A) : keeps R (lift r).
Proof. intros w. apply R_refl. Qed.

Lemma keeps_get_gen : keeps R get_gen.
Proof. intros w. apply R_refl. Qed.

Lemma keeps_get_fs : keeps R get_fs.
Proof. intros w. apply R_refl. Qed.

Lemma keeps_bind {A B : Type} (m : M A) (k : A → M B) :
  keeps R m → (∀ a, keeps R (k a)) → keeps R (bind m k).
Proof.
  intros Hm Hk w. rewrite bind_run. specialize (Hm w).
  destruct (m w) as [[a|e|] w']; simpl in *; [|done|done].
  eapply R_trans; [exact Hm | apply Hk].
Qed.

Lemma keeps_try {A : Type} (m : M A) (h : exn → M A) :
  keeps R m → (∀ e, keeps R (h e)) → keeps R (try_except m h).
Proof.
  intros Hm Hh w. unfold try_except. specialize (Hm w).
  destruct (m w) as [[a|[e|c|]|] w']; simpl in *; try done.
  eapply R_trans; [exact Hm | apply Hh].
Qed.

Lemma keeps_foldM {A B : Type} (f : B → A → M B) (l : list A) (b : B) :
  (∀ b a, In a l → keeps R (f b a)) → keeps R (foldM f l b).
Proof.
  revert b. induction l as [|a l IH]; intros b Hf; simpl.
  - apply keeps_ret.
  - apply keeps_bind; [apply Hf; by left|].
    intros b'. apply IH. intros b'' a' Hin. apply Hf. by right.
Qed.

Lemma keeps_forM_ {A : Type} (f : A → M unit) (l : list A) :
  (∀ a, keeps R (f a)) → keeps R (forM_ f l).
Proof.
  intros Hf. induction l as [|a l IH]; simpl.
  - apply keeps_ret.
  - apply keeps_bind; [apply Hf | intros _; exact IH].
Qed.

Lemma keeps_if {A : Type} (b : bool) (m1 m2 : M A) :
  keeps R m1 → keeps R m2 → keeps R (if b then m1 else m2).
Proof. by destruct b. Qed.

End Keeps.

Lemma finishes_ret {A : Type} (a : A) : finishes (ret a).
Proof. intros w. done. Qed.

Lemma finishes_bind {A B : Type} (m : M A) (k : A → M B) :
  finishes m → (∀ a, finishes (k a)) → finishes (bind m k).
Proof.
  intros Hm Hk w. rewrite bind_run. specialize (Hm w).
  destruct (m w) as [[a|e|] w']; simpl in *; [apply Hk|done|done].
Qed.

Lemma finishes_try {A : Type} (m : M A) (h : exn → M A) :
  finishes m → (∀ e, finishes (h e)) → finishes (try_except m h).
Proof.
  intros Hm Hh w. unfold try_except. specialize (Hm w).
  destruct (m w) as [[a|[e|c|]|] w']; simpl in *; try done. apply Hh.
Qed.

Lemma finishes_foldM {A B : Type} (f : B → A → M B) (l : list A) (b : B) :
  (∀ b a, In a l → finishes (f b a)) → finishes (foldM f l b).
Proof.
  revert b. induction l as [|a l IH]; intros b Hf; simpl.
  - apply finishes_ret.
  - apply finishes_bind; [apply Hf; by left|].
    intros b'. apply IH. intros b'' a' Hin. apply Hf. by right.
Qed.

Lemma finishes_forM_ {A : Type} (f : A → M unit) (l : list A) :
  (∀ a, finishes (f a)) → finishes (forM_ f l).
Proof.
  intros Hf. induction l as [|a l IH]; simpl.
  - apply finishes_ret.
  - apply finishes_bind; [apply Hf | intros _; exact IH].
Qed.

Lemma finishes_print (e : event) : finishes (print e).
Proof. intros w. done. Qed.

Lemma finishes_get_gen : finishes get_gen.
Proof. intros w. done. Qed.

Lemma finishes_put_gen (g : generator) : finishes (put_gen g).
Proof. intros w. done. Qed.

Lemma finishes_get_fs : finishes get_fs.
Proof. intros w. done. Qed.

Lemma finishes_lift {A : Type} (r : res A) : r ≠ OutOfFuel → finishes (lift r).
Proof. intros Hr w. exact Hr. Qed.

Lemma finishes_on_fs op :
  (∀ f, (op f).1 ≠ OutOfFuel) → finishes (on_fs op).
Proof.
  intros Hop w. unfold on_fs. specialize (Hop (fs w)).
  by destruct (op (fs w)).
Qed.

(** ** The tracker and the console stay in step *)

Lemma added_classes_app (l1 l2 : list event) :
  added_classes (l1 ++ l2) = added_classes l1 ++ added_classes l2.
Proof.
  induction l1 as [|e l1 IH]; simpl; [done|].
  destruct e; simpl; by rewrite ?IH.
Qed.

Lemma entered_app (l1 l2 : list event) :
  entered (l1 ++ l2) = entered l1 ++ entered l2.
Proof.
  induction l1 as [|e l1 IH]; simpl; [done|].
  destruct e; simpl; by rewrite ?IH.
Qed.

Lemma benign_added (l : list event) :
  forallb benign l = true → added_classes l = [] ∧ entered l = [].
Proof.
  induction l as [|e l IH]; simpl; [done|].
  intros [He Hl]%andb_true_iff. destruct (IH Hl) as [-> ->].
  by destruct e.
Qed.

Lemma keeps_tracked_refl (w : world) : keeps_tracked w w.
Proof. by intros H. Qed.

Lemma keeps_tracked_trans (w1 w2 w3 : world) :
  keeps_tracked w1 w2 → keeps_tracked w2 w3 → keeps_tracked w1 w3.
Proof. unfold keeps_tracked. tauto. Qed.

(** Worlds with the same tracker sets and the same tracked events. *)
Lemma tracked_same (w w' : world) :
  added_classes (stdout w') = added_classes (stdout w) →
  entered (stdout w') = entered (stdout w) →
  processed_class_objects (gen w') = processed_class_objects (gen w) →
  processed_modules (gen w') = processed_modules (gen w) →
  keeps_tracked w w'.
Proof.
  intros Ha He Hc Hm. unfold keeps_tracked, tracked.
  by rewrite Ha, He, Hc, Hm.
Qed.

Lemma keeps_tracked_output (l : list event) :
  forallb benign l = true →
  ∀ w g f, processed_class_objects g = processed_class_objects (gen w) →
    processed_modules g = processed_modules (gen w) →
    keeps_tracked w {| gen := g; fs := f; stdout := stdout w ++ l |}.
Proof.
  intros Hl w g f Hc Hm. destruct (benign_added l Hl) as [Ha He].
  apply tracked_same; cbn [gen stdout]; try done.
  - by rewrite added_classes_app, Ha, app_nil_r.
  - by rewrite entered_app, He, app_nil_r.
Qed.

Lemma keeps_tracked_print (e : event) :
  benign e = true → keeps keeps_tracked (print e).
Proof.
  intros He w. apply (keeps_tracked_output [e]); [|done|done].
  simpl. by rewrite He.
Qed.

Lemma keeps_tracked_on_fs op : keeps keeps_tracked (on_fs op).
Proof.
  intros w. unfold on_fs. destruct (op (fs w)) as [r f]. cbn [snd].
  by apply tracked_same.
Qed.

Lemma gmm_step_benign heap module_name st e :
  forallb benign (gm_out st) = true →
  forallb benign (gm_out (gmm_step heap module_name st e)) = true.
Proof.
  intros Hst. destruct e as [name a]. unfold gmm_step.
  repeat match goal with
         | |- context [if ?b then _ else _] => destruct b
         | |- context [match ?x with _ => _ end] => destruct x
         end; cbn [with_out with_members gm_out]; try done;
    rewrite forallb_app, Hst; reflexivity.
Qed.

Lemma gmm_fold_benign heap module_name l st :
  forallb benign (gm_out st) = true →
  forallb benign (gm_out (fold_left (gmm_step heap module_name) l st)) = true.
Proof.
  revert st. induction l as [|e l IH]; intros st Hst; [done|].
  simpl. apply IH. by apply gmm_step_benign.
Qed.

Lemma classify_benign heap module mapping :
  forallb benign (gm_out (classify heap module mapping)) = true.
Proof. unfold classify. by apply gmm_fold_benign. Qed.

Lemma keeps_tracked_classifier heap module :
  keeps keeps_tracked (get_module_members heap module).
Proof.
  intros w. unfold get_module_members. cbn [snd].
  apply keeps_tracked_output; [apply classify_benign|done|done].
Qed.

Lemma NoDup_snoc {A : Type} (l : list A) (x : A) :
  NoDup l → ¬ In x l → NoDup (l ++ [x]).
Proof.
  intros Hnd Hx. apply NoDup_app. split; [done|]. split.
  - intros j Hj [->|[]%not_elem_of_nil]%elem_of_cons. by apply Hx, list_elem_of_In.
  - apply NoDup_singleton.
Qed.

Lemma in_snoc_union `{Countable K} (l : list K) (s : gset K) (x : K) :
  (∀ j, In j l ↔ j ∈ s) → ∀ j, In j (l ++ [x]) ↔ j ∈ s ∪ {[x]}.
Proof.
  intros Hin j. rewrite in_app_iff, elem_of_union, elem_of_singleton, Hin.
  simpl. intuition.
Qed.

Lemma tracked_add_class (w : world) (i : obj_id) (name full : string) :
  i ∉ processed_class_objects (gen w) →
  keeps_tracked w
    {| gen := add_processed_class i full (gen w); fs := fs w;
       stdout := stdout w ++ [AddingClass i name] |}.
Proof.
  intros Hi (Hnd & Hin & Hnd' & Hin').
  unfold tracked. cbn [gen stdout add_processed_class processed_class_objects
    processed_modules].
  rewrite added_classes_app, entered_app. cbn [added_classes entered].
  rewrite app_nil_r. split; [|split; [|split]]; try done.
  - apply NoDup_snoc; [done|]. intros Hj. by apply Hi, Hin.
  - by apply in_snoc_union.
Qed.

Lemma tracked_enter (w : world) (key name : string) :
  key ∉ processed_modules (gen w) →
  keeps_tracked w
    {| gen := add_processed_module key (gen w); fs := fs w;
       stdout := stdout w ++ [Processing key name] |}.
Proof.
  intros Hi (Hnd & Hin & Hnd' & Hin').
  unfold tracked. cbn [gen stdout add_processed_module processed_class_objects
    processed_modules].
  rewrite added_classes_app, entered_app. cbn [added_classes entered].
  rewrite app_nil_r. split; [|split; [|split]]; try done.
  - apply NoDup_snoc; [done|]. intros Hj. by apply Hi, Hin'.
  - by apply in_snoc_union.
Qed.

Lemma keeps_tracked_class_step heap module_name init_content entry :
  keeps keeps_tracked (class_step heap module_name init_content entry).
Proof.
  destruct entry as [class_name cls]. intros w. unfold class_step.
  rewrite bind_run. cbn [get_gen].
  destruct (decide (cls ∈ processed_class_objects (gen w))) as [Hin|Hnot].
  - apply (keeps_bind keeps_tracked keeps_tracked_trans).
    + by apply keeps_tracked_print.
    + intros _. apply keeps_if; apply keeps_ret, keeps_tracked_refl.
  - rewrite bind_run. cbn [put_gen]. rewrite bind_run. cbn [print gen fs stdout].
    eapply keeps_tracked_trans; [by apply (tracked_add_class w cls class_name)|].
    apply (keeps_bind keeps_tracked keeps_tracked_trans).
    + apply keeps_lift, keeps_tracked_refl.
    + intros stub. apply keeps_ret, keeps_tracked_refl.
Qed.

Ltac keeps_tracked_steps :=
  repeat first
    [ apply (keeps_bind keeps_tracked keeps_tracked_trans)
    | apply (keeps_try keeps_tracked keeps_tracked_trans)
    | apply (keeps_foldM keeps_tracked keeps_tracked_refl keeps_tracked_trans)
    | apply (keeps_forM_ keeps_tracked keeps_tracked_refl keeps_tracked_trans)
    | apply (keeps_ret keeps_tracked keeps_tracked_refl)
    | apply (keeps_lift keeps_tracked keeps_tracked_refl)
    | apply (keeps_get_gen keeps_tracked keeps_tracked_refl)
    | apply (keeps_get_fs keeps_tracked keeps_tracked_refl)
    | apply keeps_tracked_on_fs
    | apply keeps_tracked_classifier
    | apply keeps_tracked_class_step
    | apply keeps_tracked_print; reflexivity
    | apply keeps_if
    | match goal with |- ∀ _, _ => intro end ].

Lemma keeps_tracked_submodule_step heap rec module_dir init_content entry :
  (∀ m b n, keeps keeps_tracked (rec m b n)) →
  keeps keeps_tracked (submodule_step heap rec module_dir init_content entry).
Proof.
  intros Hrec. destruct entry as [submodule_name submodule]. unfold submodule_step.
  keeps_tracked_steps. apply Hrec.
Qed.

Lemma keeps_tracked_body heap rec module base_path module_name :
  (∀ m b n, keeps keeps_tracked (rec m b n)) →
  keeps keeps_tracked
    (create_module_structure_body heap rec module base_path module_name).
Proof.
  intros Hrec w. unfold create_module_structure_body.
  rewrite bind_run. cbn [get_gen].
  match goal with |- context [decide (?k ∈ ?s)] => destruct (decide (k ∈ s)) as [Hin|Hnot] end.
  - apply keeps_tracked_refl.
  - rewrite bind_run. cbn [print]. rewrite bind_run. cbn [put_gen gen fs stdout].
    match goal with |- keeps_tracked _ (?m ?w1).2 =>
      apply (keeps_tracked_trans _ w1); [by apply tracked_enter|];
      generalize w1; change (keeps keeps_tracked m) end.
    unfold write_init, function_step, variable_step.
    keeps_tracked_steps.
    + match goal with |- context [let '(_, _) := ?x in _] => destruct x end.
      keeps_tracked_steps.
    + by apply keeps_tracked_submodule_step.
Qed.

Lemma keeps_tracked_tree heap fuel module base_path module_name :
  keeps keeps_tracked (create_module_structure heap fuel module base_path module_name).
Proof.
  revert module base_path module_name.
  induction fuel as [|fuel IH]; intros module base_path module_name.
  - intros w. apply keeps_tracked_refl.
  - simpl. by apply keeps_tracked_body.
Qed.

Lemma keeps_tracked_driver heap fuel output_dir remove_if_exists module :
  keeps keeps_tracked (dump_module heap fuel output_dir remove_if_exists module).
Proof.
  unfold dump_module, dump_module_with, prepare_output, generate_and_report, generate_and_report_with.
  keeps_tracked_steps. apply keeps_tracked_tree.
Qed.

Lemma tracked_start (f : gmap (list string) node) : tracked (start f).
Proof.
  unfold tracked, start. cbn. repeat split; try apply NoDup_nil_2; set_solver.
Qed.

(** Every run of the driver from a new generator leaves the console and the
    tracker in step. *)
Lemma tracked_run heap fuel output_dir remove_if_exists module f :
  tracked (dump_module heap fuel output_dir remove_if_exists module (start f)).2.
Proof. apply keeps_tracked_driver, tracked_start. Qed.

(** ** One class block per identity *)

Lemma odict_set_values {V : Type} (k : string) (v : V) (d : odict V) (x : V) :
  In x (map snd (odict_set k v d)) → x = v ∨ In x (map snd d).
Proof.
  induction d as [|[k' v'] d IH]; simpl.
  - intros [<-|[]]. by left.
  - destruct (String.eqb k' k); simpl.
    + intros [<-|Hx]; [by left | right; by right].
    + intros [<-|Hx]; [right; by left|].
      destruct (IH Hx) as [->|Hd]; [by left | right; by right].
Qed.

Lemma odict_set_NoDup {V : Type} (k : string) (v : V) (d : odict V) :
  NoDup (map snd d) → ¬ In v (map snd d) → NoDup (map snd (odict_set k v d)).
Proof.
  induction d as [|[k' v'] d IH]; simpl; intros Hnd Hv.
  - apply NoDup_singleton.
  - apply NoDup_cons in Hnd as [Hv' Hnd].
    destruct (String.eqb k' k); simpl.
    + apply NoDup_cons. split; [|done].
      rewrite list_elem_of_In. tauto.
    + apply NoDup_cons. split.
      * rewrite list_elem_of_In. intros Hx.
        apply odict_set_values in Hx as [->|Hx]; [tauto|].
        by apply Hv', list_elem_of_In.
      * apply IH; [done | tauto].
Qed.

Lemma gmm_step_distinct heap module_name st e :
  distinct_classes st → distinct_classes (gmm_step heap module_name st e).
Proof.
  intros [Hnd Hseen]. destruct e as [name a]. unfold gmm_step.
  destruct (startswith "_" name); [done|].
  destruct a as [v|e]; [|done].
  destruct (py_isclass (deref heap v)).
  - destruct (class_owned module_name (deref heap v)); [|done].
    destruct (gm_seen st !! v) eqn:Hv; [done|].
    split; cbn [gm_members classes gm_seen].
    + apply odict_set_NoDup; [done|].
      intros Hin. apply Hseen in Hin as [? ?]. congruence.
    + intros x [->|Hx]%odict_set_values.
      * rewrite lookup_insert_eq. eauto.
      * destruct (decide (v = x)) as [->|Hne].
        -- rewrite lookup_insert_eq. eauto.
        -- rewrite lookup_insert_ne by done. by apply Hseen.
  - repeat match goal with
           | |- context [if ?b then _ else _] => destruct b
           end; done.
Qed.

Lemma classify_distinct heap module mapping :
  NoDup (map snd (classes (gm_members (classify heap module mapping)))).
Proof.
  unfold classify.
  set (st0 := {| gm_members := no_members; gm_seen := ∅;
                 gm_mapping := mapping; gm_out := [] |}).
  assert (H0 : distinct_classes st0).
  { split; [apply NoDup_nil_2 | intros v []]. }
  revert H0. generalize st0. generalize (default "unknown" (py_name module)).
  induction (py_members module) as [|e l IH]; intros module_name st Hst.
  - apply Hst.
  - simpl. apply IH. by apply gmm_step_distinct.
Qed.

(** C3, counterexample: module [m] defines class [A] and binds it again as
    [B]; the sanitized names differ, one block is rendered, and the
    descriptor holds no alias line [B = A]: the classifier drops the second
    name before rendering. *)
Lemma C3_duplicate_name_counterexample :
  let run := dump_module dup_heap 3 ["stubs"] false 1%positive (start ∅) in
  py_members (deref dup_heap 1%positive) = [("A", Got 2%positive); ("B", Got 2%positive)]
  ∧ String.eqb (_sanitize_name "B") (_sanitize_name "A") = false
  ∧ added_classes (stdout run.2) = [2%positive]
  ∧ file_lines (fs run.2) ["stubs"; "m"; "__init__.pyi"]
    = ["from typing import Any"; EmptyString; "class A:"; "    pass";
       EmptyString; EmptyString]
  ∧ existsb (String.eqb "B = A") (file_lines (fs run.2) ["stubs"; "m"; "__init__.pyi"])
    = false.
Proof. vm_compute. repeat split. Qed.

(** Across namespaces the alias line is not written either: the classifier
    of [pkg.sub] overwrites the name recorded for the class by [pkg], so the
    tree builder compares [Circle] with itself. *)
Example cross_namespace_alias_is_lost :
  let run := dump_module pkg_heap 3 ["stubs"] false 1%positive (start ∅) in
  added_classes (stdout run.2) = [3%positive]
  ∧ class_name_mapping (gen run.2) !! 3%positive = Some "Circle"
  ∧ In (SkipProcessed "Circle" "Circle") (stdout run.2)
  ∧ fs run.2 !! ["stubs"; "pkg"; "sub"; "__init__.pyi"] = Some (File preamble).
Proof. vm_compute. repeat split. auto 10. Qed.

(** C3, as amended: in a run from a new generator a class block is started
    at most once for each class object, and exactly once for each identity
    the tracker marks as rendered.  Within one namespace the classifier
    returns every class object under one name only, and a further name
    bound to the same object is placed in no category, so it yields no
    output: no block and no alias line. *)
Theorem C3_one_block_per_class (heap : gmap obj_id pyobj) :
  (∀ fuel output_dir remove_if_exists module f,
     let run := dump_module heap fuel output_dir remove_if_exists module (start f) in
     NoDup (added_classes (stdout run.2))
     ∧ ∀ i, In i (added_classes (stdout run.2)) ↔ i ∈ processed_class_objects (gen run.2))
  ∧ (∀ module mapping,
       NoDup (map snd (classes (gm_members (classify heap module mapping)))))
  ∧ (∀ module mapping l1 l2 name v,
       py_members module = l1 ++ (name, Got v) :: l2 →
       NoDup (map fst (py_members module)) →
       py_isclass (deref heap v) = true →
       existsb (bound_to v) l1 = true →
       placed (gm_members (classify heap module mapping)) name = []).
Proof.
  split; [|split].
  - intros fuel output_dir remove_if_exists module f run.
    destruct (tracked_run heap fuel output_dir remove_if_exists module f)
      as (Hnd & Hin & _). by split.
  - apply classify_distinct.
  - intros module mapping l1 l2 name v Hl Hnd Hc Hb.
    rewrite (placed_classify heap module mapping l1 l2 name (Got v) Hl Hnd).
    unfold category_of. rewrite Hc, Hb.
    destruct (startswith "_" name); [done|].
    by destruct (class_owned (default "unknown" (py_name module)) (deref heap v)).
Qed.

(** ** Termination of the traversal *)

Lemma string_prefix_length (p s : string) :
  String.prefix p s = true → String.length p ≤ String.length s.
Proof.
  revert s. induction p as [|c p IH]; intros s; [simpl; lia|].
  destruct s as [|c' s]; [done|]. simpl.
  destruct (ascii_dec c c'); [|done].
  intros H. apply IH in H. lia.
Qed.

Lemma string_append_length (a b : string) :
  String.length (a +:+ b) = String.length a + String.length b.
Proof. induction a as [|c a IH]; simpl; [done | by rewrite IH]. Qed.

(** A qualifying submodule has a longer name than the namespace. *)
Lemma qualifies_longer module_name name (attr : pyobj) (n : string) :
  py_name attr = Some n →
  submodule_qualifies module_name name attr = true →
  String.length module_name < String.length n.
Proof.
  unfold submodule_qualifies. intros ->. simpl.
  intros [[_ Hp]%andb_true_iff _]%andb_true_iff.
  apply string_prefix_length in Hp. rewrite string_append_length in Hp. simpl in Hp. lia.
Qed.

Lemma odict_set_Forall {V : Type} (P : string * V → Prop) (k : string) (v : V)
    (d : odict V) :
  P (k, v) → Forall P d → Forall P (odict_set k v d).
Proof.
  intros Hkv. induction 1 as [|[k' v'] d Hx Hd IH]; simpl.
  - by repeat constructor.
  - destruct (String.eqb_spec k' k) as [->|Hne]; constructor; done.
Qed.

Lemma gmm_step_submodules heap module_name st e :
  Forall (qualifying heap module_name) (submodules (gm_members st)) →
  Forall (qualifying heap module_name)
    (submodules (gm_members (gmm_step heap module_name st e))).
Proof.
  intros Hst. destruct e as [name a]. unfold gmm_step.
  destruct (startswith "_" name); [done|].
  destruct a as [v|e]; [|done].
  destruct (py_isclass (deref heap v)).
  { destruct (class_owned module_name (deref heap v)); [|done].
    by destruct (gm_seen st !! v). }
  destruct (py_ismodule (deref heap v)) eqn:Hm.
  { destruct (submodule_qualifies module_name name (deref heap v)) eqn:Hq; [|done].
    cbn [with_members gm_members submodules].
    apply odict_set_Forall; [by split | done]. }
  repeat match goal with
         | |- context [if ?b then _ else _] => destruct b
         end; done.
Qed.

Lemma classify_submodules heap module mapping :
  Forall (qualifying heap (namespace_name module))
    (submodules (gm_members (classify heap module mapping))).
Proof.
  unfold classify, namespace_name.
  set (st0 := {| gm_members := no_members; gm_seen := ∅;
                 gm_mapping := mapping; gm_out := [] |}).
  assert (H0 : Forall (qualifying heap (default "unknown" (py_name module)))
                 (submodules (gm_members st0))) by constructor.
  revert H0. generalize st0. generalize (default "unknown" (py_name module)).
  induction (py_members module) as [|e l IH]; intros module_name st Hst; [done|].
  simpl. apply IH. by apply gmm_step_submodules.
Qed.

Lemma dump_class_stub_finishes heap cls module_path :
  dump_class_stub heap cls module_path ≠ OutOfFuel.
Proof.
  unfold dump_class_stub. destruct (py_name cls); [|done].
  by rewrite class_member_loop.
Qed.

Lemma dump_function_stub_finishes func :
  dump_function_stub func ≠ OutOfFuel.
Proof.
  unfold dump_function_stub.
  destruct (py_name func); [|done]. by destruct (py_signature func).
Qed.

Lemma resolver_finishes obj : _get_type_annotation obj ≠ OutOfFuel.
Proof. by destruct (resolver_returns obj) as [s ->]. Qed.

Lemma mkdir_from_finishes pre rest f : (mkdir_from pre rest f).1 ≠ OutOfFuel.
Proof.
  revert pre f. induction rest as [|c rest IH]; intros pre f; simpl; [done|].
  destruct (f !! (pre ++ [c])) as [[]|]; [apply IH | done | apply IH].
Qed.

Lemma fs_write_finishes p data f : (fs_write p data f).1 ≠ OutOfFuel.
Proof.
  unfold fs_write. destruct (fs_lookup f (removelast p)) as [[]|]; try done.
  by destruct (fs_lookup f p) as [[]|].
Qed.

Lemma fs_rmtree_finishes p f : (fs_rmtree p f).1 ≠ OutOfFuel.
Proof.
  unfold fs_rmtree. destruct p; [done|]. by destruct (f !! _) as [[]|].
Qed.

Lemma finishes_classifier {B : Type} heap module (k : members → M B) :
  (∀ mapping, finishes (k (gm_members (classify heap module mapping)))) →
  finishes (bind (get_module_members heap module) k).
Proof. intros Hk w. rewrite bind_run. unfold get_module_members. apply Hk. Qed.

Ltac finishes_steps :=
  repeat first
    [ apply finishes_bind
    | apply finishes_try
    | apply finishes_ret
    | apply finishes_print
    | apply finishes_get_gen
    | apply finishes_put_gen
    | apply finishes_get_fs
    | apply finishes_forM_
    | apply finishes_lift; first [ apply dump_class_stub_finishes
                                  | apply dump_function_stub_finishes
                                  | apply resolver_finishes ]
    | apply finishes_on_fs; intro; first [ apply mkdir_from_finishes
                                          | apply fs_write_finishes
                                          | apply fs_rmtree_finishes ]
    | match goal with |- finishes (if ?b then _ else _) => destruct b end
    | match goal with |- finishes (let '(_, _) := ?x in _) => destruct x end
    | match goal with |- ∀ _, _ => intro end ].

Lemma finishes_class_step heap module_name init_content entry :
  finishes (class_step heap module_name init_content entry).
Proof. unfold class_step. finishes_steps. Qed.

Lemma finishes_function_step heap init_content entry :
  finishes (function_step heap init_content entry).
Proof. unfold function_step. finishes_steps. Qed.

Lemma finishes_variable_step heap init_content entry :
  finishes (variable_step heap init_content entry).
Proof. unfold variable_step. finishes_steps. Qed.

Lemma finishes_write_init module_dir init_content :
  finishes (write_init module_dir init_content).
Proof. unfold write_init. finishes_steps. Qed.

Lemma finishes_body heap rec module base_path module_name :
  (∀ entry b n, qualifying heap (namespace_name (deref heap module)) entry →
     finishes (rec entry.2 b n)) →
  finishes (create_module_structure_body heap rec module base_path module_name).
Proof.
  intros Hrec. unfold create_module_structure_body.
  apply finishes_bind; [apply finishes_get_gen|]. intros g.
  match goal with |- finishes (if ?b then _ else _) => destruct b end;
    [apply finishes_ret|].
  do 3 (apply finishes_bind; [finishes_steps|]; intros _).
  apply finishes_classifier. intros mapping.
  pose proof (classify_submodules heap (deref heap module) mapping) as Hsub.
  rewrite Forall_forall in Hsub.
  apply finishes_bind; [apply finishes_foldM; intros; apply finishes_class_step|].
  intros c1.
  apply finishes_bind; [apply finishes_foldM; intros; apply finishes_function_step|].
  intros c2.
  apply finishes_bind; [apply finishes_foldM; intros; apply finishes_variable_step|].
  intros c3.
  apply finishes_bind; [|intros; apply finishes_write_init].
  apply finishes_foldM. intros b [sub v] Hin.
  unfold submodule_step. finishes_steps.
  apply (Hrec (sub, v)). apply Hsub. by apply list_elem_of_In.
Qed.

Lemma finishes_tree heap bound :
  modules_named heap bound →
  ∀ fuel module base_path module_name,
    1 ≤ fuel →
    bound < fuel + String.length (namespace_name (deref heap module)) →
    finishes (create_module_structure heap fuel module base_path module_name).
Proof.
  intros Hnamed. induction fuel as [|fuel IH];
    intros module base_path module_name Hpos Hfuel; [lia|].
  simpl. apply finishes_body. intros [sub v] b mn [Hm Hq]. cbn [fst snd] in *.
  assert (∃ o, heap !! v = Some o ∧ deref heap v = o) as (o & Ho & Hd).
  { unfold deref in *. destruct (heap !! v) as [o|]; [by exists o | done]. }
  rewrite Hd in *.
  destruct (Hnamed v o Ho Hm) as (name & Hname & Hlen).
  pose proof (qualifies_longer _ _ _ _ Hname Hq) as Hlonger.
  apply IH.
  - lia.
  - unfold namespace_name at 1. rewrite Hd, Hname. simpl. lia.
Qed.

Lemma finishes_driver heap bound fuel output_dir remove_if_exists module :
  modules_named heap bound → bound < fuel →
  finishes (dump_module heap fuel output_dir remove_if_exists module).
Proof.
  intros Hnamed Hfuel. unfold dump_module, dump_module_with, prepare_output, generate_and_report, generate_and_report_with.
  finishes_steps. apply (finishes_tree heap bound Hnamed); lia.
Qed.

(** Re-entering the tree builder with a visited key changes nothing. *)
Lemma revisit_is_noop heap fuel module base_path module_name (w : world) :
  path_str base_path +:+ "/" +:+
    match module_name with
    | Some n => n
    | None => namespace_name (deref heap module)
    end ∈ processed_modules (gen w) →
  create_module_structure heap (S fuel) module base_path module_name w = (Ret tt, w).
Proof.
  intros Hin. simpl. unfold create_module_structure_body, namespace_name in *.
  rewrite bind_run. cbn [get_gen].
  match goal with |- context [decide (?k ∈ ?s)] => destruct (decide (k ∈ s)) end;
    [reflexivity | contradiction].
Qed.

Lemma demo_heap_named : modules_named demo_heap 10.
Proof.
  intros v o Hv Hm. unfold demo_heap in Hv.
  apply lookup_insert_Some in Hv as [[<- <-]|[_ Hv]].
  { exists "demo". split; [reflexivity | simpl; lia]. }
  apply lookup_insert_Some in Hv as [[<- <-]|[_ Hv]].
  { exists "demo.utils". split; [reflexivity | simpl; lia]. }
  by rewrite lookup_empty in Hv.
Qed.

(** C4: when the module objects of the store carry names of length at most
    [bound], a run with a recursion budget above [bound] never exhausts
    it, whatever cycles or repeated references the store holds; the keys of
    the namespaces entered are pairwise distinct and are exactly the keys
    marked as processed; and a call of the tree builder on a key already
    marked returns at once, leaving generator, file system and console
    untouched. *)
Theorem C4_traversal_terminates (heap : gmap obj_id pyobj) (bound : nat) :
  modules_named heap bound →
  (∀ fuel module base_path module_name w,
     path_str base_path +:+ "/" +:+
       match module_name with
       | Some n => n
       | None => namespace_name (deref heap module)
       end ∈ processed_modules (gen w) →
     create_module_structure heap (S fuel) module base_path module_name w = (Ret tt, w))
  ∧ (∀ fuel output_dir remove_if_exists module f,
       bound < fuel →
       let run := dump_module heap fuel output_dir remove_if_exists module (start f) in
       run.1 ≠ OutOfFuel
       ∧ NoDup (entered (stdout run.2))
       ∧ ∀ k, In k (entered (stdout run.2)) ↔ k ∈ processed_modules (gen run.2)).
Proof.
  intros Hnamed. split.
  - intros. by apply revisit_is_noop.
  - intros fuel output_dir remove_if_exists module f Hfuel run.
    split; [by apply (finishes_driver heap bound)|].
    destruct (tracked_run heap fuel output_dir remove_if_exists module f)
      as (_ & _ & Hnd & Hin). by split.
Qed.

(** The run on [demo], whose submodule imports its parent back. *)
Lemma C4_traversal_terminates_witness :
  let run := dump_module demo_heap 11 ["stubs"] true 1%positive (start ∅) in
  run.1 ≠ OutOfFuel ∧ NoDup (entered (stdout run.2)).
Proof.
  destruct (C4_traversal_terminates demo_heap 10 demo_heap_named) as [_ H].
  destruct (H 11 ["stubs"] true 1%positive ∅) as (H1 & H2 & _); [lia|].
  split; [exact H1 | exact H2].
Defined.

(** ** File-system operations *)

(** Creating directories only fills in missing entries on the way. *)
Lemma mkdir_from_changes (pre rest : path) (f : gmap (list string) node) r Y :
  mkdir_from pre rest f = (r, Y) →
  ∀ k, Y !! k = f !! k
       ∨ (k ≠ [] ∧ k `prefix_of` pre ++ rest ∧ f !! k = None ∧ Y !! k = Some Dir).
Proof.
  revert pre f. induction rest as [|c rest IH]; intros pre f Hm k; simpl in Hm.
  - simplify_eq. by left.
  - replace (pre ++ c :: rest) with ((pre ++ [c]) ++ rest) by by rewrite <- app_assoc.
    destruct (f !! (pre ++ [c])) as [[|content]|] eqn:Hq.
    + by apply (IH _ _ Hm).
    + simplify_eq. by left.
    + destruct (IH _ _ Hm k) as [Hk|(Hne & Hp & Hnone & Hdir)].
      * destruct (decide (k = pre ++ [c])) as [->|Hneq].
        -- right. rewrite lookup_insert_eq in Hk.
           split; [by destruct pre|]. split; [by apply prefix_app_r|]. done.
        -- left. by rewrite lookup_insert_ne in Hk.
      * right. destruct (decide (k = pre ++ [c])) as [->|Hneq].
        -- by rewrite lookup_insert_eq in Hnone.
        -- by rewrite lookup_insert_ne in Hnone.
Qed.

Lemma mkdir_from_keeps_dirs (pre rest : path) (f : gmap (list string) node) r Y k :
  mkdir_from pre rest f = (r, Y) → f !! k = Some Dir → Y !! k = Some Dir.
Proof.
  intros Hm Hk. destruct (mkdir_from_changes _ _ _ _ _ Hm k) as [->|(_ & _ & ? & _)];
    [done | congruence].
Qed.

(** After a successful creation every directory on the way exists. *)
Lemma mkdir_from_dirs (pre rest : path) (f : gmap (list string) node) Y :
  mkdir_from pre rest f = (Ret tt, Y) →
  ∀ q, q `prefix_of` pre ++ rest → length pre < length q → Y !! q = Some Dir.
Proof.
  revert pre f. induction rest as [|c rest IH]; intros pre f Hm q Hq Hlen; simpl in Hm.
  - rewrite app_nil_r in Hq. apply prefix_length in Hq. lia.
  - assert (Hp : (pre ++ [c]) `prefix_of` pre ++ c :: rest).
    { exists rest. by rewrite <- app_assoc. }
    assert (Hcase : q = pre ++ [c] ∨ length (pre ++ [c]) < length q).
    { destruct (decide (length q = length (pre ++ [c]))) as [Heq|Hne].
      - left. destruct (prefix_weak_total _ _ _ Hq Hp) as [H|H].
        + apply prefix_length_eq; [done|lia].
        + symmetry. apply prefix_length_eq; [done|lia].
      - right. rewrite length_app in *. simpl in *. lia. }
    replace (pre ++ c :: rest) with ((pre ++ [c]) ++ rest) in Hq
      by by rewrite <- app_assoc.
    destruct (f !! (pre ++ [c])) as [[|content]|] eqn:Hf; [| done |].
    + destruct Hcase as [->|Hlonger]; [|by apply (IH _ _ Hm)].
      by apply (mkdir_from_keeps_dirs _ _ _ _ _ _ Hm).
    + destruct Hcase as [->|Hlonger]; [|by apply (IH _ _ Hm)].
      apply (mkdir_from_keeps_dirs _ _ _ _ _ _ Hm). apply lookup_insert_eq.
Qed.

(** With every directory on the way in place, only the last one is made. *)
Lemma mkdir_from_last (pre rest : path) (g : gmap (list string) node) :
  rest ≠ [] →
  (∀ q, q `prefix_of` pre ++ rest → length pre < length q →
        length q < length (pre ++ rest) → g !! q = Some Dir) →
  g !! (pre ++ rest) = None →
  mkdir_from pre rest g = (Ret tt, <[pre ++ rest := Dir]> g).
Proof.
  revert pre. induction rest as [|c rest IH]; intros pre Hne Hdirs Hnone; [done|].
  simpl. destruct rest as [|c' rest].
  - rewrite Hnone. reflexivity.
  - rewrite (Hdirs (pre ++ [c])).
    + replace (pre ++ c :: c' :: rest) with ((pre ++ [c]) ++ c' :: rest) in *
        by by rewrite <- app_assoc.
      apply IH; [done| |done].
      intros q Hq H1 H2. apply Hdirs; [done| |done].
      rewrite length_app in H1. simpl in H1. lia.
    + exists (c' :: rest). by rewrite <- app_assoc.
    + rewrite length_app. simpl. lia.
    + rewrite !length_app. simpl. lia.
Qed.

(** Below a missing entry nothing can be in the way. *)
Lemma mkdir_from_fresh (pre rest : path) (g : gmap (list string) node) :
  (∀ k, pre `prefix_of` k → k ≠ pre → g !! k = None) →
  (mkdir_from pre rest g).1 = Ret tt.
Proof.
  revert pre g. induction rest as [|c rest IH]; intros pre g Hfree; [done|].
  simpl. rewrite Hfree.
  - apply IH. intros k Hk Hne. rewrite lookup_insert_ne by done.
    apply Hfree; [by eapply prefix_app_l|].
    intros ->. by eapply prefix_snoc_not.
  - by apply prefix_app_r.
  - intros H. apply (f_equal length) in H. rewrite length_app in H. simpl in H. lia.
Qed.

(** In a well-formed file system a failed creation changes nothing. *)
Lemma mkdir_from_raise (pre rest : path) (f : gmap (list string) node) e Y :
  fs_wf f → mkdir_from pre rest f = (Raise e, Y) → Y = f.
Proof.
  intros Hwf. revert pre. induction rest as [|c rest IH]; intros pre Hm; simpl in Hm;
    [done|].
  destruct (f !! (pre ++ [c])) as [[|content]|] eqn:Hq.
  - by apply (IH _ Hm).
  - by simplify_eq.
  - exfalso.
    assert (Hfree : ∀ k, (pre ++ [c]) `prefix_of` k → k ≠ pre ++ [c] →
                         <[pre ++ [c] := Dir]> f !! k = None).
    { intros k Hk Hne. rewrite lookup_insert_ne by done.
      destruct (f !! k) as [n|] eqn:Hfk; [|done].
      rewrite (Hwf k (pre ++ [c]) n Hfk Hk) in Hq; [done|done|by destruct pre]. }
    pose proof (mkdir_from_fresh _ rest _ Hfree) as Hok.
    rewrite Hm in Hok. done.
Qed.

(** ** The traversal writes below its base path only *)

Lemma grows_under_refl (base : path) (w : world) : grows_under base w w.
Proof. split; [by left | done]. Qed.

Lemma grows_under_trans (base : path) (w1 w2 w3 : world) :
  grows_under base w1 w2 → grows_under base w2 w3 → grows_under base w1 w3.
Proof.
  intros [H12 D12] [H23 D23]. split; [|by auto].
  intros k. destruct (H12 k) as [E12|[?|(Hne & Hp & Hn & Hd)]]; [|by right; left|].
  - destruct (H23 k) as [E23|[?|(Hne & Hp & Hn & Hd)]]; [|by right; left|].
    + left. congruence.
    + right. right. rewrite <- E12. done.
  - right. right. repeat split; try done. by apply D23.
Qed.

(** A deeper base path is a stronger promise. *)
Lemma grows_under_deeper (base base' : path) (w w' : world) :
  base `prefix_of` base' → grows_under base' w w' → grows_under base w w'.
Proof.
  intros Hb [H D]. split; [|done].
  intros k. destruct (H k) as [?|[Hk|(Hne & Hp & Hn & Hd)]]; [by left| |].
  - right. left. by etrans.
  - destruct (prefix_weak_total _ _ _ Hb Hp) as [?|?].
    + right. by left.
    + right. by right.
Qed.

Lemma grows_under_same_fs (base : path) (w w' : world) :
  fs w' = fs w → grows_under base w w'.
Proof. intros Hfs. split; intros k; rewrite Hfs; [by left | done]. Qed.

Lemma keeps_grows_print base (e : event) : keeps (grows_under base) (print e).
Proof. intros w. by apply grows_under_same_fs. Qed.

Lemma keeps_grows_put_gen base (g : generator) : keeps (grows_under base) (put_gen g).
Proof. intros w. by apply grows_under_same_fs. Qed.

Lemma keeps_grows_classifier base heap module :
  keeps (grows_under base) (get_module_members heap module).
Proof. intros w. by apply grows_under_same_fs. Qed.

Lemma keeps_grows_mkdir base (p : path) :
  base `prefix_of` p → keeps (grows_under base) (on_fs (fs_mkdir p)).
Proof.
  intros Hb w. unfold on_fs, fs_mkdir.
  destruct (mkdir_from [] p (fs w)) as [r Y] eqn:Hm. cbn [snd fs].
  split.
  - intros k. destruct (mkdir_from_changes _ _ _ _ _ Hm k)
      as [?|(Hne & Hp & Hn & Hd)]; [by left|]. simpl in Hp.
    destruct (prefix_weak_total _ _ _ Hb Hp) as [?|?].
    + right. by left.
    + right. by right.
  - intros k. by apply (mkdir_from_keeps_dirs _ _ _ _ _ _ Hm).
Qed.

Lemma grows_under_insert base (w : world) (g : generator) (out : list event)
    (p : path) (n : node) :
  base `prefix_of` p → fs w !! p ≠ Some Dir →
  grows_under base w {| gen := g; fs := <[p := n]> (fs w); stdout := out |}.
Proof.
  intros Hb Hp. split; cbn [fs].
  - intros k. destruct (decide (k = p)) as [->|Hne]; [right; by left|].
    left. by rewrite lookup_insert_ne.
  - intros k Hk. destruct (decide (k = p)) as [->|Hne]; [done|].
    by rewrite lookup_insert_ne.
Qed.

Lemma keeps_grows_write base (p : path) (data : string) :
  base `prefix_of` p → keeps (grows_under base) (on_fs (fs_write p data)).
Proof.
  intros Hb w. unfold on_fs, fs_write.
  destruct (fs_lookup (fs w) (removelast p)) as [[|c]|];
    try (by apply grows_under_same_fs).
  destruct (fs_lookup (fs w) p) as [[|c]|] eqn:Hp;
    try (by apply grows_under_same_fs).
  - apply grows_under_insert; [done|]. destruct p; simpl in Hp; congruence.
  - apply grows_under_insert; [done|]. destruct p; simpl in Hp; congruence.
Qed.

Lemma path_join_prefix (base : path) (name : string) :
  base `prefix_of` path_join base name.
Proof. unfold path_join. by apply prefix_app_r. Qed.

Ltac keeps_grows_steps base :=
  repeat first
    [ apply (keeps_bind (grows_under base) (grows_under_trans base))
    | apply (keeps_try (grows_under base) (grows_under_trans base))
    | apply (keeps_foldM (grows_under base) (grows_under_refl base)
               (grows_under_trans base))
    | apply (keeps_forM_ (grows_under base) (grows_under_refl base)
               (grows_under_trans base))
    | apply (keeps_ret (grows_under base) (grows_under_refl base))
    | apply (keeps_lift (grows_under base) (grows_under_refl base))
    | apply (keeps_get_gen (grows_under base) (grows_under_refl base))
    | apply (keeps_get_fs (grows_under base) (grows_under_refl base))
    | apply keeps_grows_print
    | apply keeps_grows_put_gen
    | apply keeps_grows_classifier
    | match goal with |- keeps _ (if ?b then _ else _) => destruct b end
    | match goal with |- keeps _ (let '(_, _) := ?x in _) => destruct x end
    | lazymatch goal with
      | |- keeps _ _ => fail
      | |- ∀ _, _ => intro
      end ].

Lemma keeps_grows_body heap rec module base_path module_name :
  (∀ m b n, keeps (grows_under b) (rec m b n)) →
  keeps (grows_under base_path)
    (create_module_structure_body heap rec module base_path module_name).
Proof.
  intros Hrec.
  unfold create_module_structure_body, class_step, function_step, variable_step,
    submodule_step, write_init.
  keeps_grows_steps base_path.
  - apply keeps_grows_mkdir, path_join_prefix.
  - intros w. eapply grows_under_deeper; [|apply Hrec]. apply path_join_prefix.
  - apply keeps_grows_write. apply prefix_app_r, path_join_prefix.
Qed.

Lemma keeps_grows_tree heap fuel module base_path module_name :
  keeps (grows_under base_path)
    (create_module_structure heap fuel module base_path module_name).
Proof.
  revert module base_path module_name.
  induction fuel as [|fuel IH]; intros module base_path module_name.
  - intros w. apply grows_under_refl.
  - simpl. by apply keeps_grows_body.
Qed.

Lemma keeps_grows_generate heap fuel output_dir module :
  keeps (grows_under output_dir)
    (try_except (generate_and_report heap fuel output_dir module)
       (λ e, print (ErrorDuring (exn_msg e)) ;;; print (Traceback e))).
Proof.
  unfold generate_and_report, generate_and_report_with. keeps_grows_steps output_dir.
  apply keeps_grows_tree.
Qed.

(** ** Preparing the output root *)

Lemma prepare_output_run (output_dir : path) (w : world) :
  prepare_output output_dir true w =
    let '(r, f') := prepare_fs output_dir (fs w) in
    (r, {| gen := gen w; fs := f'; stdout := stdout w |}).
Proof.
  unfold prepare_output, prepare_fs. rewrite bind_run. cbn [get_fs].
  rewrite bind_run, andb_true_r.
  destruct (fs_exists (fs w) output_dir).
  - unfold on_fs at 1.
    destruct (fs_rmtree output_dir (fs w)) as [[[]|e|] f1]; try reflexivity.
  - unfold ret. unfold on_fs. by destruct (fs_mkdir output_dir (fs w)).
Qed.

Lemma rmtree_lookup_outside (p k : path) (f : gmap (list string) node) :
  ¬ p `prefix_of` k →
  filter (λ kv : list string * node, ¬ p `prefix_of` kv.1) f !! k = f !! k.
Proof.
  intros Hk. destruct (f !! k) as [n|] eqn:Hf.
  - by apply map_lookup_filter_Some_2.
  - apply map_lookup_filter_None_2. by left.
Qed.

Lemma rmtree_lookup_inside (p k : path) (f : gmap (list string) node) :
  p `prefix_of` k →
  filter (λ kv : list string * node, ¬ p `prefix_of` kv.1) f !! k = None.
Proof.
  intros Hk. apply map_lookup_filter_None_2. right. intros x _ Hn. by apply Hn.
Qed.

Lemma prefix_antisym (p k : path) : p `prefix_of` k → k `prefix_of` p → k = p.
Proof.
  intros H1 H2. apply prefix_length_eq; [done|]. by apply prefix_length.
Qed.

Lemma mkdir_prepared (p : path) (X Y : gmap (list string) node) :
  p ≠ [] →
  (∀ k, p `prefix_of` k → k ≠ p → X !! k = None) →
  mkdir_from [] p X = (Ret tt, Y) → prepared p Y.
Proof.
  intros Hne Hfree Hm. split; [done|]. split.
  - intros q Hq Hp. apply (mkdir_from_dirs _ _ _ _ Hm); [done|].
    destruct q; [done | simpl; lia].
  - intros k Hk Hkp.
    destruct (mkdir_from_changes _ _ _ _ _ Hm k) as [->|(_ & Hpk & _)].
    + by apply Hfree.
    + simpl in Hpk. by destruct Hkp; apply prefix_antisym.
Qed.

Lemma prepare_fs_ok (output_dir : path) (f Y : gmap (list string) node) :
  fs_wf f → prepare_fs output_dir f = (Ret tt, Y) → prepared output_dir Y.
Proof.
  intros Hwf. unfold prepare_fs, fs_exists, fs_rmtree, fs_mkdir.
  destruct output_dir as [|c p]; [simpl; done|]. cbn [fs_lookup].
  destruct (f !! (c :: p)) as [[|content]|] eqn:Hp; [| simpl; done |].
  - apply mkdir_prepared; [done|]. intros k Hk _. by apply rmtree_lookup_inside.
  - apply mkdir_prepared; [done|]. intros k Hk Hne.
    destruct (f !! k) as [n|] eqn:Hf; [|done].
    rewrite (Hwf k (c :: p) n Hf Hk) in Hp; done.
Qed.

Lemma prepare_fs_again (output_dir : path) (Y f1 : gmap (list string) node) :
  prepared output_dir Y →
  (∀ k, f1 !! k = Y !! k ∨ output_dir `prefix_of` k) →
  (∀ k, Y !! k = Some Dir → f1 !! k = Some Dir) →
  prepare_fs output_dir f1 = (Ret tt, Y).
Proof.
  intros (Hne & Hdirs & Hfree) Hframe Hkept.
  assert (Hroot : f1 !! output_dir = Some Dir) by by apply Hkept, Hdirs.
  unfold prepare_fs, fs_exists, fs_rmtree, fs_mkdir.
  destruct output_dir as [|c p]; [done|]. cbn [fs_lookup]. rewrite Hroot.
  set (out := c :: p) in *.
  set (X := filter (λ kv : list string * node, ¬ out `prefix_of` kv.1) f1).
  rewrite (mkdir_from_last [] out X); [|done| |].
  - f_equal. apply map_eq. intros k.
    destruct (decide (k = out)) as [->|Hk].
    + rewrite lookup_insert_eq. symmetry. by apply Hdirs.
    + rewrite lookup_insert_ne by done.
      destruct (decide (out `prefix_of` k)) as [Hin|Hout].
      * unfold X. rewrite rmtree_lookup_inside by done. symmetry. by apply Hfree.
      * unfold X. rewrite rmtree_lookup_outside by done.
        by destruct (Hframe k).
  - intros q Hq H1 H2. simpl in *. unfold X.
    rewrite rmtree_lookup_outside.
    + apply Hkept, Hdirs; [|done]. destruct q; [simpl in H1; lia | done].
    + intros Hoq. apply prefix_length in Hoq. unfold out in *. simpl in *. lia.
  - simpl. by apply rmtree_lookup_inside.
Qed.

Lemma prepare_fs_raise (output_dir : path) (f Y : gmap (list string) node) (e : raised) :
  fs_wf f → prepare_fs output_dir f = (Raise e, Y) →
  prepare_fs output_dir Y = (Raise e, Y).
Proof.
  intros Hwf Hp.
  destruct output_dir as [|c p].
  { unfold prepare_fs in *. simpl in *. by simplify_eq. }
  enough (Y = f) as -> by done.
  revert Hp. unfold prepare_fs, fs_exists, fs_rmtree, fs_mkdir. cbn [fs_lookup].
  destruct (f !! (c :: p)) as [[|content]|] eqn:Hroot.
  - set (out := c :: p) in *.
    set (X := filter (λ kv : list string * node, ¬ out `prefix_of` kv.1) f).
    rewrite (mkdir_from_last [] out X); [done|done| |].
    + intros q Hq H1 H2. simpl in *. unfold X. rewrite rmtree_lookup_outside.
      * apply (Hwf out q Dir Hroot Hq).
        -- intros ->. unfold out in *. simpl in *. lia.
        -- destruct q; [simpl in H1; lia | done].
      * intros Hoq. apply prefix_length in Hoq. unfold out in *. simpl in *. lia.
    + simpl. by apply rmtree_lookup_inside.
  - intros. by simplify_eq.
  - by apply mkdir_from_raise.
Qed.

Lemma prepare_fs_finishes (output_dir : path) (f : gmap (list string) node) :
  (prepare_fs output_dir f).1 ≠ OutOfFuel.
Proof.
  unfold prepare_fs. destruct (fs_exists f output_dir).
  - pose proof (fs_rmtree_finishes output_dir f).
    destruct (fs_rmtree output_dir f) as [[[]|e|] f1]; try done.
    apply mkdir_from_finishes.
  - apply mkdir_from_finishes.
Qed.

(** A run that clears existing output, from a new generator. *)
Lemma clearing_run (heap : gmap obj_id pyobj) (fuel : nat) (output_dir : path)
    (module : obj_id) (f : gmap (list string) node) :
  dump_module heap fuel output_dir true module (start f) =
    let module_name := default (py_str (deref heap module)) (py_name (deref heap module)) in
    match prepare_fs output_dir f with
    | (Ret _, Y) =>
        try_except (generate_and_report heap fuel output_dir module)
          (λ e, print (ErrorDuring (exn_msg e)) ;;; print (Traceback e))
          {| gen := new_generator; fs := Y; stdout := [Starting module_name] |}
    | (Raise e, Y) =>
        (Raise e, {| gen := new_generator; fs := Y; stdout := [Starting module_name] |})
    | (OutOfFuel, Y) =>
        (OutOfFuel, {| gen := new_generator; fs := Y; stdout := [Starting module_name] |})
    end.
Proof.
  unfold dump_module, dump_module_with. rewrite bind_run. cbn [print start gen fs stdout app].
  rewrite bind_run, prepare_output_run. cbn [gen fs stdout].
  by destruct (prepare_fs output_dir f) as [[[]|e|] Y].
Qed.

(** C9: a run that clears existing output, started with a new generator on
    a well-formed file system, leaves a file system on which an identical
    second run ends in the same way with the same file system: the same
    files with the same contents, and the same console output. *)
Theorem C9_rerun_is_identical (heap : gmap obj_id pyobj) (fuel : nat)
    (output_dir : path) (module : obj_id) (f : gmap (list string) node) :
  fs_wf f →
  let first := dump_module heap fuel output_dir true module (start f) in
  dump_module heap fuel output_dir true module (start (fs first.2)) = first.
Proof.
  intros Hwf first. subst first. rewrite !clearing_run. cbv zeta.
  set (w0 Y := {| gen := new_generator; fs := Y;
                  stdout := [Starting (default (py_str (deref heap module))
                                               (py_name (deref heap module)))] |}).
  pose proof (prepare_fs_finishes output_dir f) as Hfin.
  destruct (prepare_fs output_dir f) as [[[]|e|] Y] eqn:Hprep; [| |done].
  - pose proof (prepare_fs_ok _ _ _ Hwf Hprep) as Hok.
    pose proof (keeps_grows_generate heap fuel output_dir module (w0 Y)) as [Hframe Hkept].
    fold (w0 Y).
    set (rest := try_except (generate_and_report heap fuel output_dir module)
                   (λ e, print (ErrorDuring (exn_msg e)) ;;; print (Traceback e))) in *.
    rewrite (prepare_fs_again output_dir Y (fs (rest (w0 Y)).2) Hok); [done| |].
    + intros k. destruct (Hframe k) as [?|[?|(Hne & Hp & Hnone & _)]];
        [by left | by right |].
      destruct Hok as (_ & Hdirs & _). cbn [w0 fs] in Hnone.
      rewrite (Hdirs k Hne Hp) in Hnone. done.
    + intros k Hk. by apply Hkept.
  - cbn [snd fs]. by rewrite (prepare_fs_raise _ _ _ _ Hwf Hprep).
Qed.

Lemma stale_fs_wf : fs_wf stale_fs.
Proof.
  intros p q n Hp Hq Hne Hnil. unfold stale_fs in *.
  apply lookup_insert_Some in Hp as [[<- <-]|[_ Hp]].
  { destruct Hq as [k Hk]. destruct q as [|c [|c' q]]; simplify_eq/=; done. }
  apply lookup_insert_Some in Hp as [[<- <-]|[_ Hp]]; [|by rewrite lookup_empty in Hp].
  destruct Hq as [k Hk]. destruct q as [|c [|c' [|c'' q]]]; simplify_eq/=; done.
Qed.

(** Two runs on [demo] over an output root left by an earlier run. *)
Lemma C9_rerun_is_identical_witness :
  let first := dump_module demo_heap 3 ["stubs"] true 1%positive (start stale_fs) in
  first.1 = Ret tt
  ∧ fs first.2 !! ["stubs"; "old.pyi"] = None
  ∧ dump_module demo_heap 3 ["stubs"] true 1%positive (start (fs first.2)) = first.
Proof.
  split; [by vm_compute|]. split; [by vm_compute|].
  apply (C9_rerun_is_identical demo_heap 3 ["stubs"] 1%positive stale_fs stale_fs_wf).
Defined.

(** * Further properties of the code *)

(** ** Text *)

Lemma string_prefix_refl (s : string) : String.prefix s s = true.
Proof.
  induction s as [|c s IH]; simpl; [done|].
  destruct (ascii_dec c c); [exact IH | done].
Qed.

Lemma string_prefix_app (p s t : string) :
  String.prefix p s = true → String.prefix p (s +:+ t) = true.
Proof.
  revert s. induction p as [|c p IH]; intros s; [by destruct (s +:+ t)|].
  destruct s as [|c' s]; [done|].
  change (String c' s +:+ t) with (String c' (s +:+ t)). simpl.
  destruct (ascii_dec c c'); [apply IH | done].
Qed.

Lemma string_prefix_trans (a b c : string) :
  String.prefix a b = true → String.prefix b c = true → String.prefix a c = true.
Proof.
  revert b c. induction a as [|x a IH]; intros b c; [by destruct c|].
  destruct b as [|y b]; [done|]. destruct c as [|z c]; [done|]. simpl.
  destruct (ascii_dec x y) as [->|]; [|done].
  destruct (ascii_dec y z) as [->|]; [|done].
  apply IH.
Qed.

Lemma string_app_assoc (a b c : string) : (a +:+ b) +:+ c = a +:+ (b +:+ c).
Proof.
  induction a as [|x a IH]; [done|].
  change (String x ((a +:+ b) +:+ c) = String x (a +:+ (b +:+ c))). by rewrite IH.
Qed.

(** ** Namespaces under an internal prefix *)

Lemma internal_extends (module_name name : string) :
  _is_internal_module module_name = true →
  startswith module_name name = true →
  _is_internal_module name = true.
Proof.
  unfold _is_internal_module. rewrite !existsb_exists.
  intros (p & Hin & Hp) Hn. exists p. split; [done|].
  unfold startswith in *. by eapply string_prefix_trans.
Qed.

Lemma internal_never_qualifies (module_name name : string) (attr : pyobj) :
  _is_internal_module module_name = true →
  submodule_qualifies module_name name attr = false.
Proof.
  intros Hint. unfold submodule_qualifies.
  destruct (startswith (module_name +:+ ".") (default name (py_name attr))) eqn:Hp;
    [|by rewrite andb_false_r].
  rewrite (internal_extends module_name); [by rewrite andb_false_r|done|].
  unfold startswith in *. eapply string_prefix_trans; [|exact Hp].
  apply string_prefix_app, string_prefix_refl.
Qed.

(** X1: a namespace whose name starts with one of the listed internal prefixes
    (for instance [osgeo], [system], [typing_extensions]) gets no submodule
    member: the names of its submodules extend its own name, so the
    denylist rejects them all. *)
Theorem internal_namespace_has_no_submodules (heap : gmap obj_id pyobj)
    (module : pyobj) (mapping : gmap obj_id string) :
  _is_internal_module (namespace_name module) = true →
  submodules (gm_members (classify heap module mapping)) = [].
Proof.
  intros Hint.
  pose proof (classify_submodules heap module mapping) as Hq.
  destruct (submodules (gm_members (classify heap module mapping))) as [|[n v] l];
    [done|].
  apply Forall_cons in Hq as [[_ Hq] _]. cbn [fst snd] in Hq.
  by rewrite internal_never_qualifies in Hq.
Qed.

Lemma internal_namespace_has_no_submodules_witness :
  py_members (deref osgeo_heap 1%positive) = [("gdal", Got 2%positive)]
  ∧ submodules (gm_members (classify osgeo_heap (deref osgeo_heap 1%positive) ∅)) = [].
Proof.
  split; [reflexivity|].
  apply (internal_namespace_has_no_submodules osgeo_heap (deref osgeo_heap 1%positive) ∅).
  reflexivity.
Defined.

(** ** Where placed names come from *)

Lemma in_holds {V : Type} (name : string) (d : odict V) (c c' : category) (v : V) :
  In (c', v) (holds name d c) → c' = c ∧ odict_get name d = Some v.
Proof.
  unfold holds. destruct (odict_get name d); simpl; [|done].
  intros [[= <- <-]|[]]. done.
Qed.

Lemma in_placed (m : members) (name : string) (c : category) (v : obj_id) :
  In (c, v) (placed m name) ↔
  odict_get name
    match c with
    | CClass => classes m
    | CFunction => functions m
    | CSubmodule => submodules m
    | CVariable => variables m
    end = Some v.
Proof.
  unfold placed. rewrite !in_app_iff. split; [|unfold holds].
  - intros [H|[H|[H|H]]]; apply in_holds in H as [-> H]; done.
  - intros H. destruct c; rewrite H; simpl; tauto.
Qed.

Lemma placed_from_weaken heap module_name (l l' : list (string * access)) (m : members) :
  (∀ e, In e l → In e l') →
  placed_from heap module_name l m → placed_from heap module_name l' m.
Proof.
  intros Hsub H name c v Hin. destruct (H name c v Hin) as (? & ? & ?). eauto.
Qed.

Lemma gmm_step_placed_from heap module_name (l : list (string * access))
    (st : gmm_state) (e : string * access) :
  placed_from heap module_name l (gm_members st) →
  placed_from heap module_name (l ++ [e]) (gm_members (gmm_step heap module_name st e)).
Proof.
  intros Hst.
  assert (Hold : placed_from heap module_name (l ++ [e]) (gm_members st)).
  { eapply placed_from_weaken; [|exact Hst]. intros x Hx. apply in_app_iff. by left. }
  destruct e as [name a]. unfold gmm_step.
  destruct (startswith "_" name) eqn:Hp; [done|].
  destruct a as [v|ex]; [|done].
  assert (Hnew : In (name, Got v) (l ++ [(name, Got v)])).
  { apply in_app_iff. right. by left. }
  destruct (py_isclass (deref heap v)) eqn:Hc.
  { destruct (class_owned module_name (deref heap v)) eqn:Ho; [|done].
    destruct (gm_seen st !! v); [done|].
    cbn [gm_members]. rewrite chosen_name_candidate.
    intros n c x Hin. apply in_placed in Hin.
    destruct c; cbn [classes functions submodules variables] in Hin;
      try (apply Hold, in_placed; exact Hin).
    rewrite odict_get_set in Hin. destruct (String.eqb_spec name n) as [<-|Hne].
    - simplify_eq. split; [done|]. split; [done|].
      unfold category_of. by rewrite Hc, Ho.
    - apply Hold, in_placed. exact Hin. }
  destruct (py_ismodule (deref heap v)) eqn:Hm.
  { destruct (submodule_qualifies module_name name (deref heap v)) eqn:Hq; [|done].
    cbn [with_members gm_members].
    intros n c x Hin. apply in_placed in Hin.
    destruct c; cbn [classes functions submodules variables] in Hin;
      try (apply Hold, in_placed; exact Hin).
    rewrite odict_get_set in Hin. destruct (String.eqb_spec name n) as [<-|Hne].
    - simplify_eq. split; [done|]. split; [done|].
      unfold category_of. by rewrite Hc, Hm, Hq.
    - apply Hold, in_placed. exact Hin. }
  cbn [negb]. rewrite andb_true_r.
  destruct (py_callable (deref heap v)) eqn:Hcall.
  { destruct (function_owned module_name (deref heap v)) eqn:Ho; [|done].
    cbn [with_members gm_members].
    intros n c x Hin. apply in_placed in Hin.
    destruct c; cbn [classes functions submodules variables] in Hin;
      try (apply Hold, in_placed; exact Hin).
    rewrite odict_get_set in Hin. destruct (String.eqb_spec name n) as [<-|Hne].
    - simplify_eq. split; [done|]. split; [done|].
      unfold category_of. by rewrite Hc, Hm, Hcall, Ho.
    - apply Hold, in_placed. exact Hin. }
  cbn [with_members gm_members].
  intros n c x Hin. apply in_placed in Hin.
  destruct c; cbn [classes functions submodules variables] in Hin;
    try (apply Hold, in_placed; exact Hin).
  rewrite odict_get_set in Hin. destruct (String.eqb_spec name n) as [<-|Hne].
  - simplify_eq. split; [done|]. split; [done|].
    unfold category_of. by rewrite Hc, Hm, Hcall.
  - apply Hold, in_placed. exact Hin.
Qed.

Lemma gmm_fold_placed_from heap module_name (l done : list (string * access))
    (st : gmm_state) :
  placed_from heap module_name done (gm_members st) →
  placed_from heap module_name (done ++ l)
    (gm_members (fold_left (gmm_step heap module_name) l st)).
Proof.
  revert done st. induction l as [|e l IH]; intros done st Hst; simpl.
  - by rewrite app_nil_r.
  - replace (done ++ e :: l) with ((done ++ [e]) ++ l) by by rewrite <- app_assoc.
    apply IH. by apply gmm_step_placed_from.
Qed.

(** X2: the classifier never places a private or unreadable name: every name
    found in one of the four maps is a public name of [dir(module)] whose
    [getattr] returned the stored value, and the rules assign that value the
    category of the map.  In particular a name that starts with an
    underscore, or whose only accesses raise, is in no map. *)
Theorem placed_names_are_public_members (heap : gmap obj_id pyobj) (module : pyobj)
    (mapping : gmap obj_id string) (name : string) (c : category) (v : obj_id) :
  In (c, v) (placed (gm_members (classify heap module mapping)) name) →
  startswith "_" name = false
  ∧ In (name, Got v) (py_members module)
  ∧ category_of (namespace_name module) name (deref heap v) = Some c.
Proof.
  unfold classify, namespace_name.
  pose proof (gmm_fold_placed_from heap (default "unknown" (py_name module))
                (py_members module) []
                {| gm_members := no_members; gm_seen := ∅;
                   gm_mapping := mapping; gm_out := [] |}) as H.
  intros Hin. apply H; [|exact Hin].
  intros n c' v' Hp%in_placed. by destruct c'.
Qed.

Lemma placed_names_are_public_members_witness :
  startswith "_" "make" = false
  ∧ In ("make", Got 3%positive) (py_members (deref widget_heap 1%positive))
  ∧ category_of (namespace_name (deref widget_heap 1%positive)) "make"
      (deref widget_heap 3%positive) = Some CFunction.
Proof.
  apply (placed_names_are_public_members widget_heap (deref widget_heap 1%positive) ∅
           "make" CFunction 3%positive).
  vm_compute. by left.
Defined.

(** ** The loop over the submodules *)

Lemma submodule_step_run heap (rec : obj_id → path → option string → M unit)
    (module_dir : path) (init_content : list string) (name : string) (sub : obj_id)
    (w : world) :
  submodule_step heap rec module_dir init_content (name, sub) w =
    match rec sub module_dir (Some (default name (py_name (deref heap sub))))
            (print (FoundSubmodule name) w).2 with
    | (Ret _, w') => (Ret (init_content ++ ["from . import " +:+ _sanitize_name name]), w')
    | (Raise (Exc e), w') =>
        (Ret init_content, (print (WarnSubmodule name (exn_msg e)) w').2)
    | (Raise e, w') => (Raise e, w')
    | (OutOfFuel, w') => (OutOfFuel, w')
    end.
Proof.
  unfold submodule_step, try_except. rewrite bind_run. cbn [print snd].
  rewrite bind_run.
  by destruct (rec sub module_dir _ _) as [[[]|[e|c|]|] w'].
Qed.

Lemma submodule_loop_returns (heap : gmap obj_id pyobj)
    (rec : obj_id → path → option string → M unit) (module_dir : path)
    (l : list (string * obj_id)) (init_content : list string) (w : world)
    (content : list string) :
  (foldM (submodule_step heap rec module_dir) l init_content w).1 = Ret content →
  ∃ added, content = init_content ++ added ∧ import_lines l added.
Proof.
  revert init_content w.
  induction l as [|[name sub] l IH]; intros b w.
  { simpl. intros [= <-]. exists []. split; [by rewrite app_nil_r | constructor]. }
  cbn [foldM]. rewrite bind_run, submodule_step_run.
  destruct (rec sub module_dir _ _) as [[[]|[e'|c|]|] w']; try done.
  + intros (added & -> & Hadd)%IH.
    exists (("from . import " +:+ _sanitize_name name) :: added).
    split; [by rewrite <- app_assoc|].
    constructor.
    * exists name, sub. split; [by left | done].
    * eapply Forall_impl; [exact Hadd|].
      intros line (n & v & Hin & ->). exists n, v. split; [by right | done].
  + intros (added & -> & Hadd)%IH. exists added. split; [done|].
    eapply Forall_impl; [exact Hadd|].
    intros line (n & v & Hin & ->). exists n, v. split; [by right | done].
Qed.

Lemma submodule_loop_raises (heap : gmap obj_id pyobj)
    (rec : obj_id → path → option string → M unit) (module_dir : path)
    (l : list (string * obj_id)) (init_content : list string) (w : world)
    (e : raised) :
  (foldM (submodule_step heap rec module_dir) l init_content w).1 = Raise e →
  is_exception e = false
  ∧ ∃ name sub w0,
      In (name, sub) l
      ∧ (rec sub module_dir (Some (default name (py_name (deref heap sub)))) w0).1
        = Raise e.
Proof.
  revert init_content w.
  induction l as [|[name sub] l IH]; intros b w; [done|].
  cbn [foldM]. rewrite bind_run, submodule_step_run.
  destruct (rec sub module_dir _ _) as [[[]|[e'|c|]|] w'] eqn:Hrec; try done.
  1,2: intros (He & n & s & w0 & Hin & Hr)%IH; split; [done|];
       exists n, s, w0; split; [by right | done].
  all: intros [= <-]; split; [done|]; eexists name, sub, _;
       split; [by left | by rewrite Hrec].
Qed.

(** X3: the loop over the submodules lets no exception of class
    [Exception] out, whatever the recursive calls do: a submodule whose
    traversal raises one is logged and contributes no line, and the loop
    goes on with its siblings.  What a recursive call raises outside
    [Exception] ([SystemExit], [KeyboardInterrupt]) is not caught: it
    leaves the loop at once and nothing is logged, and this is the only way
    the loop raises.  When the loop returns, it has only appended
    import-forwarding lines of its submodules. *)
Theorem submodule_loop_catches_exceptions (heap : gmap obj_id pyobj)
    (rec : obj_id → path → option string → M unit) (module_dir : path)
    (l : list (string * obj_id)) (init_content : list string) (w : world) :
  let run := foldM (submodule_step heap rec module_dir) l init_content w in
  (∀ e, run.1 = Raise e →
     is_exception e = false
     ∧ ∃ name sub w0,
         In (name, sub) l
         ∧ (rec sub module_dir (Some (default name (py_name (deref heap sub)))) w0).1
           = Raise e)
  ∧ (∀ content, run.1 = Ret content →
       ∃ added, content = init_content ++ added ∧ import_lines l added)
  ∧ (∀ name sub (e : exn) w',
       rec sub module_dir (Some (default name (py_name (deref heap sub))))
         (print (FoundSubmodule name) w).2 = (Raise (Exc e), w') →
       submodule_step heap rec module_dir init_content (name, sub) w
       = (Ret init_content,
          {| gen := gen w'; fs := fs w';
             stdout := stdout w' ++ [WarnSubmodule name (exn_msg e)] |}))
  ∧ (∀ name sub e w',
       rec sub module_dir (Some (default name (py_name (deref heap sub))))
         (print (FoundSubmodule name) w).2 = (Raise e, w') →
       is_exception e = false →
       submodule_step heap rec module_dir init_content (name, sub) w = (Raise e, w')).
Proof.
  intros run. split; [|split; [|split]].
  - intros e. apply submodule_loop_raises.
  - intros content. apply submodule_loop_returns.
  - intros name sub e w' Hrec. by rewrite submodule_step_run, Hrec.
  - intros name sub e w' Hrec He. rewrite submodule_step_run, Hrec.
    by destruct e.
Qed.

(** ** The tracker only grows *)

Lemma tracker_grows_refl (w : world) : tracker_grows w w.
Proof. unfold tracker_grows; split_and!; done. Qed.

Lemma tracker_grows_trans (w1 w2 w3 : world) :
  tracker_grows w1 w2 → tracker_grows w2 w3 → tracker_grows w1 w3.
Proof.
  intros (?&?&?&?&?) (?&?&?&?&?). unfold tracker_grows; split_and!; by etrans.
Qed.

Lemma keeps_grows_tracker_print (e : event) : keeps tracker_grows (print e).
Proof. intros w. unfold tracker_grows; split_and!; try done. by apply prefix_app_r. Qed.

Lemma keeps_grows_tracker_on_fs op : keeps tracker_grows (on_fs op).
Proof. intros w. unfold on_fs. destruct (op (fs w)). unfold tracker_grows; split_and!; done. Qed.

Lemma gmm_step_mapping_dom heap module_name st e :
  dom (gm_mapping st) ⊆ dom (gm_mapping (gmm_step heap module_name st e)).
Proof.
  destruct e as [name a]. unfold gmm_step.
  repeat match goal with
         | |- context [if ?b then _ else _] => destruct b
         | |- context [match ?x with _ => _ end] => destruct x
         end; cbn [with_out with_members gm_mapping]; try done.
  rewrite dom_insert_L. set_solver.
Qed.

Lemma gmm_fold_mapping_dom heap module_name l st :
  dom (gm_mapping st)
  ⊆ dom (gm_mapping (fold_left (gmm_step heap module_name) l st)).
Proof.
  revert st. induction l as [|e l IH]; intros st; [done|].
  simpl. etrans; [apply (gmm_step_mapping_dom heap module_name st e) | apply IH].
Qed.

Lemma keeps_grows_tracker_classifier heap module :
  keeps tracker_grows (get_module_members heap module).
Proof.
  intros w. unfold get_module_members. cbn [snd].
  unfold tracker_grows; split_and!; cbn [gen set_class_name_mapping processed_modules processed_classes
    processed_class_objects class_name_mapping stdout]; try done.
  - unfold classify.
    apply (gmm_fold_mapping_dom heap _ _
             {| gm_members := no_members; gm_seen := ∅;
                gm_mapping := class_name_mapping (gen w); gm_out := [] |}).
  - by apply prefix_app_r.
Qed.

Lemma tracker_grows_add_class (w : world) (i : obj_id) (name full : string) :
  tracker_grows w
    {| gen := add_processed_class i full (gen w); fs := fs w;
       stdout := stdout w ++ [AddingClass i name] |}.
Proof.
  unfold tracker_grows; split_and!; cbn [gen add_processed_class processed_modules processed_classes
    processed_class_objects class_name_mapping stdout]; try done; try set_solver.
  by apply prefix_app_r.
Qed.

Lemma tracker_grows_enter (w : world) (key name : string) :
  tracker_grows w
    {| gen := add_processed_module key (gen w); fs := fs w;
       stdout := stdout w ++ [Processing key name] |}.
Proof.
  unfold tracker_grows; split_and!; cbn [gen add_processed_module processed_modules processed_classes
    processed_class_objects class_name_mapping stdout]; try done; try set_solver.
  by apply prefix_app_r.
Qed.

Ltac keeps_steps R R_refl R_trans :=
  repeat first
    [ apply (keeps_bind R R_trans)
    | apply (keeps_try R R_trans)
    | apply (keeps_foldM R R_refl R_trans)
    | apply (keeps_forM_ R R_refl R_trans)
    | apply (keeps_ret R R_refl)
    | apply (keeps_lift R R_refl)
    | apply (keeps_get_gen R R_refl)
    | apply (keeps_get_fs R R_refl)
    | match goal with |- keeps _ (if ?b then _ else _) => destruct b end
    | match goal with |- keeps _ (let '(_, _) := ?x in _) => destruct x end
    | lazymatch goal with
      | |- keeps _ _ => fail
      | |- ∀ _, _ => intro
      end ].

Lemma keeps_grows_tracker_class_step heap module_name init_content entry :
  keeps tracker_grows (class_step heap module_name init_content entry).
Proof.
  destruct entry as [class_name cls]. intros w. unfold class_step.
  rewrite bind_run. cbn [get_gen].
  destruct (decide (cls ∈ processed_class_objects (gen w))) as [Hin|Hnot].
  - clear Hin.
    generalize (default class_name (class_name_mapping (gen w) !! cls)).
    intros existing.
    match goal with |- tracker_grows ?w0 (?m ?w0).2 =>
      generalize w0; change (keeps tracker_grows m) end.
    keeps_steps tracker_grows tracker_grows_refl tracker_grows_trans.
    apply keeps_grows_tracker_print.
  - rewrite bind_run. cbn [put_gen]. rewrite bind_run. cbn [print gen fs stdout].
    match goal with |- tracker_grows _ (?m ?w1).2 =>
      apply (tracker_grows_trans _ w1); [apply tracker_grows_add_class|];
      generalize w1; change (keeps tracker_grows m) end.
    keeps_steps tracker_grows tracker_grows_refl tracker_grows_trans.
Qed.

(** ** Relations kept by the whole traversal *)

Lemma keeps_with_keeps {A : Type} R (P : A → Prop) (m : M A) :
  keeps_with R P m → keeps R m.
Proof. intros H w. apply H. Qed.

Lemma keeps_with_bind {A B : Type} R (R_trans : ∀ w1 w2 w3, R w1 w2 → R w2 w3 → R w1 w3)
    (P : A → Prop) (m : M A) (k : A → M B) :
  keeps_with R P m → (∀ a, P a → keeps R (k a)) → keeps R (bind m k).
Proof.
  intros Hm Hk w. rewrite bind_run. destruct (Hm w) as [HR HP].
  destruct (m w) as [[a|e|] w']; simpl in *; [|done|done].
  eapply R_trans; [exact HR | by apply Hk, HP].
Qed.

Lemma keeps_with_foldM {A : Type} R (R_refl : ∀ w, R w w)
    (R_trans : ∀ w1 w2 w3, R w1 w2 → R w2 w3 → R w1 w3)
    (P : list string → Prop) (f : list string → A → M (list string)) (l : list A) :
  (∀ b a, P b → keeps_with R P (f b a)) →
  ∀ b, P b → keeps_with R P (foldM f l b).
Proof.
  intros Hf. induction l as [|a l IH]; intros b Hb w; simpl.
  - split; [apply R_refl | by intros ? [= <-]].
  - rewrite bind_run. destruct (Hf b a Hb w) as [HR HP].
    destruct (f b a w) as [[b'|e|] w']; simpl in *; [|done|done].
    destruct (IH b' (HP _ eq_refl) w') as [HR' HP'].
    split; [by eapply R_trans | done].
Qed.

Section Traversal.

Variable heap : gmap obj_id pyobj.
Variable R : world → world → Prop.
Variable P : list string → Prop.

Hypothesis R_refl : ∀ w, R w w.
Hypothesis R_trans : ∀ w1 w2 w3, R w1 w2 → R w2 w3 → R w1 w3.
Hypothesis P_start : P [preamble].
Hypothesis P_snoc : ∀ b x, P b → P (b ++ [x]).
Hypothesis R_enter : ∀ w key name,
  key ∉ processed_modules (gen w) →
  R w {| gen := add_processed_module key (gen w); fs := fs w;
         stdout := stdout w ++ [Processing key name] |}.
Hypothesis R_print : ∀ e, plain_event e = true → keeps R (print e).
Hypothesis R_mkdir : ∀ p, keeps R (on_fs (fs_mkdir p)).
Hypothesis R_classes :
  ∀ module module_name b (k : members → list string → M unit),
    P b → (∀ mem c, P c → keeps R (k mem c)) →
    keeps R (bind (get_module_members heap module)
               (λ mem, bind (foldM (class_step heap module_name) (classes mem) b)
                         (k mem))).
Hypothesis R_write : ∀ module_dir c, P c → keeps R (write_init module_dir c).

Lemma traversal_function_step b entry :
  P b → keeps_with R P (function_step heap b entry).
Proof.
  intros Hb w. unfold function_step, bind, lift, ret.
  destruct (dump_function_stub (deref heap entry.2)) as [s|e|]; simpl;
    (split; [apply R_refl|]); intros a; try done.
  intros [= <-]. by apply P_snoc.
Qed.

Lemma traversal_variable_step b entry :
  P b → keeps_with R P (variable_step heap b entry).
Proof.
  intros Hb w. destruct entry as [n v]. unfold variable_step, bind, lift, ret.
  destruct (_get_type_annotation (deref heap v)) as [s|e|]; simpl;
    (split; [apply R_refl|]); intros a; try done.
  intros [= <-]. by apply P_snoc.
Qed.

Lemma traversal_submodule_step rec module_dir b entry :
  (∀ m d n, keeps R (rec m d n)) →
  P b → keeps_with R P (submodule_step heap rec module_dir b entry).
Proof.
  intros Hrec Hb w. destruct entry as [n v]. rewrite submodule_step_run.
  pose proof (R_print (FoundSubmodule n) eq_refl w) as H1.
  pose proof (Hrec v module_dir (Some (default n (py_name (deref heap v))))
                (print (FoundSubmodule n) w).2) as H2.
  destruct (rec v module_dir _ _) as [[[]|[e|c|]|] w']; cbn [fst snd] in *.
  - split; [by eapply R_trans|]. intros a [= <-]. by apply P_snoc.
  - split.
    + eapply R_trans; [by eapply R_trans|].
      apply (R_print (WarnSubmodule n (exn_msg e)) eq_refl w').
    + by intros a [= <-].
  - split; [by eapply R_trans | done].
  - split; [by eapply R_trans | done].
  - split; [by eapply R_trans | done].
Qed.

Lemma traversal_body rec module base_path module_name :
  (∀ m d n, keeps R (rec m d n)) →
  keeps R (create_module_structure_body heap rec module base_path module_name).
Proof.
  intros Hrec w. unfold create_module_structure_body.
  rewrite bind_run. cbn [get_gen].
  match goal with |- context [decide (?k ∈ ?s)] => destruct (decide (k ∈ s)) as [Hin|Hnot] end.
  { apply R_refl. }
  rewrite bind_run. cbn [print]. rewrite bind_run. cbn [put_gen gen fs stdout].
  match goal with |- R _ (?m ?w1).2 =>
    apply (R_trans _ w1); [by apply R_enter|];
    generalize w1; change (keeps R m) end.
  apply (keeps_bind R R_trans); [apply R_mkdir|]. intros _.
  apply R_classes; [exact P_start|]. intros mem c1 H1.
  eapply (keeps_with_bind R R_trans P).
  { apply (keeps_with_foldM R R_refl R_trans P); [|done].
    intros. by apply traversal_function_step. }
  intros c2 H2.
  eapply (keeps_with_bind R R_trans P).
  { apply (keeps_with_foldM R R_refl R_trans P); [|done].
    intros. by apply traversal_variable_step. }
  intros c3 H3.
  eapply (keeps_with_bind R R_trans P).
  { apply (keeps_with_foldM R R_refl R_trans P); [|done].
    intros. by apply traversal_submodule_step. }
  intros c4 H4. by apply R_write.
Qed.

Lemma traversal_tree fuel module base_path module_name :
  keeps R (create_module_structure heap fuel module base_path module_name).
Proof.
  revert module base_path module_name.
  induction fuel as [|fuel IH]; intros module base_path module_name.
  - intros w. apply R_refl.
  - simpl. by apply traversal_body.
Qed.

Lemma traversal_generate fuel output_dir module :
  keeps R
    (try_except (generate_and_report heap fuel output_dir module)
       (λ e, print (ErrorDuring (exn_msg e)) ;;; print (Traceback e))).
Proof.
  unfold generate_and_report, generate_and_report_with.
  keeps_steps R R_refl R_trans; try (by apply R_print).
  apply traversal_tree.
Qed.

Lemma traversal_driver fuel output_dir remove_if_exists module :
  keeps R (prepare_output output_dir remove_if_exists) →
  keeps R (dump_module heap fuel output_dir remove_if_exists module).
Proof.
  intros Hprep. unfold dump_module, dump_module_with.
  apply (keeps_bind R R_trans); [by apply R_print|]. intros _.
  apply (keeps_bind R R_trans); [exact Hprep|]. intros _.
  apply traversal_generate.
Qed.

End Traversal.

Lemma class_step_returns heap (P : list string → Prop) module_name b entry :
  (∀ b x, P b → P (b ++ [x])) → P b →
  ∀ w a, (class_step heap module_name b entry w).1 = Ret a → P a.
Proof.
  intros P_snoc Hb w a. destruct entry as [n v]. unfold class_step.
  rewrite bind_run. cbn [get_gen].
  destruct (decide (v ∈ processed_class_objects (gen w))).
  - rewrite bind_run. cbn [print].
    destruct (negb _); cbn [ret fst]; intros [= <-]; [by apply P_snoc | done].
  - rewrite bind_run. cbn [put_gen]. rewrite bind_run. cbn [print].
    unfold bind, lift, ret.
    destruct (dump_class_stub heap (deref heap v) module_name); cbn [fst]; try done.
    intros [= <-]. by apply P_snoc.
Qed.

(** The loop over the classes, for a relation that the classifier and each
    step of the loop keep. *)
Lemma classes_simple heap R (P : list string → Prop)
    (R_refl : ∀ w, R w w) (R_trans : ∀ w1 w2 w3, R w1 w2 → R w2 w3 → R w1 w3)
    (P_snoc : ∀ b x, P b → P (b ++ [x])) :
  (∀ module, keeps R (get_module_members heap module)) →
  (∀ module_name b entry, keeps R (class_step heap module_name b entry)) →
  ∀ module module_name b (k : members → list string → M unit),
    P b → (∀ mem c, P c → keeps R (k mem c)) →
    keeps R (bind (get_module_members heap module)
               (λ mem, bind (foldM (class_step heap module_name) (classes mem) b)
                         (k mem))).
Proof.
  intros Hgmm Hstep module module_name b k Hb Hk.
  apply (keeps_bind R R_trans); [apply Hgmm|]. intros mem.
  eapply (keeps_with_bind R R_trans P); [|by apply Hk].
  apply (keeps_with_foldM R R_refl R_trans P); [|done].
  intros b' e Hb' w. split; [apply Hstep|].
  intros a. by apply class_step_returns.
Qed.

Lemma keeps_grows_tracker_tree heap fuel module base_path module_name :
  keeps tracker_grows (create_module_structure heap fuel module base_path module_name).
Proof.
  apply (traversal_tree heap tracker_grows (λ _, True)).
  - apply tracker_grows_refl.
  - apply tracker_grows_trans.
  - done.
  - done.
  - intros. apply tracker_grows_enter.
  - intros. apply keeps_grows_tracker_print.
  - intros. apply keeps_grows_tracker_on_fs.
  - apply (classes_simple heap tracker_grows (λ _, True)).
    + apply tracker_grows_refl.
    + apply tracker_grows_trans.
    + done.
    + apply keeps_grows_tracker_classifier.
    + apply keeps_grows_tracker_class_step.
  - intros. unfold write_init.
    keeps_steps tracker_grows tracker_grows_refl tracker_grows_trans.
    + apply keeps_grows_tracker_print.
    + apply keeps_grows_tracker_on_fs.
Qed.

(** X4: during a traversal the tracker never shrinks: the processed sets only
    grow, every class identity that has a recorded name keeps one, and the
    console is only appended to.  A namespace is marked as processed before
    any of its work is done, so after a call with a positive budget its key
    is marked whether the call returned or raised, and the namespace is not
    tried again in the same run. *)
Theorem tracker_only_grows (heap : gmap obj_id pyobj) (fuel : nat) (module : obj_id)
    (base_path : path) (module_name : option string) (w : world) :
  tracker_grows w (create_module_structure heap fuel module base_path module_name w).2
  ∧ path_str base_path +:+ "/" +:+
      match module_name with
      | Some n => n
      | None => namespace_name (deref heap module)
      end
    ∈ processed_modules
        (gen (create_module_structure heap (S fuel) module base_path module_name w).2).
Proof.
  split; [apply keeps_grows_tracker_tree|].
  simpl. unfold create_module_structure_body, namespace_name.
  rewrite bind_run. cbn [get_gen].
  match goal with |- context [decide (?k ∈ ?s)] => destruct (decide (k ∈ s)) as [Hin|Hnot] end;
    [exact Hin|].
  rewrite bind_run. cbn [print]. rewrite bind_run. cbn [put_gen gen fs stdout].
  match goal with |- _ ∈ processed_modules (gen (?m ?w1).2) =>
    assert (Hrest : tracker_grows w1 (m w1).2) end.
  { match goal with |- tracker_grows ?w1 (?m ?w1).2 =>
      generalize w1; change (keeps tracker_grows m) end.
    pose proof (keeps_grows_tracker_tree heap fuel) as Htree.
    unfold write_init, function_step, variable_step, submodule_step.
    keeps_steps tracker_grows tracker_grows_refl tracker_grows_trans;
      first [ apply keeps_grows_tracker_print
            | apply keeps_grows_tracker_on_fs
            | apply keeps_grows_tracker_classifier
            | apply keeps_grows_tracker_class_step
            | apply Htree ]. }
  destruct Hrest as [Hsub _]. apply Hsub.
  cbn [gen add_processed_module processed_modules]. set_solver.
Qed.

(** ** What the traversal does to the file system *)

Lemma substring_all (s : string) : String.substring 0 (String.length s) s = s.
Proof. induction s as [|c s IH]; simpl; [done | by rewrite IH]. Qed.

Lemma substring_app_right (a p : string) :
  String.substring (String.length a) (String.length p) (a +:+ p) = p.
Proof.
  induction a as [|c a IH]; [apply substring_all|].
  change (String c a +:+ p) with (String c (a +:+ p)). simpl. exact IH.
Qed.

Lemma endswith_app (a p : string) : endswith p (a +:+ p) = true.
Proof.
  unfold endswith. rewrite string_append_length.
  replace (String.length a + String.length p - String.length p)
    with (String.length a) by lia.
  rewrite substring_app_right, String.eqb_refl, andb_true_r.
  apply Nat.leb_le. lia.
Qed.

Lemma init_text_newline (init_content : list string) :
  endswith nl (init_text init_content) = true.
Proof.
  unfold init_text. destruct (strip (String.concat nl init_content)); [done|].
  destruct (endswith nl (String.concat nl init_content)) eqn:E; [exact E|].
  apply endswith_app.
Qed.

Lemma init_text_preamble (rest : list string) :
  startswith preamble (init_text (preamble :: rest)) = true.
Proof.
  unfold init_text, startswith.
  assert (Hc : String.prefix preamble (String.concat nl (preamble :: rest)) = true).
  { destruct rest as [|x rest]; [apply string_prefix_refl|].
    change (String.concat nl (preamble :: x :: rest))
      with (preamble +:+ nl +:+ String.concat nl (x :: rest)).
    apply string_prefix_app, string_prefix_refl. }
  destruct (strip (String.concat nl (preamble :: rest))); [done|].
  destruct (endswith nl (String.concat nl (preamble :: rest))); [exact Hc|].
  by apply string_prefix_app.
Qed.

Lemma writes_descriptors_refl w : writes_descriptors w w.
Proof. intros k c ?. by left. Qed.

Lemma writes_descriptors_trans w1 w2 w3 :
  writes_descriptors w1 w2 → writes_descriptors w2 w3 → writes_descriptors w1 w3.
Proof.
  intros H12 H23 k c Hk. destruct (H23 k c Hk) as [H2|?]; [|by right].
  by apply H12.
Qed.

Lemma entries_kept_refl w : entries_kept w w.
Proof. split; eauto. Qed.

Lemma entries_kept_trans w1 w2 w3 :
  entries_kept w1 w2 → entries_kept w2 w3 → entries_kept w1 w3.
Proof.
  intros [D12 F12] [D23 F23]. split; [by auto|].
  intros k c Hk. destruct (F12 k c Hk) as [c' Hc']. eauto.
Qed.

Lemma writes_descriptors_same_fs w w' : fs w' = fs w → writes_descriptors w w'.
Proof. intros Hfs k c. rewrite Hfs. by left. Qed.

Lemma entries_kept_same_fs w w' : fs w' = fs w → entries_kept w w'.
Proof. intros Hfs. unfold entries_kept. rewrite Hfs. eauto. Qed.

Lemma mkdir_writes_descriptors (p : path) :
  keeps writes_descriptors (on_fs (fs_mkdir p)).
Proof.
  intros w. unfold on_fs, fs_mkdir.
  destruct (mkdir_from [] p (fs w)) as [r Y] eqn:Hm. cbn [snd].
  intros k c Hk. cbn [fs] in Hk.
  destruct (mkdir_from_changes _ _ _ _ _ Hm k) as [E|(_ & _ & _ & E)];
    [left; by rewrite <- E | congruence].
Qed.

Lemma mkdir_entries_kept (p : path) : keeps entries_kept (on_fs (fs_mkdir p)).
Proof.
  intros w. unfold on_fs, fs_mkdir.
  destruct (mkdir_from [] p (fs w)) as [r Y] eqn:Hm. cbn [snd].
  split; cbn [fs].
  - intros k. by apply (mkdir_from_keeps_dirs _ _ _ _ _ _ Hm).
  - intros k c Hk. exists c.
    destruct (mkdir_from_changes _ _ _ _ _ Hm k) as [E|(_ & _ & E & _)];
      [by rewrite E | congruence].
Qed.

Lemma fs_write_cases (p : path) (data : string) (f : gmap (list string) node) :
  (fs_write p data f).2 = f
  ∨ ((fs_write p data f).2 = <[p := File data]> f ∧ f !! p ≠ Some Dir).
Proof.
  unfold fs_write. destruct (fs_lookup f (removelast p)) as [[|c]|]; try by left.
  destruct (fs_lookup f p) as [[|c]|] eqn:Hp; try by left.
  - right. split; [done|]. destruct p; simpl in Hp; congruence.
  - right. split; [done|]. destruct p; simpl in Hp; congruence.
Qed.

Lemma write_init_writes_descriptors (module_dir : path) (c : list string) :
  starts_with_preamble c → keeps writes_descriptors (write_init module_dir c).
Proof.
  intros [rest ->] w. unfold write_init. rewrite bind_run. cbn [print].
  unfold on_fs. cbn [fs gen stdout].
  pose proof (fs_write_cases (module_dir ++ ["__init__.pyi"])
                (init_text (preamble :: rest)) (fs w)) as Hw.
  destruct (fs_write _ _ (fs w)) as [r f']. cbn [snd] in *.
  intros k x Hk. cbn [fs] in Hk.
  destruct Hw as [->|[-> _]]; [by left|].
  destruct (decide (k = module_dir ++ ["__init__.pyi"])) as [->|Hne].
  - rewrite lookup_insert_eq in Hk. simplify_eq. right.
    split; [apply last_last|]. split; [apply init_text_preamble|apply init_text_newline].
  - rewrite lookup_insert_ne in Hk by done. by left.
Qed.

Lemma write_init_entries_kept (module_dir : path) (c : list string) :
  keeps entries_kept (write_init module_dir c).
Proof.
  intros w. unfold write_init. rewrite bind_run. cbn [print].
  unfold on_fs. cbn [fs gen stdout].
  pose proof (fs_write_cases (module_dir ++ ["__init__.pyi"]) (init_text c) (fs w)) as Hw.
  destruct (fs_write _ _ (fs w)) as [r f']. cbn [snd] in *.
  destruct Hw as [->|[-> Hnd]]; [by apply entries_kept_same_fs|].
  split; cbn [fs].
  - intros k Hk. destruct (decide (k = module_dir ++ ["__init__.pyi"])) as [->|Hne];
      [done | by rewrite lookup_insert_ne].
  - intros k x Hk. destruct (decide (k = module_dir ++ ["__init__.pyi"])) as [->|Hne].
    + rewrite lookup_insert_eq. eauto.
    + rewrite lookup_insert_ne by done. eauto.
Qed.

Lemma class_step_same_fs heap module_name b entry (w : world) :
  fs (class_step heap module_name b entry w).2 = fs w.
Proof.
  destruct entry as [n v]. unfold class_step. rewrite bind_run. cbn [get_gen].
  destruct (decide (v ∈ processed_class_objects (gen w))).
  - rewrite bind_run. cbn [print]. by destruct (negb _).
  - rewrite bind_run. cbn [put_gen]. rewrite bind_run. cbn [print].
    unfold bind, lift, ret. by destruct (dump_class_stub heap (deref heap v) module_name).
Qed.

Lemma writes_descriptors_tree heap fuel module base_path module_name :
  keeps writes_descriptors
    (create_module_structure heap fuel module base_path module_name).
Proof.
  apply (traversal_tree heap writes_descriptors starts_with_preamble).
  - apply writes_descriptors_refl.
  - apply writes_descriptors_trans.
  - by exists [].
  - intros b x [rest ->]. by exists (rest ++ [x]).
  - intros. by apply writes_descriptors_same_fs.
  - intros e _ w. by apply writes_descriptors_same_fs.
  - apply mkdir_writes_descriptors.
  - apply (classes_simple heap writes_descriptors starts_with_preamble).
    + apply writes_descriptors_refl.
    + apply writes_descriptors_trans.
    + intros b x [rest ->]. by exists (rest ++ [x]).
    + intros m w. by apply writes_descriptors_same_fs.
    + intros mn b e w. apply writes_descriptors_same_fs, class_step_same_fs.
  - apply write_init_writes_descriptors.
Qed.

Lemma entries_kept_tree heap fuel module base_path module_name :
  keeps entries_kept (create_module_structure heap fuel module base_path module_name).
Proof.
  apply (traversal_tree heap entries_kept (λ _, True)).
  - apply entries_kept_refl.
  - apply entries_kept_trans.
  - done.
  - done.
  - intros. by apply entries_kept_same_fs.
  - intros e _ w. by apply entries_kept_same_fs.
  - apply mkdir_entries_kept.
  - apply (classes_simple heap entries_kept (λ _, True)).
    + apply entries_kept_refl.
    + apply entries_kept_trans.
    + done.
    + intros m w. by apply entries_kept_same_fs.
    + intros mn b e w. apply entries_kept_same_fs, class_step_same_fs.
  - intros. apply write_init_entries_kept.
Qed.

Lemma rmtree_writes_descriptors (p : path) :
  keeps writes_descriptors (on_fs (fs_rmtree p)).
Proof.
  intros w. unfold on_fs, fs_rmtree. destruct p as [|x p].
  { intros k c Hk. cbn in Hk. by rewrite lookup_empty in Hk. }
  destruct (fs w !! (x :: p)) as [[|c0]|]; try by apply writes_descriptors_same_fs.
  intros k c Hk. cbn [snd fs] in Hk. left.
  by apply map_lookup_filter_Some_1_1 in Hk.
Qed.

Lemma prepare_writes_descriptors (output_dir : path) (remove_if_exists : bool) :
  keeps writes_descriptors (prepare_output output_dir remove_if_exists).
Proof.
  unfold prepare_output.
  keeps_steps writes_descriptors writes_descriptors_refl writes_descriptors_trans;
    first [ apply rmtree_writes_descriptors | apply mkdir_writes_descriptors ].
Qed.

(** X5: every file present after a run of the driver either was there before
    with the same content or is a descriptor named [__init__.pyi] that
    starts with the preamble line and ends with a newline: the driver writes
    nothing else, with or without clearing, whether it returns or raises. *)
Theorem driver_only_writes_descriptors (heap : gmap obj_id pyobj) (fuel : nat)
    (output_dir : path) (remove_if_exists : bool) (module : obj_id) (w : world)
    (k : path) (c : string) :
  fs (dump_module heap fuel output_dir remove_if_exists module w).2 !! k = Some (File c) →
  fs w !! k = Some (File c)
  ∨ (List.last k EmptyString = "__init__.pyi"
     ∧ startswith preamble c = true ∧ endswith nl c = true).
Proof.
  apply (traversal_driver heap writes_descriptors starts_with_preamble).
  - apply writes_descriptors_refl.
  - apply writes_descriptors_trans.
  - by exists [].
  - intros b x [rest ->]. by exists (rest ++ [x]).
  - intros. by apply writes_descriptors_same_fs.
  - intros e _ w0. by apply writes_descriptors_same_fs.
  - apply mkdir_writes_descriptors.
  - apply (classes_simple heap writes_descriptors starts_with_preamble).
    + apply writes_descriptors_refl.
    + apply writes_descriptors_trans.
    + intros b x [rest ->]. by exists (rest ++ [x]).
    + intros m w0. by apply writes_descriptors_same_fs.
    + intros mn b e w0. apply writes_descriptors_same_fs, class_step_same_fs.
  - apply write_init_writes_descriptors.
  - apply prepare_writes_descriptors.
Qed.

Lemma driver_only_writes_descriptors_witness :
  List.last ["stubs"; "demo"; "__init__.pyi"] EmptyString = "__init__.pyi"
  ∧ startswith preamble
      ("from typing import Any" +:+ nl +:+ nl +:+ "from . import helpers" +:+ nl
       +:+ "from . import utils" +:+ nl) = true
  ∧ endswith nl
      ("from typing import Any" +:+ nl +:+ nl +:+ "from . import helpers" +:+ nl
       +:+ "from . import utils" +:+ nl) = true.
Proof.
  destruct (driver_only_writes_descriptors demo_heap 3 ["stubs"] true 1%positive
              (start stale_fs) ["stubs"; "demo"; "__init__.pyi"]
              ("from typing import Any" +:+ nl +:+ nl +:+ "from . import helpers" +:+ nl
               +:+ "from . import utils" +:+ nl)) as [H|H].
  - by vm_compute.
  - by vm_compute in H.
  - exact H.
Defined.

(** ** The command line entry point *)

Lemma prepare_entries_kept (output_dir : path) :
  keeps entries_kept (prepare_output output_dir false).
Proof.
  unfold prepare_output. intros w. rewrite bind_run. cbn [get_fs].
  rewrite andb_false_r, bind_run. cbn [ret]. apply mkdir_entries_kept.
Qed.

Lemma prepare_grows_under (output_dir : path) :
  keeps (grows_under output_dir) (prepare_output output_dir false).
Proof.
  unfold prepare_output. intros w. rewrite bind_run. cbn [get_fs].
  rewrite andb_false_r, bind_run. cbn [ret]. by apply keeps_grows_mkdir.
Qed.

Lemma driver_entries_kept heap fuel output_dir module :
  keeps entries_kept (dump_module heap fuel output_dir false module).
Proof.
  apply (traversal_driver heap entries_kept (λ _, True)).
  - apply entries_kept_refl.
  - apply entries_kept_trans.
  - done.
  - done.
  - intros. by apply entries_kept_same_fs.
  - intros e _ w. by apply entries_kept_same_fs.
  - apply mkdir_entries_kept.
  - apply (classes_simple heap entries_kept (λ _, True)).
    + apply entries_kept_refl.
    + apply entries_kept_trans.
    + done.
    + intros m w. by apply entries_kept_same_fs.
    + intros mn b e w. apply entries_kept_same_fs, class_step_same_fs.
  - intros. apply write_init_entries_kept.
  - apply prepare_entries_kept.
Qed.

Lemma driver_grows_under heap fuel output_dir module :
  keeps (grows_under output_dir) (dump_module heap fuel output_dir false module).
Proof.
  unfold dump_module, dump_module_with.
  apply (keeps_bind _ (grows_under_trans output_dir)); [apply keeps_grows_print|].
  intros _.
  apply (keeps_bind _ (grows_under_trans output_dir)); [apply prepare_grows_under|].
  intros _. apply keeps_grows_generate.
Qed.

(** X6: without the clear flag the driver removes nothing: every directory
    stays a directory and every file stays a file, and the entries that
    change lie at or below the output root, or are missing directories on
    the way to it. *)
Theorem driver_without_clearing_keeps_entries (heap : gmap obj_id pyobj) (fuel : nat)
    (output_dir : path) (module : obj_id) (w : world) :
  let w' := (dump_module heap fuel output_dir false module w).2 in
  (∀ k, fs w !! k = Some Dir → fs w' !! k = Some Dir)
  ∧ (∀ k c, fs w !! k = Some (File c) → ∃ c', fs w' !! k = Some (File c'))
  ∧ (∀ k, fs w' !! k = fs w !! k
          ∨ output_dir `prefix_of` k
          ∨ (k ≠ [] ∧ k `prefix_of` output_dir
             ∧ fs w !! k = None ∧ fs w' !! k = Some Dir)).
Proof.
  intros w'. destruct (driver_entries_kept heap fuel output_dir module w) as [HD HF].
  destruct (driver_grows_under heap fuel output_dir module w) as [HG _].
  split; [exact HD|]. split; [exact HF|]. exact HG.
Qed.

Lemma main_except_outcome x before g : main_outcome g (main_except x before g).
Proof.
  destruct x as [msg|msg|[e|c|]]; cbn; (split; [by intros ? [= <-]|]);
    split; eauto.
Qed.

Lemma main_generate_outcome heap fuel package_name package before g :
  main_outcome g (main_generate heap fuel package_name package before g).
Proof.
  unfold main_generate, dump_module_with_new_generator.
  destruct (driver_entries_kept heap fuel ["stubs"] package (start g)) as [HD HF].
  destruct (driver_grows_under heap fuel ["stubs"] package (start g)) as [HG _].
  destruct (dump_module heap fuel ["stubs"] false package (start g)) as [r w].
  cbn [snd start fs] in *.
  assert (Hkeep : ∀ k n, g !! k = Some n → ∃ n', fs w !! k = Some n').
  { intros k [|c] Hk; [exists Dir; by apply HD|].
    destruct (HF k c Hk) as [c' ?]. by exists (File c'). }
  assert (Hframe : ∀ k, fs w !! k = g !! k ∨ ["stubs"] `prefix_of` k).
  { intros k. destruct (HG k) as [?|[?|(Hne & Hp & Hn & Hd)]]; [by left|by right|].
    right. destruct Hp as [rest Hp]. destruct k as [|x [|y k]]; [done| |].
    + simplify_eq/=. by exists [].
    + simplify_eq/=. }
  destruct r as [[]|[e|c|]|]; cbn; (split; [by intros ? [= <-]|]); by split.
Qed.

Lemma main_reads_package_name heap fuel code args args' f :
  arg_package_name args' = arg_package_name args →
  main heap fuel code (Parsed args') f = main heap fuel code (Parsed args) f.
Proof. intros H. unfold main. by rewrite H. Qed.

Lemma main_parsed_outcome heap fuel code args f :
  main_outcome (package_code_fs code (arg_package_name args) f)
    (main heap fuel code (Parsed args) f).
Proof.
  unfold main, package_code_fs.
  destruct (import_module code (arg_package_name args) f) as [[package|x] f1];
    [|apply main_except_outcome].
  destruct (package_init code package f1) as [[|[msg|msg|[[]|c|]]] f2]; cbn [snd];
    first [apply main_generate_outcome | apply main_except_outcome].
Qed.

(** X7: whatever the command line says, [main] runs the driver on [stubs]
    without clearing: the output directory given and [--remove_if_exists]
    are not used.  So the call of the driver removes no entry of the file
    system the code of the package has left and changes nothing outside
    [stubs], and two command lines that name the same package behave alike.
    No exception of class [Exception] leaves [main], not even the one the
    driver lets through when the output root cannot be created; what leaves
    [main] is the [SystemExit] of the argument parser and what the code of
    the package raises outside [Exception]. *)
Theorem main_ignores_output_options (heap : gmap obj_id pyobj) (fuel : nat)
    (code : package_code) (args : cli_args) (f : gmap (list string) node) :
  let f0 := package_code_fs code (arg_package_name args) f in
  let '(r, out, f') := main heap fuel code (Parsed args) f in
  (∀ e, r = Raise e → is_exception e = false)
  ∧ (∀ k n, f0 !! k = Some n → ∃ n', f' !! k = Some n')
  ∧ (∀ k, f' !! k = f0 !! k ∨ ["stubs"] `prefix_of` k)
  ∧ (∀ args', arg_package_name args' = arg_package_name args →
       main heap fuel code (Parsed args') f = (r, out, f'))
  ∧ (∀ c, main heap fuel code (ParseExits c) f = (Raise (SystemExit c), [], f))
  ∧ (∀ e f1, import_module code (arg_package_name args) f
             = (ImportRaises (OtherException e), f1) →
       is_exception e = false → (r, out, f') = (Raise e, [], f1)).
Proof.
  intros f0.
  pose proof (main_parsed_outcome heap fuel code args f) as (H1 & H2 & H3).
  fold f0 in H2, H3.
  assert (H6 : ∀ e f1, import_module code (arg_package_name args) f
                       = (ImportRaises (OtherException e), f1) →
               is_exception e = false →
               main heap fuel code (Parsed args) f = (Raise e, [], f1)).
  { intros e f1 Himp He. unfold main. rewrite Himp. by destruct e. }
  destruct (main heap fuel code (Parsed args) f) as [[r out] f'] eqn:E.
  cbn [fst snd] in *.
  split; [exact H1|]. split; [exact H2|]. split; [exact H3|].
  split; [|split; [done | exact H6]].
  intros args' Ha. by rewrite (main_reads_package_name _ _ _ args).
Qed.

(** ** The alias branch of the tree builder *)

Lemma odict_set_in {V : Type} (k : string) (v : V) (d : odict V) (x : string * V) :
  In x (odict_set k v d) → x = (k, v) ∨ In x d.
Proof.
  induction d as [|[k' v'] d IH]; simpl.
  - intros [<-|[]]. by left.
  - destruct (String.eqb_spec k' k) as [->|Hne]; simpl.
    + intros [<-|Hx]; [by left | right; by right].
    + intros [<-|Hx]; [right; by left|].
      destruct (IH Hx) as [->|Hd]; [by left | right; by right].
Qed.

Lemma gmm_step_named heap module_name st e :
  distinct_classes st → classes_named st →
  classes_named (gmm_step heap module_name st e).
Proof.
  intros [_ Hseen] Hnamed. destruct e as [name a]. unfold gmm_step.
  destruct (startswith "_" name); [done|].
  destruct a as [v|ex]; [|done].
  destruct (py_isclass (deref heap v)).
  - destruct (class_owned module_name (deref heap v)); [|done].
    destruct (gm_seen st !! v) eqn:Hv; [done|].
    intros n x Hin. cbn [gm_members classes gm_mapping] in *.
    rewrite chosen_name_candidate in *.
    apply odict_set_in in Hin as [[= -> ->]|Hin]; [apply lookup_insert_eq|].
    assert (x ≠ v) as Hne.
    { intros ->. destruct (Hseen v) as [? ?]; [|congruence].
      apply in_map_iff. by exists (n, v). }
    rewrite lookup_insert_ne by done. by apply Hnamed.
  - repeat match goal with
           | |- context [if ?b then _ else _] => destruct b
           end; done.
Qed.

Lemma classify_named heap module mapping :
  classes_named (classify heap module mapping).
Proof.
  unfold classify.
  set (st0 := {| gm_members := no_members; gm_seen := ∅;
                 gm_mapping := mapping; gm_out := [] |}).
  assert (H0 : distinct_classes st0 ∧ classes_named st0).
  { split; [split; [apply NoDup_nil_2 | intros v []] | intros n v []]. }
  revert H0. generalize st0. generalize (default "unknown" (py_name module)).
  induction (py_members module) as [|e l IH]; intros module_name st [Hd Hn]; [done|].
  simpl. apply IH. split; [by apply gmm_step_distinct | by apply gmm_step_named].
Qed.

Lemma gmm_step_events heap module_name st e :
  forallb classifier_event (gm_out st) = true →
  forallb classifier_event (gm_out (gmm_step heap module_name st e)) = true.
Proof.
  intros Hst. destruct e as [name a]. unfold gmm_step.
  repeat match goal with
         | |- context [if ?b then _ else _] => destruct b
         | |- context [match ?x with _ => _ end] => destruct x
         end; cbn [with_out with_members gm_out]; try done;
    rewrite forallb_app, Hst; reflexivity.
Qed.

Lemma classify_events heap module mapping :
  forallb classifier_event (gm_out (classify heap module mapping)) = true.
Proof.
  unfold classify.
  set (st0 := {| gm_members := no_members; gm_seen := ∅;
                 gm_mapping := mapping; gm_out := [] |}).
  assert (H0 : forallb classifier_event (gm_out st0) = true) by done.
  revert H0. generalize st0. generalize (default "unknown" (py_name module)).
  induction (py_members module) as [|e l IH]; intros module_name st Hst; [done|].
  simpl. apply IH. by apply gmm_step_events.
Qed.

Lemma alias_free_refl w : alias_free w w.
Proof. intros c e ?. by left. Qed.

Lemma alias_free_trans w1 w2 w3 :
  alias_free w1 w2 → alias_free w2 w3 → alias_free w1 w3.
Proof.
  intros H12 H23 c e H. destruct (H23 c e H) as [H2|?]; [by apply H12 | by right].
Qed.

Lemma alias_free_output (w : world) (g : generator) (f : gmap (list string) node)
    (l : list event) :
  (∀ c e, ¬ In (SkipProcessed c e) l) →
  alias_free w {| gen := g; fs := f; stdout := stdout w ++ l |}.
Proof.
  intros Hl c e [H|H]%in_app_iff; [by left | by destruct (Hl c e)].
Qed.

Lemma class_blocks_cons heap module_name x l added :
  class_blocks heap module_name l added → class_blocks heap module_name (x :: l) added.
Proof.
  intros H. eapply Forall_impl; [exact H|].
  intros line (n & v & Hin & Hs). exists n, v. split; [by right|done].
Qed.

Lemma class_step_no_alias heap module_name (b : list string) (n : string)
    (v : obj_id) (w : world) :
  class_name_mapping (gen w) !! v = Some n →
  alias_free w (class_step heap module_name b (n, v) w).2
  ∧ class_name_mapping (gen (class_step heap module_name b (n, v) w).2)
    = class_name_mapping (gen w)
  ∧ ∀ b1, (class_step heap module_name b (n, v) w).1 = Ret b1 →
      b1 = b
      ∨ ∃ stub, b1 = b ++ [stub]
                ∧ dump_class_stub heap (deref heap v) module_name = Ret stub.
Proof.
  intros Hmap. unfold class_step. rewrite bind_run. cbn [get_gen].
  destruct (decide (v ∈ processed_class_objects (gen w))) as [Hin|Hnot].
  - rewrite bind_run. cbn [print]. rewrite Hmap.
    cbn [default]. rewrite String.eqb_refl. cbn [negb ret snd fst gen].
    split; [|split; [done|]].
    + intros c e [H|[[= <- <-]|[]]]%in_app_iff; [by left | by right].
    + intros b1 [= <-]. by left.
  - rewrite bind_run. cbn [put_gen]. rewrite bind_run. cbn [print gen fs stdout].
    unfold bind, lift, ret.
    destruct (dump_class_stub heap (deref heap v) module_name) as [stub|ex|] eqn:Hstub;
      cbn [fst snd gen add_processed_class class_name_mapping];
      (split; [apply alias_free_output; by intros c e [|[]] | split; [done|]]);
      intros b1; try done.
    intros [= <-]. right. by exists stub.
Qed.

Lemma class_loop_no_alias heap module_name (l : list (string * obj_id))
    (b : list string) (w : world) :
  (∀ n v, In (n, v) l → class_name_mapping (gen w) !! v = Some n) →
  (∀ content, (foldM (class_step heap module_name) l b w).1 = Ret content →
     ∃ added, content = b ++ added ∧ class_blocks heap module_name l added)
  ∧ alias_free w (foldM (class_step heap module_name) l b w).2.
Proof.
  revert b w. induction l as [|[n v] l IH]; intros b w Hmap.
  { split; [|apply alias_free_refl]. simpl. intros content [= <-].
    exists []. split; [by rewrite app_nil_r | constructor]. }
  cbn [foldM]. rewrite bind_run.
  destruct (class_step_no_alias heap module_name b n v w) as (Ha & Hm & Hb);
    [apply Hmap; by left|].
  destruct (class_step heap module_name b (n, v) w) as [[b1|ex|] w1];
    cbn [fst snd] in *; [|by split|by split].
  destruct (IH b1 w1) as [Hc Ha'].
  { intros n' v' Hin'. rewrite Hm. apply Hmap. by right. }
  split; [|by eapply alias_free_trans].
  intros content (added & -> & Hadd)%Hc.
  destruct (Hb b1 eq_refl) as [->|(stub & -> & Hstub)].
  - exists added. split; [done | by apply class_blocks_cons].
  - exists (stub :: added). split; [by rewrite <- app_assoc|].
    constructor; [exists n, v; split; [by left | done]|].
    by apply class_blocks_cons.
Qed.

Lemma classifier_no_alias heap module (w : world) :
  alias_free w (get_module_members heap module w).2
  ∧ ∀ n v, In (n, v) (classes (gm_members (classify heap module (class_name_mapping (gen w))))) →
      class_name_mapping (gen (get_module_members heap module w).2) !! v = Some n.
Proof.
  unfold get_module_members. cbn [fst snd gen].
  split.
  - apply alias_free_output. intros c e Hin.
    pose proof (classify_events heap module (class_name_mapping (gen w))) as Hev.
    rewrite forallb_forall in Hev. by apply Hev in Hin.
  - intros n v Hin. destruct (gen w); simpl.
    by apply classify_named.
Qed.

Lemma classes_no_alias heap module module_name b (k : members → list string → M unit) :
  (∀ mem c, keeps alias_free (k mem c)) →
  keeps alias_free
    (bind (get_module_members heap module)
       (λ mem, bind (foldM (class_step heap module_name) (classes mem) b) (k mem))).
Proof.
  intros Hk w.
  destruct (classifier_no_alias heap module w) as [H1 Hmap].
  set (w1 := (get_module_members heap module w).2) in *.
  set (mem := gm_members (classify heap module (class_name_mapping (gen w)))) in *.
  rewrite bind_run.
  change (get_module_members heap module w) with (Ret mem, w1).
  cbv beta iota. rewrite bind_run.
  destruct (class_loop_no_alias heap module_name (classes mem) b w1 Hmap) as [_ H2].
  destruct (foldM (class_step heap module_name) (classes mem) b w1) as [[c|ex|] w2];
    cbn [fst snd] in *.
  - eapply alias_free_trans; [exact H1|]. eapply alias_free_trans; [exact H2|].
    apply (Hk mem c w2).
  - by eapply alias_free_trans.
  - by eapply alias_free_trans.
Qed.

Lemma keeps_alias_free_print e :
  (∀ c x, e ≠ SkipProcessed c x) → keeps alias_free (print e).
Proof.
  intros He w. unfold print. cbn [snd].
  apply alias_free_output. intros c x [->|[]]. by apply (He c x).
Qed.

Lemma keeps_alias_free_on_fs op : keeps alias_free (on_fs op).
Proof.
  intros w. unfold on_fs. destruct (op (fs w)) as [r f]; cbn [snd].
  intros c e H; by left.
Qed.

(** X8: the alias branch of the tree builder never fires.  The classifier
    records every class it places under the name it is placed under, so when
    the tree builder meets a class object that was rendered before, the name
    it looks up is the name it holds: the loop over the classes adds nothing
    but class blocks to the descriptor, no line [name = existing_name], and
    every notice of a skipped class printed during a run names the same class
    twice. *)
Theorem alias_line_is_never_written (heap : gmap obj_id pyobj) :
  (∀ module module_name b w,
     let mem := gm_members (classify heap module (class_name_mapping (gen w))) in
     let w1 := (get_module_members heap module w).2 in
     ∀ content,
       (foldM (class_step heap module_name) (classes mem) b w1).1 = Ret content →
       ∃ added, content = b ++ added
                ∧ Forall (λ line, ∃ n v, In (n, v) (classes mem)
                            ∧ dump_class_stub heap (deref heap v) module_name = Ret line)
                    added)
  ∧ (∀ fuel output_dir remove_if_exists module w c e,
       In (SkipProcessed c e)
          (stdout (dump_module heap fuel output_dir remove_if_exists module w).2) →
       In (SkipProcessed c e) (stdout w) ∨ c = e).
Proof.
  split.
  - intros module module_name b w mem w1 content Hc.
    destruct (classifier_no_alias heap module w) as [_ Hmap].
    by destruct (class_loop_no_alias heap module_name (classes mem) b w1 Hmap) as [H _];
      apply H.
  - intros fuel output_dir remove_if_exists module w.
    change (alias_free w (dump_module heap fuel output_dir remove_if_exists module w).2).
    apply (traversal_driver heap alias_free (λ _, True)).
    + apply alias_free_refl.
    + apply alias_free_trans.
    + done.
    + done.
    + intros w0 key name _. apply alias_free_output. by intros c e [|[]].
    + intros e He. apply keeps_alias_free_print. intros c x ->. done.
    + intros. apply keeps_alias_free_on_fs.
    + intros module0 module_name b k _ Hk. apply classes_no_alias.
      intros mem c. by apply Hk.
    + intros module_dir c _. unfold write_init.
      keeps_steps alias_free alias_free_refl alias_free_trans.
      * apply keeps_alias_free_print. done.
      * apply keeps_alias_free_on_fs.
    + unfold prepare_output.
      keeps_steps alias_free alias_free_refl alias_free_trans;
        apply keeps_alias_free_on_fs.
Qed.

(** ** What a completed namespace leaves behind *)

Lemma bind_ret_inv {A B : Type} (m : M A) (k : A → M B) (w : world) (b : B) :
  (bind m k w).1 = Ret b →
  ∃ a, (m w).1 = Ret a ∧ bind m k w = k a (m w).2.
Proof.
  rewrite bind_run. destruct (m w) as [[a|e|] w']; cbn [fst snd]; try done.
  intros _. by exists a.
Qed.

Lemma function_loop_run heap (l : list (string * obj_id)) (b : list string) (w : world) :
  (foldM (function_step heap) l b w).2 = w
  ∧ (∀ c, (foldM (function_step heap) l b w).1 = Ret c →
       ∃ added, c = b ++ added ∧ function_lines heap l added)
  ∧ ((∃ e, In e l ∧ py_name (deref heap e.2) = None) →
       (foldM (function_step heap) l b w).1 = Raise (AttributeError "__name__")).
Proof.
  revert b. induction l as [|e l IH]; intros b.
  { simpl. split; [done|]. split.
    - intros c [= <-]. exists []. split; [by rewrite app_nil_r | constructor].
    - by intros (e & [] & _). }
  cbn [foldM]. rewrite bind_run. unfold function_step at 1 3 5.
  unfold bind, lift, ret.
  destruct (dump_function_stub (deref heap e.2)) as [line|x|] eqn:Hline.
  - destruct (IH (b ++ [line])) as (Hw & Hc & Hn). split; [done|]. split.
    + intros c (added & -> & Hadd)%Hc. exists (line :: added).
      split; [by rewrite <- app_assoc | by constructor].
    + intros (e' & [<-|Hin] & Hnone); [|apply Hn; by exists e'].
      unfold dump_function_stub in Hline. by rewrite Hnone in Hline.
  - cbn [fst snd]. split; [done|]. split; [done|]. intros _.
    unfold dump_function_stub in Hline.
    destruct (py_name (deref heap e.2)); [by destruct (py_signature _)|].
    by simplify_eq.
  - by destruct (dump_function_stub_finishes (deref heap e.2)).
Qed.

Lemma variable_loop_run heap (l : list (string * obj_id)) (b : list string) (w : world) :
  foldM (variable_step heap) l b w = (Ret (b ++ map (variable_line heap) l), w).
Proof.
  revert b. induction l as [|[n v] l IH]; intros b.
  { simpl. by rewrite app_nil_r. }
  cbn [foldM]. rewrite bind_run. unfold variable_step at 1.
  unfold bind, lift, ret. rewrite type_hint_of_spec.
  rewrite IH. by rewrite <- app_assoc.
Qed.

Lemma class_loop_same_fs heap module_name (l : list (string * obj_id)) b w :
  fs (foldM (class_step heap module_name) l b w).2 = fs w.
Proof.
  revert b w. induction l as [|e l IH]; intros b w; [done|].
  cbn [foldM]. rewrite bind_run.
  pose proof (class_step_same_fs heap module_name b e w) as He.
  destruct (class_step heap module_name b e w) as [[c|x|] w1]; cbn [snd] in *;
    [by rewrite IH | done | done].
Qed.

Lemma strip_nonblank (c : ascii) (r : string) :
  isspace c = false → strip (String c r) ≠ EmptyString.
Proof.
  intros Hc. unfold strip. cbn [lstrip]. rewrite Hc. cbn [rstrip].
  destruct (rstrip r); [by rewrite Hc | done].
Qed.

Lemma init_text_joined (rest : list string) :
  init_text (preamble :: rest) = joined_text (preamble :: rest).
Proof.
  unfold init_text, joined_text.
  assert (H : ∃ r, String.concat nl (preamble :: rest) = String "f" r).
  { destruct rest as [|x rest]; [by eexists|].
    change (String.concat nl (preamble :: x :: rest))
      with (preamble +:+ nl +:+ String.concat nl (x :: rest)).
    by eexists. }
  destruct H as [r Hr]. cbv zeta. rewrite Hr.
  pose proof (strip_nonblank "f" r eq_refl) as Hs.
  by destruct (strip (String "f" r)).
Qed.

Lemma write_init_returns (module_dir : path) (c : list string) (w : world) :
  (write_init module_dir c w).1 = Ret tt →
  fs (write_init module_dir c w).2
  = <[module_dir ++ ["__init__.pyi"] := File (init_text c)]> (fs w).
Proof.
  unfold write_init. rewrite bind_run. cbn [print]. unfold on_fs. cbn [fs].
  unfold fs_write.
  destruct (fs_lookup (fs w) (removelast _)) as [[|x]|]; try done.
  by destruct (fs_lookup (fs w) (module_dir ++ ["__init__.pyi"])) as [[|x]|].
Qed.

Lemma mkdir_returns_dir (p : path) (w : world) :
  (on_fs (fs_mkdir p) w).1 = Ret tt →
  fs_lookup (fs (on_fs (fs_mkdir p) w).2) p = Some Dir.
Proof.
  unfold on_fs, fs_mkdir.
  destruct (mkdir_from [] p (fs w)) as [r Y] eqn:Hm. cbn [fst snd fs].
  intros ->. destruct p as [|c p]; [done|].
  cbn [fs_lookup]. apply (mkdir_from_dirs [] (c :: p) (fs w) Y Hm); [done|].
  simpl. lia.
Qed.

Lemma submodule_loop_entries_kept heap fuel module_dir (l : list (string * obj_id))
    (b : list string) (w : world) :
  entries_kept w
    (foldM (submodule_step heap (create_module_structure heap fuel) module_dir) l b w).2.
Proof.
  apply (keeps_with_foldM entries_kept entries_kept_refl entries_kept_trans (λ _, True));
    [|done].
  intros b' e _.
  apply (traversal_submodule_step heap entries_kept (λ _, True)); try done.
  - apply entries_kept_trans.
  - intros ev _ w0. split; unfold print; cbn [snd fs]; eauto.
  - apply entries_kept_tree.
Qed.

Lemma body_enter heap rec module base_path module_name (w : world) :
  let name := match module_name with
              | Some n => n
              | None => namespace_name (deref heap module)
              end in
  let key := path_str base_path +:+ "/" +:+ name in
  let module_dir := path_join base_path (_sanitize_name (last_segment name)) in
  key ∉ processed_modules (gen w) →
  create_module_structure_body heap rec module base_path module_name w
  = bind (on_fs (fs_mkdir module_dir))
      (λ _, bind (get_module_members heap (deref heap module))
         (λ mem, bind (foldM (class_step heap name) (classes mem) [preamble])
            (λ c, bind (foldM (function_step heap) (functions mem) c)
               (λ c, bind (foldM (variable_step heap) (variables mem) c)
                  (λ c, bind (foldM (submodule_step heap rec module_dir)
                                (submodules mem) c)
                     (write_init module_dir))))))
      (enter_namespace key name w).
Proof.
  intros name key module_dir Hkey. unfold create_module_structure_body.
  rewrite bind_run. cbn [get_gen].
  fold name. unfold namespace_name in name. fold name. fold key.
  destruct (decide (key ∈ processed_modules (gen w))) as [Hin|_]; [done|].
  reflexivity.
Qed.

(** X9: when the tree builder returns from a namespace it had not visited, the
    directory of the namespace exists and its [__init__.pyi] holds, in this
    order: the preamble, the blocks of classes of the namespace, one line for
    each of its functions, one line for each of its variables, and import
    lines of its submodules, joined by newlines and ended by a newline.  The
    fallback text of the writer is never used, as the preamble is always
    there. *)
Theorem completed_namespace_descriptor (heap : gmap obj_id pyobj) (fuel : nat)
    (module : obj_id) (base_path : path) (module_name : option string) (w : world) :
  let name := match module_name with
              | Some n => n
              | None => namespace_name (deref heap module)
              end in
  let module_dir := path_join base_path (_sanitize_name (last_segment name)) in
  let mem := gm_members (classify heap (deref heap module) (class_name_mapping (gen w))) in
  let run := create_module_structure heap (S fuel) module base_path module_name w in
  path_str base_path +:+ "/" +:+ name ∉ processed_modules (gen w) →
  run.1 = Ret tt →
  fs_lookup (fs run.2) module_dir = Some Dir
  ∧ ∃ class_part function_part import_part,
      fs run.2 !! (module_dir ++ ["__init__.pyi"])
      = Some (File (joined_text
                      (preamble :: class_part ++ function_part
                         ++ map (variable_line heap) (variables mem) ++ import_part)))
      ∧ class_blocks heap name (classes mem) class_part
      ∧ function_lines heap (functions mem) function_part
      ∧ import_lines (submodules mem) import_part.
Proof.
  intros name module_dir mem run Hkey. subst run.
  change (create_module_structure heap (S fuel) module base_path module_name)
    with (create_module_structure_body heap (create_module_structure heap fuel)
            module base_path module_name).
  rewrite (body_enter heap _ module base_path module_name w Hkey).
  fold name. fold module_dir.
  set (w1 := enter_namespace _ name w).
  rewrite bind_run.
  pose proof (mkdir_returns_dir module_dir w1) as Hdir.
  destruct (on_fs (fs_mkdir module_dir) w1) as [[[]|x|] w2] eqn:Hmk; try done.
  cbn [fst snd] in Hdir. specialize (Hdir eq_refl).
  assert (Hgen : class_name_mapping (gen w2) = class_name_mapping (gen w)).
  { unfold on_fs in Hmk. destruct (fs_mkdir module_dir (fs w1)). by simplify_eq. }
  rewrite bind_run.
  destruct (classifier_no_alias heap (deref heap module) w2) as [_ Hmap].
  rewrite Hgen in Hmap. fold mem in Hmap.
  assert (Hfs3 : fs (get_module_members heap (deref heap module) w2).2 = fs w2) by done.
  assert (Hm : (get_module_members heap (deref heap module) w2).1 = Ret mem).
  { unfold get_module_members. cbn [fst]. by rewrite Hgen. }
  destruct (get_module_members heap (deref heap module) w2) as [r3 w3].
  cbn [fst snd] in *. subst r3.
  rewrite bind_run.
  destruct (class_loop_no_alias heap name (classes mem) [preamble] w3 Hmap) as [Hc _].
  pose proof (class_loop_same_fs heap name (classes mem) [preamble] w3) as Hfs4.
  destruct (foldM (class_step heap name) (classes mem) [preamble] w3)
    as [[c1|x|] w4]; try done.
  destruct (Hc c1 eq_refl) as (class_part & -> & Hclasses). cbn [snd] in Hfs4.
  rewrite bind_run.
  destruct (function_loop_run heap (functions mem) ([preamble] ++ class_part) w4)
    as (Hw & Hf & _).
  destruct (foldM (function_step heap) (functions mem) _ w4) as [[c2|x|] w4']; try done.
  cbn [fst snd] in *. subst w4'.
  destruct (Hf c2 eq_refl) as (function_part & -> & Hfunctions).
  rewrite bind_run, variable_loop_run.
  rewrite bind_run.
  pose proof (submodule_loop_entries_kept heap fuel module_dir (submodules mem)
                (([preamble] ++ class_part) ++ function_part
                   ++ map (variable_line heap) (variables mem)) w4) as Hkept.
  pose proof (submodule_loop_returns heap (create_module_structure heap fuel) module_dir
                (submodules mem)
                (([preamble] ++ class_part) ++ function_part
                   ++ map (variable_line heap) (variables mem)) w4) as Hs.
  rewrite <- !app_assoc in *.
  destruct (foldM (submodule_step heap (create_module_structure heap fuel) module_dir)
              (submodules mem) _ w4) as [[c4|x|] w5]; try done.
  cbn [fst snd] in *.
  destruct (Hs c4 eq_refl) as (import_part & -> & Himports).
  intros Hret. rewrite (write_init_returns _ _ _ Hret).
  split.
  - destruct module_dir as [|d module_dir]; [done|]. cbn [fs_lookup] in *.
    rewrite lookup_insert_ne.
    + apply Hkept. by rewrite Hfs4, Hfs3.
    + intros H. apply (f_equal length) in H. rewrite length_app in H. simpl in H. lia.
  - exists class_part, function_part, import_part.
    split; [|done].
    rewrite lookup_insert_eq. do 2 f_equal.
    rewrite <- !app_assoc. apply init_text_joined.
Qed.

Lemma completed_namespace_descriptor_witness :
  let run := create_module_structure widget_heap 1 1%positive ["stubs"] None (start ∅) in
  fs_lookup (fs run.2) ["stubs"; "demo"] = Some Dir
  ∧ ∃ class_part function_part,
      fs run.2 !! ["stubs"; "demo"; "__init__.pyi"]
      = Some (File (joined_text (preamble :: class_part ++ function_part)))
      ∧ function_lines widget_heap [("make", 3%positive)] function_part.
Proof.
  destruct (completed_namespace_descriptor widget_heap 0 1%positive ["stubs"] None
              (start ∅)) as (Hd & cp & fp & ip & Hfile & Hc & Hf & Hi).
  - apply not_elem_of_empty.
  - reflexivity.
  - split; [exact Hd|]. exists cp, fp.
    assert (ip = []) as ->.
    { destruct ip as [|x ip]; [done|].
      apply Forall_cons in Hi as [(n & v & [] & _) _]. }
    split; [|exact Hf].
    etrans; [exact Hfile|]. by rewrite app_nil_r.
Defined.

(** X10: a callable of the namespace that has no [__name__], such as an instance
    of a callable class defined there, makes the tree builder leave the
    namespace with an exception, before any submodule is visited: whatever
    else the namespace holds, the file system is left as the creation of the
    directory of the namespace leaves it, and its [__init__.pyi] is not
    written. *)
Theorem nameless_function_aborts_namespace (heap : gmap obj_id pyobj) (fuel : nat)
    (module : obj_id) (base_path : path) (module_name : option string) (w : world)
    (n : string) (v : obj_id) :
  let name := match module_name with
              | Some n => n
              | None => namespace_name (deref heap module)
              end in
  let module_dir := path_join base_path (_sanitize_name (last_segment name)) in
  let mem := gm_members (classify heap (deref heap module) (class_name_mapping (gen w))) in
  let run := create_module_structure heap (S fuel) module base_path module_name w in
  path_str base_path +:+ "/" +:+ name ∉ processed_modules (gen w) →
  In (n, v) (functions mem) →
  py_name (deref heap v) = None →
  (∃ e, run.1 = Raise e)
  ∧ fs run.2 = (fs_mkdir module_dir (fs w)).2.
Proof.
  intros name module_dir mem run Hkey Hin Hnone. subst run.
  match goal with |- (∃ e, ?X.1 = Raise e) ∧ fs ?X.2 = ?f =>
    cut (∃ e w', X = (Raise e, w') ∧ fs w' = f);
      [intros (e & w' & -> & <-); by eauto|]
  end.
  change (create_module_structure heap (S fuel) module base_path module_name)
    with (create_module_structure_body heap (create_module_structure heap fuel)
            module base_path module_name).
  rewrite (body_enter heap _ module base_path module_name w Hkey).
  fold name. fold module_dir.
  rewrite bind_run. unfold on_fs. cbn [fs enter_namespace gen stdout].
  pose proof (mkdir_from_finishes [] module_dir (fs w)) as Hfin.
  unfold fs_mkdir.
  destruct (mkdir_from [] module_dir (fs w)) as [[[]|x|] f2]; cbn [fst snd] in *;
    [| by eexists _, _ | done].
  rewrite bind_run. unfold get_module_members.
  cbn [gen fs stdout add_processed_module class_name_mapping]. fold mem.
  rewrite bind_run.
  match goal with |- context [foldM (class_step heap name) (classes mem) [preamble] ?w3] =>
    pose proof (class_loop_same_fs heap name (classes mem) [preamble] w3) as Hfs;
    pose proof (finishes_foldM (class_step heap name) (classes mem) [preamble]
                  (λ b a _, finishes_class_step heap name b a) w3) as Hcf;
    destruct (foldM (class_step heap name) (classes mem) [preamble] w3) as [[c1|x|] w4]
  end; cbn [fst snd fs gen] in *; [| by eexists _, _ | done].
  rewrite bind_run.
  destruct (function_loop_run heap (functions mem) c1 w4) as (Hw & _ & Hr).
  specialize (Hr (ex_intro _ (n, v) (conj Hin Hnone))).
  destruct (foldM (function_step heap) (functions mem) c1 w4) as [r w4'].
  cbn [fst snd] in *. subst. by eexists _, _.
Qed.

Lemma nameless_function_aborts_namespace_witness :
  let run := create_module_structure handler_heap 1 1%positive ["stubs"] None (start ∅) in
  (∃ e, run.1 = Raise e)
  ∧ fs run.2 = (fs_mkdir ["stubs"; "m"] ∅).2.
Proof.
  apply (nameless_function_aborts_namespace handler_heap 0 1%positive ["stubs"] None
           (start ∅) "handler" 2%positive).
  - apply not_elem_of_empty.
  - by left.
  - reflexivity.
Defined.
